(** * ast-tools: import resolution and dependency-graph building

    A shallow embedding of [src/file.ts] (extension probing, project-aware
    path resolution, project-root lookup) and [src/analyze-imports.ts]
    (import extraction and the recursive dependency collector).

    Conventions of the embedding:
    - a JavaScript string is a [string]; every operation the sources use
      ([startsWith], [includes], [slice], [lastIndexOf], [replace], [+])
      is position-wise on code units, and is written out below;
    - a call that may throw (or an async call that may reject) returns a
      [completion]: [Normal v] or [Throw e];
    - a plain object used as a table is the list of its entries in own
      property order (array-index keys ascending, then the other keys in
      creation order);
    - the file system, Babel's parser and the working directory are not part
      of the repository: they are parameters of the functions that call
      them;
    - of a parsed module the embedding keeps the import declarations;
      [traverse] is its scope pass over them, which refuses a name bound
      twice, followed by the visitors;
    - recursion whose depth depends on the file system carries the remaining
      call-stack depth; running out of it is the engine's RangeError. *)

From Stdlib Require Import String Ascii List ZArith Lia Bool.
Import ListNotations.
Open Scope list_scope.
Open Scope string_scope.

(** ** JavaScript strings *)

Module JsString.

Fixpoint drop (n : nat) (s : string) : string :=
  match n, s with
  | O, _ => s
  | S _, EmptyString => EmptyString
  | S n', String _ s' => drop n' s'
  end.

Fixpoint take (n : nat) (s : string) : string :=
  match n, s with
  | O, _ => EmptyString
  | S _, EmptyString => EmptyString
  | S n', String c s' => String c (take n' s')
  end.

(** [s.startsWith(p)] *)
Definition startsWith (s p : string) : bool := String.prefix p s.

(** [s.endsWith(p)] *)
Definition endsWith (s p : string) : bool :=
  (String.length p <=? String.length s)%nat
  && String.eqb (drop (String.length s - String.length p) s) p.

(** [s.indexOf(p)], [-1] when [p] does not occur. *)
Fixpoint indexOf_from (i : Z) (s p : string) : Z :=
  if String.prefix p s then i
  else match s with
       | EmptyString => (-1)%Z
       | String _ s' => indexOf_from (i + 1) s' p
       end.

Definition indexOf (s p : string) : Z := indexOf_from 0 s p.

(** [s.includes(p)] *)
Definition includes (s p : string) : bool := (0 <=? indexOf s p)%Z.

(** [s.lastIndexOf(p)], [-1] when [p] does not occur. *)
Fixpoint lastIndexOf_from (i acc : Z) (s p : string) : Z :=
  let acc' := if String.prefix p s then i else acc in
  match s with
  | EmptyString => acc'
  | String _ s' => lastIndexOf_from (i + 1) acc' s' p
  end.

Definition lastIndexOf (s p : string) : Z := lastIndexOf_from 0 (-1) s p.

(** [s.slice(start)]: a negative start counts from the end. *)
Definition slice (s : string) (start : Z) : string :=
  let len := Z.of_nat (String.length s) in
  let from := if (start <? 0)%Z then Z.max (len + start) 0 else Z.min start len in
  drop (Z.to_nat from) s.

(** [s.slice(0, end)] for a non-negative end. *)
Definition slice_to (s : string) (stop : Z) : string := take (Z.to_nat stop) s.

(** The replacement text of [String.prototype.replace] for a string
    pattern (no captures): [$$] is a dollar sign, [$&] the matched text,
    [$`] the text before the match, [$'] the text after it; any other
    character after a dollar sign leaves both as they are. *)
Fixpoint getSubstitution (matched before after rep : string) : string :=
  match rep with
  | EmptyString => EmptyString
  | String c rep' =>
      if Ascii.eqb c "$" then
        match rep' with
        | String d rep'' =>
            if Ascii.eqb d "$" then String "$" (getSubstitution matched before after rep'')
            else if Ascii.eqb d "&" then matched ++ getSubstitution matched before after rep''
            else if Ascii.eqb d "`" then before ++ getSubstitution matched before after rep''
            else if Ascii.eqb d "'" then after ++ getSubstitution matched before after rep''
            else String c (getSubstitution matched before after rep')
        | EmptyString => String c EmptyString
        end
      else String c (getSubstitution matched before after rep')
  end.

(** [s.replace(pat, rep)] with a string pattern: only the first
    occurrence is replaced. *)
Definition replace (s pat rep : string) : string :=
  let i := indexOf s pat in
  if (i <? 0)%Z then s
  else
    let before := take (Z.to_nat i) s in
    let after := drop (Z.to_nat i + String.length pat) s in
    before ++ getSubstitution pat before after rep ++ after.

(** [s.at(-1)] *)
Fixpoint lastChar (s : string) : option ascii :=
  match s with
  | EmptyString => None
  | String c EmptyString => Some c
  | String _ s' => lastChar s'
  end.

(** Truthiness of a string: the empty string is falsy. *)
Definition truthy (s : string) : bool := negb (String.eqb s "").

(** [arr.includes(x)] on an array of strings. *)
Definition array_includes (arr : list string) (x : string) : bool :=
  existsb (String.eqb x) arr.

End JsString.

(** ** Node's [path] module (POSIX flavour)

    [resolve] and [dirname] are written at the level of path segments,
    following [lib/path.js]: arguments are taken from the right until an
    absolute one is met, the working directory is used when none is, and the
    joined text is normalised (empty segments and [.] dropped, [..]
    cancelling the segment before it). *)

Module NodePath.

Fixpoint split (s : string) : list string :=
  match s with
  | EmptyString => [EmptyString]
  | String c s' =>
      if Ascii.eqb c "/" then EmptyString :: split s'
      else match split s' with
           | seg :: segs => String c seg :: segs
           | [] => [String c EmptyString]
           end
  end.

Fixpoint join (segs : list string) : string :=
  match segs with
  | [] => EmptyString
  | [seg] => seg
  | seg :: segs' => seg ++ "/" ++ join segs'
  end.

(** [normalizeString]: [stack] holds the kept segments, last one first. *)
Fixpoint normalizeSegments (allowAboveRoot : bool) (segs stack : list string)
  : list string :=
  match segs with
  | [] => rev stack
  | seg :: rest =>
      if String.eqb seg "" || String.eqb seg "." then
        normalizeSegments allowAboveRoot rest stack
      else if String.eqb seg ".." then
        match stack with
        | last :: stack' =>
            if String.eqb last ".." then
              normalizeSegments allowAboveRoot rest
                (if allowAboveRoot then ".." :: stack else stack)
            else normalizeSegments allowAboveRoot rest stack'
        | [] =>
            normalizeSegments allowAboveRoot rest
              (if allowAboveRoot then [".."] else [])
        end
      else normalizeSegments allowAboveRoot rest (seg :: stack)
  end.

Definition normalizeString (p : string) (allowAboveRoot : bool) : string :=
  join (normalizeSegments allowAboveRoot (split p) []).

(** The right-to-left loop of [resolve]: [rargs] is the argument list
    reversed; when it is exhausted the working directory is used. *)
Fixpoint resolve_loop (cwd : string) (rargs : list string) (resolvedPath : string)
  : string * bool :=
  match rargs with
  | [] =>
      if String.eqb cwd "" then (resolvedPath, false)
      else (cwd ++ "/" ++ resolvedPath, JsString.startsWith cwd "/")
  | p :: rest =>
      if String.eqb p "" then resolve_loop cwd rest resolvedPath
      else
        let r := p ++ "/" ++ resolvedPath in
        if JsString.startsWith p "/" then (r, true) else resolve_loop cwd rest r
  end.

Definition resolve (cwd : string) (args : list string) : string :=
  let (resolvedPath, resolvedAbsolute) := resolve_loop cwd (rev args) "" in
  let normalized := normalizeString resolvedPath (negb resolvedAbsolute) in
  if resolvedAbsolute then "/" ++ normalized
  else if JsString.truthy normalized then normalized else ".".

(** The backward scan of [dirname]: [chars] are the characters at indices
    [i], [i-1], ..., [1]; the result is the index of the slash that ends
    the directory part. *)
Fixpoint dirname_scan (chars : list ascii) (i : nat) (matchedSlash : bool)
  : option nat :=
  match chars with
  | [] => None
  | c :: rest =>
      if Ascii.eqb c "/" then
        if matchedSlash then dirname_scan rest (i - 1) true else Some i
      else dirname_scan rest (i - 1) false
  end.

Definition dirname (p : string) : string :=
  match p with
  | EmptyString => "."
  | String c0 tail =>
      let hasRoot := Ascii.eqb c0 "/" in
      match dirname_scan (rev (list_ascii_of_string tail)) (String.length tail) true with
      | None => if hasRoot then "/" else "."
      | Some stop =>
          if hasRoot && (stop =? 1)%nat then "//"
          else JsString.slice_to p (Z.of_nat stop)
      end
  end.

End NodePath.

(** ** Completions and errors *)

(** What a [catch] clause can receive.  [SystemError] is an error raised by
    [fs], carrying its [error.code] ([ENOENT], [EACCES], ...); [Error] is a
    plain [new Error(message)]; [RangeError] is the engine's "maximum call
    stack size exceeded"; [TypeError] is a [new TypeError(message)], as the
    scope pass of [@babel/traverse] raises. *)
Inductive JsError : Type :=
| SystemError (code : string)
| Error (message : string)
| RangeError
| TypeError (message : string).

Definition error_code (e : JsError) : option string :=
  match e with
  | SystemError c => Some c
  | _ => None
  end.

(** [error.code !== 'ENOENT'] *)
Definition code_is_not_ENOENT (e : JsError) : bool :=
  match error_code e with
  | Some c => negb (String.eqb c "ENOENT")
  | None => true
  end.

Inductive completion (A : Type) : Type :=
| Normal (v : A)
| Throw (e : JsError).

Arguments Normal {A} v.
Arguments Throw {A} e.

Definition bind {A B : Type} (c : completion A) (k : A -> completion B) : completion B :=
  match c with
  | Normal v => k v
  | Throw e => Throw e
  end.

Notation "x <- c ;; k" := (bind c (fun x => k))
  (at level 61, c at next level, right associativity).

(** [try { body } catch (err) { handler }] *)
Definition try_catch {A : Type} (body : completion A) (handler : JsError -> completion A)
  : completion A :=
  match body with
  | Normal v => Normal v
  | Throw e => handler e
  end.

(** ** Plain objects as ordered tables *)

Module JsObject.

Definition t (V : Type) : Type := list (string * V).

Definition digit (c : ascii) : option N :=
  let n := N_of_ascii c in
  if ((48 <=? n) && (n <=? 57))%N then Some (n - 48)%N else None.

Fixpoint parseDigits (s : string) (acc : N) : option N :=
  match s with
  | EmptyString => Some acc
  | String c s' =>
      match digit c with
      | Some d => parseDigits s' (acc * 10 + d)%N
      | None => None
      end
  end.

(** A key is an array index when it is the canonical decimal text of an
    integer below [2^32 - 1]. *)
Definition arrayIndex (k : string) : option N :=
  match k with
  | EmptyString => None
  | String c rest =>
      if Ascii.eqb c "0" && negb (String.eqb rest "") then None
      else match parseDigits k 0 with
           | Some n => if (n <=? 4294967294)%N then Some n else None
           | None => None
           end
  end.

Section Table.
Variable V : Type.

Fixpoint get (k : string) (o : t V) : option V :=
  match o with
  | [] => None
  | (k', v) :: o' => if String.eqb k k' then Some v else get k o'
  end.

Definition has (k : string) (o : t V) : bool :=
  match get k o with Some _ => true | None => false end.

Fixpoint update (k : string) (v : V) (o : t V) : t V :=
  match o with
  | [] => []
  | (k', v') :: o' =>
      if String.eqb k k' then (k', v) :: o' else (k', v') :: update k v o'
  end.

Fixpoint insertIndex (n : N) (k : string) (v : V) (o : t V) : t V :=
  match o with
  | [] => [(k, v)]
  | (k', v') :: o' =>
      match arrayIndex k' with
      | Some n' => if (n <? n')%N then (k, v) :: o else (k', v') :: insertIndex n k v o'
      | None => (k, v) :: o
      end
  end.

(** The own property [k] of [o] is given the value [v]: what an object
    literal and a spread do for every key, and what [o[k] = v] does for
    every key that no setter of the prototype chain answers. *)
Definition set (k : string) (v : V) (o : t V) : t V :=
  if has k o then update k v o
  else match arrayIndex k with
       | Some n => insertIndex n k v o
       | None => (o ++ [(k, v)])%list
       end.

(** [o[k] = v] on an object created by [{}] and written to by assignments
    only.  Its prototype chain ends in [Object.prototype], whose one
    accessor is [__proto__]: that assignment runs the setter, which gives
    [o] another prototype and no own property.  The prototype is not part
    of a table: the sources read their tables through [Object.keys],
    [Object.values], [Object.entries] and the keys found there. *)
Definition assign (k : string) (v : V) (o : t V) : t V :=
  if String.eqb k "__proto__" then o else set k v o.

(** [{ ...target, ...source }] *)
Definition spread (target source : t V) : t V :=
  fold_left (fun acc kv => set (fst kv) (snd kv) acc) source target.

Definition entries (o : t V) : list (string * V) := o.
Definition keys (o : t V) : list string := map fst o.
Definition values (o : t V) : list V := map snd o.
End Table.

Arguments get {V} k o.
Arguments has {V} k o.
Arguments update {V} k v o.
Arguments insertIndex {V} n k v o.
Arguments set {V} k v o.
Arguments assign {V} k v o.
Arguments spread {V} target source.
Arguments entries {V} o.
Arguments keys {V} o.
Arguments values {V} o.

End JsObject.

(** ** The file system, as the sources see it

    Each field is one of the [fs] calls made by the sources, on a snapshot
    of the disk. *)
Record FileSystem : Type := {
  (** [fs.lstatSync(p).isDirectory()] *)
  lstatSync_isDirectory : string -> completion bool;
  (** [fs.readdirSync(p)] *)
  readdirSync : string -> completion (list string);
  (** [fs.existsSync(p)] *)
  existsSync : string -> bool;
  (** [fs.readFileSync(p, 'utf8')] *)
  readFileSync : string -> completion string;
  (** [await fs.access(p)] *)
  access : string -> completion unit
}.

(** ** src/file.ts *)

Section FileTs.

Variable cwd : string.
Variable fs : FileSystem.

Definition resolve (args : list string) : string := NodePath.resolve cwd args.

Definition defaultExtensions : list string :=
  [".js"; ".jsx"; ".ts"; ".tsx"; ".json"; "txt"].

(** [baseFilePath.includes(ext) ? baseFilePath : `${baseFilePath}${ext}`] *)
Definition candidatePath (baseFilePath ext : string) : string :=
  if JsString.includes baseFilePath ext then baseFilePath else baseFilePath ++ ext.

Fixpoint readFileWithExtensions_loop (baseFilePath : string) (extensions : list string)
  : completion string :=
  match extensions with
  | [] => Throw (Error ("No file found with the given extensions.(" ++ baseFilePath ++ ")"))
  | ext :: rest =>
      match readFileSync fs (candidatePath baseFilePath ext) with
      | Normal content => Normal content
      | Throw error =>
          if code_is_not_ENOENT error then Throw error
          else readFileWithExtensions_loop baseFilePath rest
      end
  end.

Definition readFileWithExtensions (baseFilePath : string) (extensions : option (list string))
  : completion string :=
  readFileWithExtensions_loop baseFilePath
    (match extensions with Some exts => exts | None => defaultExtensions end).

Fixpoint existFileWithExtensions_loop (baseFilePath : string) (extensions : list string)
  : completion string :=
  match extensions with
  | [] => Normal ""
  | ext :: rest =>
      match access fs (candidatePath baseFilePath ext) with
      | Normal _ => Normal (candidatePath baseFilePath ext)
      | Throw error =>
          if code_is_not_ENOENT error then Throw error
          else existFileWithExtensions_loop baseFilePath rest
      end
  end.

Definition existFileWithExtensions (baseFilePath : string) (extensions : option (list string))
  : completion string :=
  existFileWithExtensions_loop baseFilePath
    (match extensions with Some exts => exts | None => defaultExtensions end).

Definition isDirectory (p : string) : bool :=
  match lstatSync_isDirectory fs p with
  | Normal b => b
  | Throw _ => false
  end.

Definition isRelative (p : string) : bool :=
  JsString.startsWith p "." || JsString.startsWith p "..".

Definition readRelativeImportFile (sourceFilePath importPath : string) : completion string :=
  if negb (isRelative importPath) then Throw (Error "Import path is not a relative path.")
  else
    let baseImportFilePath := resolve [NodePath.dirname sourceFilePath; importPath] in
    readFileWithExtensions baseImportFilePath (Some [".js"; ".jsx"; ".ts"; ".tsx"; ".json"]).

(** [{ '@/': 'src/', ...(importAlias || {}) }] *)
Definition enableAlias (importAlias : option (JsObject.t string)) : JsObject.t string :=
  JsObject.spread [("@/", "src/")]
    (match importAlias with Some a => a | None => [] end).

(** One step of the [forEach] over [Object.entries(enableAlias)]. *)
Definition aliasStep (rootDir importPath : string) (realPath : string)
           (entry : string * string) : string :=
  let (alias, target) := entry in
  if JsString.startsWith importPath alias
  then resolve [rootDir; JsString.replace importPath alias target]
  else realPath.

(** The value of [realPath] after the three-way branch of
    [getRealImportFilePath], before the directory check. *)
Definition specifierPath (rootDir fileDir importPath : string)
           (importAlias : option (JsObject.t string)) : string :=
  if JsString.includes fileDir "config/config" && negb (JsString.startsWith importPath "@")
  then resolve [rootDir; "src/pages"; importPath]
  else if isRelative importPath
  then resolve [fileDir; ".."; importPath]
  else
    let realPath :=
      if JsString.startsWith importPath "src"
      then resolve [rootDir; importPath]
      else resolve [rootDir; "src"; importPath] in
    fold_left (aliasStep rootDir importPath)
              (JsObject.entries (enableAlias importAlias)) realPath.

Definition getRealImportFilePath (rootDir fileDir importPath : string)
           (importAlias : option (JsObject.t string)) : completion string :=
  let realPath := specifierPath rootDir fileDir importPath importAlias in
  let realPath := if isDirectory realPath then resolve [realPath; "index"] else realPath in
  existFileWithExtensions (resolve [realPath]) None.

(** [depth] is the call-stack depth still available. *)
Fixpoint getAppRootDir (depth : nat) (routeConfigPath : string) : completion string :=
  match depth with
  | O => Throw RangeError
  | S depth' =>
      let parentPath := resolve [routeConfigPath; ".."] in
      files <- readdirSync fs parentPath ;;
      if existsb (fun file => String.eqb file "package.json") files
      then Normal parentPath
      else getAppRootDir depth' parentPath
  end.

End FileTs.

(** ** src/analyze-imports.ts *)

Inductive ImportKind : Type := value | type.

(** [ImportMap] and its extension [ImportMapWithDeps]: the objects built by
    [analyzeImports] are the very objects [analyzeDependencies] later gives
    a [dependencies] field, so one type serves both ([dependencies] is
    [None] while the field is absent).  [beImportedId] is never written. *)
#[warnings="-register-all"]
Inductive ImportMapWithDeps : Type := mkImportMap {
  id : string;
  source : string;
  importKind : option ImportKind;
  exportName : option string;
  dependencies : option (list (string * ImportMapWithDeps))
}.

Definition ImportTable : Type := JsObject.t ImportMapWithDeps.

(** What [traverse] and the visitors of [analyzeImports] read of Babel's
    tree: the import declarations of the module in source order, each with
    its specifier nodes in order.  [imported] is the [name] of the imported
    node, absent when that node is a string literal; [specifierKind] is the
    [importKind] of the specifier node itself ([import { type T } from]).
    The other statements of the module are not represented. *)
Inductive SpecifierNode : Type :=
| ImportNamespaceSpecifier (local : string)
| ImportDefaultSpecifier (local : string)
| ImportSpecifier (local : string) (imported : option string)
                  (specifierKind : option ImportKind).

Record ImportDeclaration : Type := {
  decl_source : string;
  decl_importKind : option ImportKind;
  decl_specifiers : list SpecifierNode
}.

Definition AST : Type := list ImportDeclaration.

Definition extensions : list string := [".js"; ".jsx"; ".ts"; ".tsx"].

(** *** The scope pass of [@babel/traverse]

    [traverse] builds the scope of the program before it calls a visitor
    ([Scope.crawl]).  Of that pass the model keeps what it does with import
    declarations, following [lib/scope/index.js]: [registerDeclaration]
    registers every specifier of a declaration, in order, as a binding of
    kind [module], or of kind [unknown] when the declaration or the
    specifier is type-only; [registerBinding] keeps the first binding of a
    name, and [checkBlockScopedCollisions] throws when the name is already
    bound by a [module] binding. *)

Inductive BindingKind : Type := module_kind | unknown_kind.

Definition isTypeKind (k : option ImportKind) : bool :=
  match k with
  | Some type => true
  | _ => false
  end.

(** [isTypeDeclaration || (specifier.isImportSpecifier() &&
    specifier.node.importKind === 'type')] *)
Definition isTypeSpecifier (decl : ImportDeclaration) (spec : SpecifierNode) : bool :=
  isTypeKind (decl_importKind decl)
  || match spec with
     | ImportSpecifier _ _ k => isTypeKind k
     | _ => false
     end.

Definition bindingKind (decl : ImportDeclaration) (spec : SpecifierNode) : BindingKind :=
  if isTypeSpecifier decl spec then unknown_kind else module_kind.

(** [path.get('local').node.name] *)
Definition local (spec : SpecifierNode) : string :=
  match spec with
  | ImportNamespaceSpecifier l => l
  | ImportDefaultSpecifier l => l
  | ImportSpecifier l _ _ => l
  end.

Definition doubleQuote : string := String (ascii_of_nat 34) EmptyString.

(** [checkBlockScopedCollisions(local, kind, name, id)] for the two kinds
    an import can have: the binding found is what decides. *)
Definition checkBlockScopedCollisions (localKind kind : BindingKind) (name : string)
  : completion unit :=
  match localKind with
  | module_kind =>
      Throw (TypeError ("Duplicate declaration " ++ doubleQuote ++ name ++ doubleQuote))
  | unknown_kind => Normal tt
  end.

(** [registerBinding(kind, specifier)]; [scope] is the table of the
    bindings of the scope, an object without prototype. *)
Definition registerBinding (kind : BindingKind) (name : string)
           (scope : JsObject.t BindingKind) : completion (JsObject.t BindingKind) :=
  match JsObject.get name scope with
  | Some localKind =>
      _ <- checkBlockScopedCollisions localKind kind name ;;
      Normal scope
  | None => Normal (JsObject.set name kind scope)
  end.

(** [registerDeclaration(path)] on an import declaration. *)
Fixpoint registerSpecifiers (decl : ImportDeclaration) (specs : list SpecifierNode)
         (scope : JsObject.t BindingKind) : completion (JsObject.t BindingKind) :=
  match specs with
  | [] => Normal scope
  | spec :: rest =>
      scope' <- registerBinding (bindingKind decl spec) (local spec) scope ;;
      registerSpecifiers decl rest scope'
  end.

Fixpoint crawl (ast : AST) (scope : JsObject.t BindingKind)
  : completion (JsObject.t BindingKind) :=
  match ast with
  | [] => Normal scope
  | decl :: rest =>
      scope' <- registerSpecifiers decl (decl_specifiers decl) scope ;;
      crawl rest scope'
  end.

Section AnalyzeImportsTs.

Variable cwd : string.
Variable fs : FileSystem.
(** [parse(content, { sourceType: 'module', plugins: [...] })] *)
Variable parse : string -> completion AST.

(** The first half of [transformToAST]: the choice of [realPath].  An
    [undefined] left by [find] is the empty string here (both are falsy,
    and [realPath] is only tested for truthiness before it is used). *)
Definition chooseRealPath (filePath : string) : completion string :=
  if isDirectory fs filePath then
    items <- readdirSync fs filePath ;;
    Normal
      (fold_left
         (fun realPath item =>
            if negb (isDirectory fs (resolve cwd [filePath; item]))
               && JsString.includes item "index"
               && JsString.array_includes extensions
                    (JsString.slice item (JsString.lastIndexOf item "."))
            then resolve cwd [filePath; item]
            else realPath)
         items "")
  else
    let fileName :=
      JsString.replace (JsString.slice filePath (JsString.lastIndexOf filePath "/")) "/" "" in
    let suffix :=
      if (-1 <? JsString.lastIndexOf fileName ".")%Z
      then JsString.slice fileName (JsString.lastIndexOf fileName ".")
      else "" in
    if JsString.truthy suffix && JsString.array_includes extensions suffix then
      Normal filePath
    else if negb (JsString.truthy suffix) then
      let pathes := filePath :: map (fun ext => filePath ++ ext) extensions in
      Normal (match find (existsSync fs) pathes with
              | Some p => p
              | None => ""
              end)
    else Normal "".

(** The second half: read and parse, failures swallowed. *)
Definition readAndParse (realPath : string) : completion (option AST) :=
  try_catch
    (content <- readFileSync fs realPath ;;
     if JsString.truthy content
     then ast <- parse content ;; Normal (Some ast)
     else Normal None)
    (fun _ => Normal None).

Definition transformToAST (filePath : string) : completion (option AST) :=
  realPath <- chooseRealPath filePath ;;
  if negb (JsString.truthy realPath) then Normal None
  else readAndParse realPath.

(** The block shared by the three visitors: the value of
    [absoluteSource], [None] when it stays [undefined]. *)
Definition absoluteSourceOf (filePath : string)
           (filter : option (string -> completion bool)) (src : string)
  : completion (option string) :=
  if isRelative src then
    if isDirectory fs filePath
    then Normal (Some (resolve cwd [filePath; src]))
    else Normal (Some (resolve cwd [NodePath.dirname filePath; src]))
  else
    match filter with
    | None => Normal (Some src)
    | Some accepts =>
        ok <- accepts src ;;
        Normal (if ok then Some src else None)
    end.

(** [exportName] as each visitor writes it. *)
Definition exportNameOf (spec : SpecifierNode) : option string :=
  match spec with
  | ImportNamespaceSpecifier _ => None
  | ImportDefaultSpecifier _ => Some "default"
  | ImportSpecifier _ imported _ => imported
  end.

(** One visitor call. *)
Definition visitSpecifier (filePath : string)
           (filter : option (string -> completion bool))
           (parentNode : ImportDeclaration)
           (result : ImportTable) (spec : SpecifierNode) : completion ImportTable :=
  absoluteSource <- absoluteSourceOf filePath filter (decl_source parentNode) ;;
  match absoluteSource with
  | Some a =>
      if JsString.truthy a then
        Normal (JsObject.assign (local spec)
                  {| id := a;
                     source := decl_source parentNode;
                     importKind := decl_importKind parentNode;
                     exportName := exportNameOf spec;
                     dependencies := None |}
                  result)
      else Normal result
  | None => Normal result
  end.

Fixpoint visitSpecifiers (filePath : string)
         (filter : option (string -> completion bool))
         (parentNode : ImportDeclaration)
         (specs : list SpecifierNode) (result : ImportTable) : completion ImportTable :=
  match specs with
  | [] => Normal result
  | spec :: rest =>
      result' <- visitSpecifier filePath filter parentNode result spec ;;
      visitSpecifiers filePath filter parentNode rest result'
  end.

(** The walk of [traverse] over the tree, after the scopes are built: the
    visitors are called on the specifier nodes in source order. *)
Fixpoint visitDeclarations (filePath : string)
         (filter : option (string -> completion bool))
         (ast : AST) (result : ImportTable) : completion ImportTable :=
  match ast with
  | [] => Normal result
  | decl :: rest =>
      result' <- visitSpecifiers filePath filter decl (decl_specifiers decl) result ;;
      visitDeclarations filePath filter rest result'
  end.

(** [traverse(ast, visitors)]: the scope of the program is built when the
    walk enters it, before any visitor is called; then the walk. *)
Definition traverse (filePath : string)
           (filter : option (string -> completion bool))
           (ast : AST) (result : ImportTable) : completion ImportTable :=
  _ <- crawl ast [] ;;
  visitDeclarations filePath filter ast result.

Definition analyzeImports (filePath : string)
           (filter : option (string -> completion bool)) : completion ImportTable :=
  ast <- transformToAST filePath ;;
  match ast with
  | Some ast => traverse filePath filter ast []
  | None => Normal []
  end.

(** [last[key].dependencies = innerDeps] *)
Definition set_dependencies (dep : ImportMapWithDeps) (deps : ImportTable)
  : ImportMapWithDeps :=
  {| id := id dep;
     source := source dep;
     importKind := importKind dep;
     exportName := exportName dep;
     dependencies := Some deps |}.

(** [Object.keys(last).forEach(...)]: the callback may assign to the entry
    it visits and may throw.  The table is returned as the heap holds it
    when the loop ends: after a throw the entries not yet visited are
    untouched, and the assignments already made stay. *)
Fixpoint forEachEntry (visit : ImportMapWithDeps -> ImportMapWithDeps * completion unit)
         (last : ImportTable) : ImportTable * completion unit :=
  match last with
  | [] => ([], Normal tt)
  | (key, dep) :: rest =>
      let (dep', c) := visit dep in
      match c with
      | Normal _ =>
          let (rest', c') := forEachEntry visit rest in
          ((key, dep') :: rest', c')
      | Throw e => ((key, dep') :: rest, Throw e)
      end
  end.

(** [depth] is the call-stack depth still available to [deepCollect]. *)
Fixpoint deepCollect (filter : option (string -> completion bool)) (depth : nat)
         (last : ImportTable) (parentIds : list string)
  : ImportTable * completion unit :=
  match depth with
  | O => (last, Throw RangeError)
  | S depth' =>
      forEachEntry
        (fun dep =>
           if isRelative (source dep) && negb (JsString.endsWith (id dep) ".json") then
             match analyzeImports (id dep) filter with
             | Throw e => (dep, Throw e)
             | Normal innerDeps =>
                 if negb (existsb (fun i => JsString.array_includes parentIds (id i))
                                  (JsObject.values innerDeps))
                 then
                   let (deps', c) :=
                     deepCollect filter depth' innerDeps (parentIds ++ [id dep])%list in
                   (set_dependencies dep deps', c)
                 else (dep, Normal tt)
             end
           else (dep, Normal tt))
        last
  end.

(** The [try] block of [analyzeDependencies]: the [dependencies] object
    as the heap holds it when the block ends (absent when the first
    [analyzeImports] threw), and the completion of the block. *)
Definition analyzeDependencies_try (depth : nat) (filePath : string)
           (filter : option (string -> completion bool))
  : option ImportTable * completion ImportTable :=
  match analyzeImports filePath filter with
  | Throw e => (None, Throw e)
  | Normal deps =>
      let (deps', c) := deepCollect filter depth deps [filePath] in
      (Some deps', _ <- c ;; Normal deps')
  end.

Definition analyzeDependencies (depth : nat) (filePath : string)
           (filter : option (string -> completion bool)) : completion ImportTable :=
  try_catch (snd (analyzeDependencies_try depth filePath filter))
            (fun err => Normal []).

End AnalyzeImportsTs.

(** ** Vocabulary of the statements

    [specifiedDefaultExtensions] and [lastMatchingAlias] follow the words of
    the specification, to be compared with what the code computes; the
    other definitions name what the statements below talk about. *)

(** The default extension list as the specification gives it. *)
Definition specifiedDefaultExtensions : list string :=
  [".js"; ".jsx"; ".ts"; ".tsx"; ".json"; ".txt"].

(** "If multiple aliases match, the last one iterated wins." *)
Definition lastMatchingAlias (importPath : string) (table : list (string * string))
  : option (string * string) :=
  find (fun entry => JsString.startsWith importPath (fst entry)) (rev table).

(** The [n]-th directory above [p]: [n] applications of [resolve(p, '..')]. *)
Fixpoint ancestorDir (cwd : string) (n : nat) (p : string) : string :=
  match n with
  | O => p
  | S n' => resolve cwd [ancestorDir cwd n' p; ".."]
  end.

(** A probed candidate is missing: the call fails with code [ENOENT]. *)
Definition accessMissing (fs : FileSystem) (base ext : string) : Prop :=
  exists e, access fs (candidatePath base ext) = Throw e /\ code_is_not_ENOENT e = false.

Definition readMissing (fs : FileSystem) (base ext : string) : Prop :=
  exists e, readFileSync fs (candidatePath base ext) = Throw e /\ code_is_not_ENOENT e = false.

(** A directory whose listing succeeds, and one whose listing shows the
    manifest. *)
Definition listable (fs : FileSystem) (dir : string) : Prop :=
  exists files, readdirSync fs dir = Normal files.

Definition listsManifest (fs : FileSystem) (dir : string) : Prop :=
  exists files, readdirSync fs dir = Normal files /\ In "package.json" files.

(** What the visitors write for one specifier of one declaration: the
    [id] is the specifier resolved against [filePath] (a directory) or its
    parent for a relative specifier, and the raw specifier otherwise. *)
Definition relativeId (cwd : string) (fs : FileSystem) (filePath src : string) : string :=
  if isDirectory fs filePath
  then resolve cwd [filePath; src]
  else resolve cwd [NodePath.dirname filePath; src].

Definition entryFor (cwd : string) (fs : FileSystem) (filePath : string)
           (decl : ImportDeclaration) (spec : SpecifierNode) : ImportMapWithDeps :=
  {| id := if isRelative (decl_source decl)
           then relativeId cwd fs filePath (decl_source decl)
           else decl_source decl;
     source := decl_source decl;
     importKind := decl_importKind decl;
     exportName := exportNameOf spec;
     dependencies := None |}.

(** The entries [deepCollect] expands: relative source, id not ending in
    [.json]. *)
Definition expandable (dep : ImportMapWithDeps) : bool :=
  isRelative (source dep) && negb (JsString.endsWith (id dep) ".json").

(** No filter is supplied, or the filter accepts the specifier. *)
Definition accepted (filter : option (string -> completion bool)) (src : string) : Prop :=
  match filter with
  | None => True
  | Some accepts => accepts src = Normal true
  end.

(** The specifier nodes of a module in visiting order, each with its
    declaration, and the local names they bind. *)
Definition bindings (ast : AST) : list (ImportDeclaration * SpecifierNode) :=
  flat_map (fun decl => map (pair decl) (decl_specifiers decl)) ast.

Definition localOf (b : ImportDeclaration * SpecifierNode) : string := local (snd b).

(** The traversal as one pass over [bindings]. *)
Fixpoint visitAll (cwd : string) (fs : FileSystem) (filePath : string)
         (filter : option (string -> completion bool))
         (bs : list (ImportDeclaration * SpecifierNode)) (result : ImportTable)
  : completion ImportTable :=
  match bs with
  | [] => Normal result
  | b :: rest =>
      result' <- visitSpecifier cwd fs filePath filter (fst b) result (snd b) ;;
      visitAll cwd fs filePath filter rest result'
  end.

(** The scope pass as one pass over [bindings], and the text of the
    error it raises for a name. *)
Fixpoint registerAll (bs : list (ImportDeclaration * SpecifierNode))
         (scope : JsObject.t BindingKind) : completion (JsObject.t BindingKind) :=
  match bs with
  | [] => Normal scope
  | b :: rest =>
      scope' <- registerBinding (bindingKind (fst b) (snd b)) (local (snd b)) scope ;;
      registerAll rest scope'
  end.

Definition duplicateDeclaration (name : string) : JsError :=
  TypeError ("Duplicate declaration " ++ doubleQuote ++ name ++ doubleQuote).

(** ** Disks for the worked examples

    A disk is a table from absolute paths to what is found there; the file
    system of a disk answers each call for the path resolved against the
    working directory. *)

Module Disk.

Inductive Inode : Type :=
| RegularFile (content : string)
| Directory (entries : list string)
(** a directory that may be entered but not listed *)
| UnlistableDirectory
(** a path behind a directory that may not be searched *)
| Denied.

Definition t : Type := list (string * Inode).

Fixpoint lookup (p : string) (d : t) : option Inode :=
  match d with
  | [] => None
  | (q, i) :: d' => if String.eqb p q then Some i else lookup p d'
  end.

Definition at_ (cwd : string) (d : t) (p : string) : option Inode :=
  lookup (NodePath.resolve cwd [p]) d.

Definition fileSystem (cwd : string) (d : t) : FileSystem := {|
  lstatSync_isDirectory p :=
    match at_ cwd d p with
    | Some (RegularFile _) => Normal false
    | Some (Directory _) => Normal true
    | Some UnlistableDirectory => Normal true
    | Some Denied => Throw (SystemError "EACCES")
    | None => Throw (SystemError "ENOENT")
    end;
  readdirSync p :=
    match at_ cwd d p with
    | Some (RegularFile _) => Throw (SystemError "ENOTDIR")
    | Some (Directory entries) => Normal entries
    | Some UnlistableDirectory => Throw (SystemError "EACCES")
    | Some Denied => Throw (SystemError "EACCES")
    | None => Throw (SystemError "ENOENT")
    end;
  existsSync p :=
    match at_ cwd d p with
    | Some Denied => false
    | Some _ => true
    | None => false
    end;
  readFileSync p :=
    match at_ cwd d p with
    | Some (RegularFile content) => Normal content
    | Some (Directory _) => Throw (SystemError "EISDIR")
    | Some UnlistableDirectory => Throw (SystemError "EISDIR")
    | Some Denied => Throw (SystemError "EACCES")
    | None => Throw (SystemError "ENOENT")
    end;
  access p :=
    match at_ cwd d p with
    | Some Denied => Throw (SystemError "EACCES")
    | Some _ => Normal tt
    | None => Throw (SystemError "ENOENT")
    end
|}.

(** A parser given by the modules it knows: the text of each, with the
    import declarations Babel finds in it; any other text is a syntax
    error. *)
Fixpoint parser (known : list (string * AST)) (content : string) : completion AST :=
  match known with
  | [] => Throw (Error "SyntaxError")
  | (text, ast) :: known' =>
      if String.eqb content text then Normal ast else parser known' content
  end.

End Disk.

Definition defaultImport (name src : string) : ImportDeclaration :=
  {| decl_source := src;
     decl_importKind := Some value;
     decl_specifiers := [ImportDefaultSpecifier name] |}.

(** The working directory of every worked example. *)
Definition workDir : string := "/work".

(** Two modules that import each other. *)
Definition cycleDisk : Disk.t :=
  [ ("/p", Disk.Directory ["a.ts"; "b.ts"]);
    ("/p/a.ts", Disk.RegularFile "import b from './b'");
    ("/p/b.ts", Disk.RegularFile "import a from './a'") ].

Definition cycleParser : string -> completion AST :=
  Disk.parser [ ("import b from './b'", [defaultImport "b" "./b"]);
                ("import a from './a'", [defaultImport "a" "./a"]) ].

(** The same two modules, imported with their extensions. *)
Definition cycleExtDisk : Disk.t :=
  [ ("/p", Disk.Directory ["a.ts"; "b.ts"]);
    ("/p/a.ts", Disk.RegularFile "import b from './b.ts'");
    ("/p/b.ts", Disk.RegularFile "import a from './a.ts'") ].

Definition cycleExtParser : string -> completion AST :=
  Disk.parser [ ("import b from './b.ts'", [defaultImport "b" "./b.ts"]);
                ("import a from './a.ts'", [defaultImport "a" "./a.ts"]) ].

(** An entry importing a sibling and a package; the sibling imports nothing. *)
Definition filterDisk : Disk.t :=
  [ ("/proj/src", Disk.Directory ["entry.ts"; "a.ts"]);
    ("/proj/src/entry.ts",
      Disk.RegularFile "import a from './a'; import _ from 'lodash'");
    ("/proj/src/a.ts", Disk.RegularFile "export const one = 1") ].

Definition filterParser : string -> completion AST :=
  Disk.parser [ ("import a from './a'; import _ from 'lodash'",
                  [defaultImport "a" "./a"; defaultImport "_" "lodash"]);
                ("export const one = 1", []) ].

Definition rejectLodash (src : string) : completion bool :=
  Normal (negb (String.eqb src "lodash")).

(** A component directory with an index file. *)
Definition buttonDisk : Disk.t :=
  [ ("/proj", Disk.Directory ["package.json"; "src"]);
    ("/proj/package.json", Disk.RegularFile "{}");
    ("/proj/src", Disk.Directory ["components"]);
    ("/proj/src/components", Disk.Directory ["Button"]);
    ("/proj/src/components/Button", Disk.Directory ["index.tsx"]);
    ("/proj/src/components/Button/index.tsx",
      Disk.RegularFile "export default function Button() {}") ].

(** A project with a directory that cannot be listed, and a path that
    cannot be reached. *)
Definition lockedDisk : Disk.t :=
  [ ("/proj", Disk.Directory ["package.json"; "locked"; "src"]);
    ("/proj/package.json", Disk.RegularFile "{}");
    ("/proj/locked", Disk.UnlistableDirectory);
    ("/proj/locked/x.ts", Disk.RegularFile "export {}");
    ("/proj/src", Disk.Directory ["vault"; "entry.ts"; "a.ts"; "sealed"]);
    ("/proj/src/entry.ts", Disk.RegularFile "import a from './a'; import s from './sealed'");
    ("/proj/src/a.ts", Disk.RegularFile "export const one = 1");
    ("/proj/src/sealed", Disk.UnlistableDirectory);
    ("/proj/src/vault", Disk.Directory ["index.js"]);
    ("/proj/src/vault/index.js", Disk.Denied) ].


(** A text file kept next to the sources, and one in the working
    directory. *)
Definition notesDisk : Disk.t :=
  [ ("/work", Disk.Directory ["notes.txt"]);
    ("/work/notes.txt", Disk.RegularFile "import x from './y'");
    ("/p", Disk.Directory ["readme.txt"]);
    ("/p/readme.txt", Disk.RegularFile "hello") ].

Definition notesParser : string -> completion AST :=
  Disk.parser [ ("import x from './y'", [defaultImport "x" "./y"]) ].

(** ** The rest of src/file.ts: [readAllFileNames] *)

(** [path.normalize] and [path.join] of Node's POSIX [path] module: the
    non-empty arguments joined by a slash, then normalised, a trailing
    slash being kept. *)
Definition path_normalize (p : string) : string :=
  match p with
  | EmptyString => "."
  | String c0 _ =>
      let isAbsolute := Ascii.eqb c0 "/" in
      let trailingSeparator := JsString.endsWith p "/" in
      let normalized := NodePath.normalizeString p (negb isAbsolute) in
      if negb (JsString.truthy normalized) then
        if isAbsolute then "/" else if trailingSeparator then "./" else "."
      else
        let normalized := if trailingSeparator then normalized ++ "/" else normalized in
        if isAbsolute then "/" ++ normalized else normalized
  end.

Definition path_join (args : list string) : string :=
  match filter JsString.truthy args with
  | [] => "."
  | parts => path_normalize (NodePath.join parts)
  end.

(** The two promise-returning [fs] calls of [readAllFileNames]. *)
Record DirectoryReader : Type := {
  (** [await fs.readdir(p)] *)
  readdir : string -> completion (list string);
  (** [(await fs.stat(p)).isFile()] *)
  stat_isFile : string -> completion bool
}.

(** The [for] loop of [readAllFileNames]; [fileNames] is the array being
    filled. *)
Fixpoint collectFileNames (reader : DirectoryReader) (folderPath : string)
         (files fileNames : list string) : completion (list string) :=
  match files with
  | [] => Normal fileNames
  | file :: rest =>
      let filePath := path_join [folderPath; file] in
      isFile <- stat_isFile reader filePath ;;
      collectFileNames reader folderPath rest
        (if isFile then (fileNames ++ [file])%list else fileNames)
  end.

Definition readAllFileNames (reader : DirectoryReader) (folderPath : string)
  : completion (list string) :=
  try_catch
    (files <- readdir reader folderPath ;;
     collectFileNames reader folderPath files [])
    (fun _ => Throw (Error ("Failed to read folder: " ++ folderPath))).

(** ** Vocabulary of the further statements *)

(** [stats.isFile()] answered and true. *)
Definition isFileEntry (reader : DirectoryReader) (folderPath file : string) : bool :=
  match stat_isFile reader (path_join [folderPath; file]) with
  | Normal b => b
  | Throw _ => false
  end.

(** The entry can be examined: [fs.stat] does not throw on it. *)
Definition statable (reader : DirectoryReader) (folderPath file : string) : Prop :=
  exists b, stat_isFile reader (path_join [folderPath; file]) = Normal b.

(** The test [transformToAST] applies to each entry of a directory. *)
Definition isIndexEntry (cwd : string) (fs : FileSystem) (filePath item : string) : bool :=
  negb (isDirectory fs (resolve cwd [filePath; item]))
  && JsString.includes item "index"
  && JsString.array_includes extensions
       (JsString.slice item (JsString.lastIndexOf item ".")).

(** A listing that succeeds and shows no manifest. *)
Definition listsNoManifest (fs : FileSystem) (dir : string) : Prop :=
  exists files, readdirSync fs dir = Normal files /\ ~ In "package.json" files.

(** The cycle guard, read on a finished graph: a node that was given
    [dependencies] has no child whose id is among [parentIds] (the root
    path and the ids of the nodes above it), and its children are guarded
    in turn with the node's own id added. *)
Fixpoint guarded (parentIds : list string) (node : ImportMapWithDeps) {struct node} : Prop :=
  match node with
  | mkImportMap nodeId _ _ _ None => True
  | mkImportMap nodeId _ _ _ (Some deps) =>
      (fix children (l : list (string * ImportMapWithDeps)) : Prop :=
         match l with
         | [] => True
         | (_, child) :: l' =>
             ~ In (id child) parentIds
             /\ guarded (parentIds ++ [nodeId])%list child
             /\ children l'
         end) deps
  end.

(** Every entry of a table is still without [dependencies]. *)
Definition allLeaves (table : ImportTable) : Prop :=
  Forall (fun entry => dependencies (snd entry) = None) table.

(** The file system of a disk, for [readAllFileNames]. *)
Definition diskReader (cwd : string) (d : Disk.t) : DirectoryReader := {|
  readdir p := readdirSync (Disk.fileSystem cwd d) p;
  stat_isFile p :=
    match Disk.at_ cwd d p with
    | Some (Disk.RegularFile _) => Normal true
    | Some (Disk.Directory _) => Normal false
    | Some Disk.UnlistableDirectory => Normal false
    | Some Disk.Denied => Throw (SystemError "EACCES")
    | None => Throw (SystemError "ENOENT")
    end
|}.

(** A disk whose root holds no manifest. *)
Definition bareRootDisk : Disk.t :=
  [ ("/", Disk.Directory ["etc"; "home"]);
    ("/home", Disk.Directory ["notes.md"]);
    ("/home/notes.md", Disk.RegularFile "# notes") ].

(** A component directory with several entries that mention [index]. *)
Definition indexDisk : Disk.t :=
  [ ("/ui", Disk.Directory ["index.ts"; "index.css"; "reindex.tsx"; "index.d"; "README.md"]);
    ("/ui/index.ts", Disk.RegularFile "import a from './a'");
    ("/ui/index.css", Disk.RegularFile "body {}");
    ("/ui/reindex.tsx", Disk.RegularFile "import b from './b'");
    ("/ui/index.d", Disk.Directory []);
    ("/ui/README.md", Disk.RegularFile "# ui");
    ("/ui/a.ts", Disk.RegularFile "");
    ("/docs", Disk.Directory ["guide.md"]);
    ("/docs/guide.md", Disk.RegularFile "# guide");
    ("/lib", Disk.Directory ["util.ts"; "util.js"; "broken.ts"]);
    ("/lib/util.ts", Disk.RegularFile "import a from './a'");
    ("/lib/util.js", Disk.RegularFile "import b from './b'");
    ("/lib/broken.ts", Disk.RegularFile "import from") ].

Definition indexParser : string -> completion AST :=
  Disk.parser [ ("import a from './a'", [defaultImport "a" "./a"]);
                ("import b from './b'", [defaultImport "b" "./b"]) ].

(** Two declarations that bind the same local name, a filter that throws
    on one specifier, and a chain of three modules. *)
Definition shadowDisk : Disk.t :=
  [ ("/app", Disk.Directory ["main.ts"; "chain.ts"; "one.ts"; "two.ts"; "data.json"]);
    ("/app/main.ts", Disk.RegularFile "import x from './one'; import { y as x } from './two'");
    ("/app/chain.ts", Disk.RegularFile "import one from './one'; import d from './data.json'");
    ("/app/one.ts", Disk.RegularFile "import two from './two'; import _ from 'lodash'");
    ("/app/two.ts", Disk.RegularFile "export const two = 2");
    ("/app/data.json", Disk.RegularFile "{}") ].

Definition shadowParser : string -> completion AST :=
  Disk.parser
    [ ("import x from './one'; import { y as x } from './two'",
        [ defaultImport "x" "./one";
          {| decl_source := "./two"; decl_importKind := Some value;
             decl_specifiers := [ImportSpecifier "x" (Some "y") None] |} ]);
      ("import one from './one'; import d from './data.json'",
        [defaultImport "one" "./one"; defaultImport "d" "./data.json"]);
      ("import two from './two'; import _ from 'lodash'",
        [defaultImport "two" "./two"; defaultImport "_" "lodash"]);
      ("export const two = 2", []) ].

(** A path segment that names a file: not empty, not [.] or [..], no
    slash in it. *)
Definition isFileName (name : string) : bool :=
  negb (String.eqb name "") && negb (String.eqb name ".") && negb (String.eqb name "..")
  && forallb (fun c => negb (Ascii.eqb c "/")) (list_ascii_of_string name).

(** The base of a relative specifier as the specification words it: "the
    directory one level above the importing file's own directory". *)
Definition specifiedRelativeBase (cwd fileDir : string) : string :=
  resolve cwd [NodePath.dirname fileDir; ".."].

(** [last[key].dependencies = deps] on an entry that [deepCollect]
    expands; the other entries stay as they are. *)
Definition attach (deps : ImportTable) (entry : string * ImportMapWithDeps)
  : string * ImportMapWithDeps :=
  if expandable (snd entry) then (fst entry, set_dependencies (snd entry) deps) else entry.

(** The two modules of a cycle, each with an import that is not expanded:
    a package for the first, a JSON file for the second. *)
Definition cycleMoreDisk : Disk.t :=
  [ ("/q", Disk.Directory ["a.ts"; "b.ts"; "data.json"]);
    ("/q/a.ts", Disk.RegularFile "import React from 'react'; import b from './b'");
    ("/q/b.ts", Disk.RegularFile "import a from './a'; import data from './data.json'");
    ("/q/data.json", Disk.RegularFile "{}") ].

Definition cycleMoreParser : string -> completion AST :=
  Disk.parser
    [ ("import React from 'react'; import b from './b'",
        [defaultImport "React" "react"; defaultImport "b" "./b"]);
      ("import a from './a'; import data from './data.json'",
        [defaultImport "a" "./a"; defaultImport "data" "./data.json"]) ].

(** A module that imports under the local name [__proto__], and the same
    import under another name. *)
Definition protoDisk : Disk.t :=
  [ ("/app", Disk.Directory ["proto.ts"; "plain.ts"; "one.ts"]);
    ("/app/proto.ts", Disk.RegularFile "import __proto__ from './one'");
    ("/app/plain.ts", Disk.RegularFile "import proto from './one'");
    ("/app/one.ts", Disk.RegularFile "export const one = 1") ].

Definition protoParser : string -> completion AST :=
  Disk.parser
    [ ("import __proto__ from './one'", [defaultImport "__proto__" "./one"]);
      ("import proto from './one'", [defaultImport "proto" "./one"]);
      ("export const one = 1", []) ].

Definition throwOnLodash (src : string) : completion bool :=
  if String.eqb src "lodash" then Throw (Error "filter failed") else Normal true.

(** Two entries describe the same import, whatever their [dependencies]. *)
Definition sameImport (a b : ImportMapWithDeps) : Prop :=
  id a = id b /\ source a = source b
  /\ importKind a = importKind b /\ exportName a = exportName b.

(** What [deepCollect] may do to one entry of the table it is given: the
    key and the import stay; an entry it does not expand stays as it is;
    a [dependencies] table it attaches has the keys and ids of the imports
    extracted from the entry's [id]. *)
Definition collectedFrom (cwd : string) (fs : FileSystem) (parse : string -> completion AST)
           (filter : option (string -> completion bool))
           (before after : string * ImportMapWithDeps) : Prop :=
  fst after = fst before
  /\ sameImport (snd before) (snd after)
  /\ (expandable (snd before) = false -> snd after = snd before)
  /\ (dependencies (snd after) = dependencies (snd before)
      \/ exists inner deps,
          analyzeImports cwd fs parse (id (snd before)) filter = Normal inner
          /\ dependencies (snd after) = Some deps
          /\ map fst deps = map fst inner
          /\ map (fun entry => id (snd entry)) deps
             = map (fun entry => id (snd entry)) inner).

(** * Properties *)

(** ** The platform functions on small inputs *)

Example resolve_up_one :
  NodePath.resolve "/work" ["/proj/app/conf"; ".."; "./routes"] = "/proj/app/routes".
Proof. reflexivity. Qed.

Example resolve_relative_to_cwd :
  NodePath.resolve "/work" ["src"; "../lib//x/./y"] = "/work/lib/x/y".
Proof. reflexivity. Qed.

Example resolve_above_root : NodePath.resolve "/work" ["/"; ".."] = "/".
Proof. reflexivity. Qed.

Example dirname_file : NodePath.dirname "/p/a.ts" = "/p".
Proof. reflexivity. Qed.

Example dirname_top : NodePath.dirname "/a" = "/".
Proof. reflexivity. Qed.

Example dirname_trailing : NodePath.dirname "/a/b/" = "/a".
Proof. reflexivity. Qed.

Example replace_first : JsString.replace "@utils/foo" "@utils/" "src/utils/" = "src/utils/foo".
Proof. reflexivity. Qed.

Example replace_dollar : JsString.replace "@/x" "@/" "a$&b$$" = "a@/b$x".
Proof. reflexivity. Qed.

Example slice_negative : JsString.slice "notes.txt" (-1) = "t".
Proof. reflexivity. Qed.

Example own_property_order :
  JsObject.spread [("@/", "src/")] [("12", "a"); ("@/", "x"); ("b", "c")]
  = [("12", "a"); ("@/", "x"); ("b", "c")].
Proof. reflexivity. Qed.

(** ** Extension probing *)

Section Probing.

Variable fs : FileSystem.

Lemma exist_loop_skips_missing base pre exts :
  Forall (accessMissing fs base) pre ->
  existFileWithExtensions_loop fs base (pre ++ exts)%list
  = existFileWithExtensions_loop fs base exts.
Proof.
  induction 1 as [|x pre [e [Hx He]] _ IH]; simpl; [reflexivity|].
  now rewrite Hx, He.
Qed.

Lemma read_loop_skips_missing base pre exts :
  Forall (readMissing fs base) pre ->
  readFileWithExtensions_loop fs base (pre ++ exts)%list
  = readFileWithExtensions_loop fs base exts.
Proof.
  induction 1 as [|x pre [e [Hx He]] _ IH]; simpl; [reflexivity|].
  now rewrite Hx, He.
Qed.

Lemma exist_loop_rethrows base pre ext post e :
  Forall (accessMissing fs base) pre ->
  access fs (candidatePath base ext) = Throw e ->
  code_is_not_ENOENT e = true ->
  existFileWithExtensions_loop fs base (pre ++ ext :: post)%list = Throw e.
Proof.
  intros Hpre Hacc He. rewrite exist_loop_skips_missing by assumption.
  simpl. now rewrite Hacc, He.
Qed.

Lemma read_loop_rethrows base pre ext post e :
  Forall (readMissing fs base) pre ->
  readFileSync fs (candidatePath base ext) = Throw e ->
  code_is_not_ENOENT e = true ->
  readFileWithExtensions_loop fs base (pre ++ ext :: post)%list = Throw e.
Proof.
  intros Hpre Hrd He. rewrite read_loop_skips_missing by assumption.
  simpl. now rewrite Hrd, He.
Qed.

(** First match wins. *)
Lemma exist_loop_first_match base pre ext post :
  Forall (accessMissing fs base) pre ->
  access fs (candidatePath base ext) = Normal tt ->
  existFileWithExtensions_loop fs base (pre ++ ext :: post)%list
  = Normal (candidatePath base ext).
Proof.
  intros Hpre Hacc. rewrite exist_loop_skips_missing by assumption.
  simpl. now rewrite Hacc.
Qed.

Lemma read_loop_first_match base pre ext post content :
  Forall (readMissing fs base) pre ->
  readFileSync fs (candidatePath base ext) = Normal content ->
  readFileWithExtensions_loop fs base (pre ++ ext :: post)%list = Normal content.
Proof.
  intros Hpre Hrd. rewrite read_loop_skips_missing by assumption.
  simpl. now rewrite Hrd.
Qed.

(** No candidate exists: the strict reader throws, naming the base path;
    the soft probe returns the empty string. *)
Lemma read_loop_not_found base exts :
  Forall (readMissing fs base) exts ->
  readFileWithExtensions_loop fs base exts
  = Throw (Error ("No file found with the given extensions.(" ++ base ++ ")")).
Proof.
  intros H. rewrite <- (app_nil_r exts). now rewrite read_loop_skips_missing.
Qed.

Lemma exist_loop_not_found base exts :
  Forall (accessMissing fs base) exts ->
  existFileWithExtensions_loop fs base exts = Normal "".
Proof.
  intros H. rewrite <- (app_nil_r exts). now rewrite exist_loop_skips_missing.
Qed.

End Probing.

(** ** Path arithmetic *)

Lemma prefix_char c d s : String.prefix (String c "") (String d s) = Ascii.eqb c d.
Proof.
  simpl. destruct (ascii_dec c d) as [->|Hne].
  - rewrite Ascii.eqb_refl. now destruct s.
  - symmetry. now apply Ascii.eqb_neq.
Qed.

Lemma append_assoc (a b c : string) : (a ++ b) ++ c = a ++ b ++ c.
Proof.
  induction a as [|x a IH]; simpl; [reflexivity|now rewrite IH].
Qed.

Lemma length_append (a b : string) :
  String.length (a ++ b) = String.length a + String.length b.
Proof.
  induction a as [|c a IH]; simpl; [reflexivity|now rewrite IH].
Qed.

Lemma split_nonempty (s : string) : NodePath.split s <> [].
Proof.
  destruct s as [|c s]; simpl; [discriminate|].
  destruct (Ascii.eqb c "/"); [discriminate|].
  destruct (NodePath.split s); discriminate.
Qed.

Lemma split_append_slash (a b : string) :
  NodePath.split (a ++ String "/" b) = (NodePath.split a ++ NodePath.split b)%list.
Proof.
  induction a as [|c a IH]; [reflexivity|].
  cbn [append NodePath.split]. rewrite IH.
  destruct (Ascii.eqb c "/"); [reflexivity|].
  pose proof (split_nonempty a) as Hne.
  destruct (NodePath.split a); [contradiction|reflexivity].
Qed.

(** Segments already read leave a stack; what follows is read from it. *)
Lemma normalizeSegments_append (allow : bool) (segs : list string) :
  forall stack, exists stack',
    forall rest,
      NodePath.normalizeSegments allow (segs ++ rest)%list stack
      = NodePath.normalizeSegments allow rest stack'.
Proof.
  induction segs as [|seg segs IH]; intros stack.
  - exists stack. reflexivity.
  - cbn [app NodePath.normalizeSegments].
    destruct (String.eqb seg "" || String.eqb seg "."); [apply IH|].
    destruct (String.eqb seg ".."); [|apply IH].
    destruct stack as [|last stack]; [apply IH|].
    destruct (String.eqb last ".."); apply IH.
Qed.

Lemma split_fileName name :
  forallb (fun c => negb (Ascii.eqb c "/")) (list_ascii_of_string name) = true ->
  NodePath.split name = [name].
Proof.
  induction name as [|c name IH]; [reflexivity|].
  cbn [list_ascii_of_string forallb NodePath.split]. intros H.
  apply andb_prop in H. destruct H as [Hc Hrest].
  apply negb_true_iff in Hc. rewrite Hc, (IH Hrest). reflexivity.
Qed.

Lemma isFileName_inv name :
  isFileName name = true ->
  String.eqb name "" = false /\ String.eqb name "." = false /\ String.eqb name ".." = false
  /\ forallb (fun c => negb (Ascii.eqb c "/")) (list_ascii_of_string name) = true.
Proof.
  unfold isFileName. intros H.
  apply andb_prop in H. destruct H as [H Hchars].
  apply andb_prop in H. destruct H as [H Hdd].
  apply andb_prop in H. destruct H as [He Hd].
  apply negb_true_iff in He, Hd, Hdd. auto.
Qed.

Lemma normalize_name_up allow name stack rest :
  isFileName name = true ->
  NodePath.normalizeSegments allow (name :: ".." :: rest) stack
  = NodePath.normalizeSegments allow rest stack.
Proof.
  intros H. destruct (isFileName_inv _ H) as [He [Hd [Hdd _]]].
  cbn [NodePath.normalizeSegments]. rewrite He, Hd, Hdd. cbn [orb].
  change (String.eqb ".." "" || String.eqb ".." ".") with false.
  change (String.eqb ".." "..") with true. cbv iota.
  reflexivity.
Qed.

(** [u/name/../X] and [u/X] are normalised alike. *)
Lemma normalizeString_name_up allow u name X :
  isFileName name = true ->
  NodePath.normalizeString (u ++ String "/" (name ++ String "/" (".." ++ String "/" X))) allow
  = NodePath.normalizeString (u ++ String "/" X) allow.
Proof.
  intros Hname. unfold NodePath.normalizeString.
  rewrite !split_append_slash.
  destruct (isFileName_inv _ Hname) as [_ [_ [_ Hchars]]].
  rewrite (split_fileName _ Hchars).
  change (NodePath.split "..") with [".."].
  destruct (normalizeSegments_append allow (NodePath.split u) []) as [stack Hstack].
  rewrite !Hstack. cbn [app]. now rewrite normalize_name_up.
Qed.

Lemma normalizeString_slash allow s :
  NodePath.normalizeString (String "/" s) allow = NodePath.normalizeString s allow.
Proof. reflexivity. Qed.

Lemma dirname_scan_none chars :
  forall i m,
    forallb (fun c => negb (Ascii.eqb c "/")) chars = true ->
    NodePath.dirname_scan chars i m = None.
Proof.
  induction chars as [|c chars IH]; intros i m H; [reflexivity|].
  cbn [forallb] in H. apply andb_prop in H. destruct H as [Hc Hrest].
  apply negb_true_iff in Hc. cbn [NodePath.dirname_scan]. rewrite Hc. now apply IH.
Qed.

Lemma dirname_scan_some chars rest :
  forall i m,
    chars <> [] ->
    forallb (fun c => negb (Ascii.eqb c "/")) chars = true ->
    NodePath.dirname_scan (chars ++ "/"%char :: rest) i m = Some (i - length chars).
Proof.
  induction chars as [|c chars IH]; intros i m Hne H; [contradiction|].
  cbn [forallb] in H. apply andb_prop in H. destruct H as [Hc Hrest].
  apply negb_true_iff in Hc. cbn [app NodePath.dirname_scan length]. rewrite Hc.
  destruct chars as [|c' chars].
  - reflexivity.
  - rewrite IH by (try discriminate; assumption). f_equal. cbn [length]. lia.
Qed.

Lemma list_ascii_of_string_app a b :
  list_ascii_of_string (a ++ b) = (list_ascii_of_string a ++ list_ascii_of_string b)%list.
Proof.
  induction a as [|c a IH]; [reflexivity|]. cbn. now rewrite IH.
Qed.

Lemma length_list_ascii s : length (list_ascii_of_string s) = String.length s.
Proof. induction s as [|c s IH]; [reflexivity|]. cbn. now rewrite IH. Qed.

Lemma take_length_append a b : JsString.take (String.length a) (a ++ b) = a.
Proof. induction a as [|c a IH]; [now destruct b|]. cbn. now rewrite IH. Qed.

Lemma forallb_rev {A} (f : A -> bool) l : forallb f (rev l) = forallb f l.
Proof.
  induction l as [|x l IH]; [reflexivity|].
  cbn [rev forallb]. rewrite forallb_app, IH. cbn. rewrite andb_true_r. apply andb_comm.
Qed.

(** The directory of [dir/name]. *)
Lemma dirname_of_file dir name :
  isFileName name = true ->
  NodePath.dirname (dir ++ String "/" name)
  = if String.eqb dir "" then "/" else if String.eqb dir "/" then "//" else dir.
Proof.
  intros Hname. destruct (isFileName_inv _ Hname) as [He [_ [_ Hchars]]].
  assert (Hne : rev (list_ascii_of_string name) <> []).
  { destruct name as [|c name]; [discriminate|]. cbn [list_ascii_of_string rev].
    intros H. apply app_eq_nil in H. destruct H; discriminate. }
  assert (Hrev : forallb (fun c => negb (Ascii.eqb c "/")) (rev (list_ascii_of_string name))
                 = true) by now rewrite forallb_rev.
  destruct dir as [|c0 dtail].
  - cbn [append NodePath.dirname String.eqb]. rewrite Ascii.eqb_refl.
    now rewrite dirname_scan_none.
  - cbn [append NodePath.dirname].
    rewrite list_ascii_of_string_app. cbn [list_ascii_of_string].
    rewrite rev_app_distr. cbn [rev]. rewrite <- app_assoc. cbn [app].
    rewrite dirname_scan_some by assumption.
    rewrite length_rev, length_list_ascii, length_append. cbn [String.length].
    replace (String.length dtail + S (String.length name) - String.length name)
      with (S (String.length dtail)) by lia.
    change (String.eqb (String c0 dtail) "") with false. cbv iota.
    destruct dtail as [|d dtail].
    + cbn [String.length Nat.eqb andb]. rewrite andb_true_r.
      destruct (Ascii.eqb_spec c0 "/") as [->|Hc0].
      * reflexivity.
      * assert (Hs : String.eqb (String c0 "") "/" = false).
        { cbn. now apply Ascii.eqb_neq in Hc0 as ->. }
        rewrite Hs. reflexivity.
    + assert (Hs : String.eqb (String c0 (String d dtail)) "/" = false).
      { cbn. destruct (Ascii.eqb c0 "/"); reflexivity. }
      rewrite Hs. cbn [String.length Nat.eqb]. rewrite andb_false_r.
      unfold JsString.slice_to. rewrite Nat2Z.id.
      change (String c0 (String d dtail ++ String "/" name))
        with (String c0 (String d dtail) ++ String "/" name).
      change (S (S (String.length dtail))) with (String.length (String c0 (String d dtail))).
      apply take_length_append.
Qed.

Lemma isRelative_inv imp : isRelative imp = true -> exists rest, imp = String "." rest.
Proof.
  unfold isRelative, JsString.startsWith. destruct imp as [|c rest]; [discriminate|].
  intros H. apply orb_prop in H. destruct H as [H|H].
  - rewrite prefix_char in H. apply Ascii.eqb_eq in H. subst c. now exists rest.
  - apply prefix_correct in H. cbn [String.length substring] in H.
    injection H as -> _. now exists rest.
Qed.

(** What [resolve] joins for [[p; imp]] and a relative [imp]. *)
Lemma resolve_loop_pair cwd p rest tail :
  String.eqb p "" = false ->
  NodePath.resolve_loop cwd [String "." rest; p] tail
  = if JsString.startsWith p "/" then (p ++ String "/" (String "." rest ++ String "/" tail), true)
    else if String.eqb cwd "" then (p ++ String "/" (String "." rest ++ String "/" tail), false)
    else (cwd ++ String "/" (p ++ String "/" (String "." rest ++ String "/" tail)),
          JsString.startsWith cwd "/").
Proof.
  intros Hp. cbn [NodePath.resolve_loop String.eqb Ascii.eqb].
  change (JsString.startsWith (String "." rest) "/") with false. cbv iota.
  rewrite Hp. reflexivity.
Qed.

Lemma resolve_loop_relative cwd rest args tail :
  NodePath.resolve_loop cwd (String "." rest :: args) tail
  = NodePath.resolve_loop cwd args (String "." rest ++ String "/" tail).
Proof. reflexivity. Qed.

Lemma startsWith_root s : JsString.startsWith (String "/" s) "/" = true.
Proof. unfold JsString.startsWith. now rewrite prefix_char. Qed.

Lemma startsWith_slash_append c s t :
  JsString.startsWith (String c s ++ t) "/" = JsString.startsWith (String c s) "/".
Proof.
  unfold JsString.startsWith. cbn [append]. now rewrite !prefix_char.
Qed.

(** Up from a file is the directory of the file. *)
Lemma resolve_up_from_file cwd dir name imp :
  isFileName name = true ->
  isRelative imp = true ->
  resolve cwd [dir ++ String "/" name; ".."; imp]
  = resolve cwd [NodePath.dirname (dir ++ String "/" name); imp].
Proof.
  intros Hname Hrel. rewrite (dirname_of_file _ _ Hname).
  destruct (isRelative_inv _ Hrel) as [rest ->].
  assert (Hup : forall a,
             String.eqb a "" = false ->
             resolve cwd [a; ".."; String "." rest]
             = let (resolvedPath, resolvedAbsolute) :=
                 NodePath.resolve_loop cwd [".."; a] (String "." rest ++ String "/" "") in
               let normalized := NodePath.normalizeString resolvedPath (negb resolvedAbsolute) in
               if resolvedAbsolute then "/" ++ normalized
               else if JsString.truthy normalized then normalized else ".").
  { intros a Ha. reflexivity. }
  assert (Hdir : forall d,
             resolve cwd [d; String "." rest]
             = let (resolvedPath, resolvedAbsolute) :=
                 NodePath.resolve_loop cwd [String "." rest; d] "" in
               let normalized := NodePath.normalizeString resolvedPath (negb resolvedAbsolute) in
               if resolvedAbsolute then "/" ++ normalized
               else if JsString.truthy normalized then normalized else ".").
  { intros d. reflexivity. }
  assert (Ha : String.eqb (dir ++ String "/" name) "" = false) by now destruct dir.
  rewrite (Hup _ Ha), Hdir.
  rewrite (resolve_loop_pair cwd _ "." _ Ha).
  set (T := String "." rest ++ String "/" "").
  destruct dir as [|c0 dtail].
  - change (String.eqb "" "") with true. cbv iota.
    rewrite (resolve_loop_pair cwd "/" rest "" eq_refl). fold T.
    change ("" ++ String "/" name) with (String "/" name).
    rewrite !startsWith_root.
    change (String "/" name ++ String "/" (".." ++ String "/" T))
      with ("" ++ String "/" (name ++ String "/" (".." ++ String "/" T))).
    now rewrite normalizeString_name_up.
  - change (String.eqb (String c0 dtail) "") with false. cbv iota.
    destruct (String.eqb_spec (String c0 dtail) "/") as [Hroot|Hroot].
    + injection Hroot as -> ->.
      rewrite (resolve_loop_pair cwd "//" rest "" eq_refl). fold T.
      change ("/" ++ String "/" name) with (String "/" (String "/" name)).
      rewrite !startsWith_root.
      change (String "/" (String "/" name) ++ String "/" (".." ++ String "/" T))
        with ("/" ++ String "/" (name ++ String "/" (".." ++ String "/" T))).
      now rewrite normalizeString_name_up.
    + rewrite (resolve_loop_pair cwd (String c0 dtail) rest "" eq_refl). fold T.
      rewrite startsWith_slash_append.
      assert (Hassoc : forall tail,
                 (String c0 dtail ++ String "/" name) ++ String "/" tail
                 = String c0 dtail ++ String "/" (name ++ String "/" tail)).
      { intros tail. now rewrite append_assoc. }
      rewrite Hassoc.
      destruct (JsString.startsWith (String c0 dtail) "/").
      * now rewrite normalizeString_name_up.
      * destruct (String.eqb cwd "").
        -- now rewrite normalizeString_name_up.
        -- assert (Hcwd : forall tail,
                      cwd ++ String "/" (String c0 dtail ++ String "/" tail)
                      = (cwd ++ String "/" (String c0 dtail)) ++ String "/" tail).
           { intros tail. now rewrite append_assoc. }
           rewrite !Hcwd. now rewrite normalizeString_name_up.
Qed.

(** ** Project-aware resolution: [getRealImportFilePath] *)

(** The claim read on the path of an importing file: [home.tsx] in
    [/proj/src/pages] imports [./List].  The code gives the path next to
    the file; one level above the file's own directory would be
    [/proj/src/List]. *)
Lemma C4_counterexample :
  isRelative "./List" = true
  /\ JsString.includes "/proj/src/pages/home.tsx" "config/config" = false
  /\ specifierPath workDir "/proj" "/proj/src/pages/home.tsx" "./List" None
     = "/proj/src/pages/List"
  /\ resolve workDir [specifiedRelativeBase workDir "/proj/src/pages/home.tsx"; "./List"]
     = "/proj/src/List"
  /\ specifierPath workDir "/proj" "/proj/src/pages/home.tsx" "./List" None
     <> resolve workDir [specifiedRelativeBase workDir "/proj/src/pages/home.tsx"; "./List"].
Proof.
  repeat split; try reflexivity. discriminate.
Qed.

(** C4 (amended). A relative specifier, under a [fileDir] without the
    routing-config marker, is resolved as
    [path.resolve(fileDir, '..', importPath)].  [fileDir] being the path of
    the importing file (a directory followed by a file name), this is the
    specifier resolved against the file's own directory,
    [path.dirname(fileDir)], not against the directory above it.  That
    path is what the directory check and the extension probe then work
    on. *)
Theorem C4_relative_specifier_beside_the_file
        (cwd : string) (fs : FileSystem)
        (rootDir fileDir importPath : string) (importAlias : option (JsObject.t string))
        (Hrel : isRelative importPath = true)
        (Hmarker : JsString.includes fileDir "config/config" = false) :
  specifierPath cwd rootDir fileDir importPath importAlias
  = resolve cwd [fileDir; ".."; importPath]
  /\ (forall dir name,
         fileDir = dir ++ "/" ++ name ->
         isFileName name = true ->
         specifierPath cwd rootDir fileDir importPath importAlias
         = resolve cwd [NodePath.dirname fileDir; importPath])
  /\ getRealImportFilePath cwd fs rootDir fileDir importPath importAlias
     = existFileWithExtensions fs
         (resolve cwd
            [if isDirectory fs (resolve cwd [fileDir; ".."; importPath])
             then resolve cwd [resolve cwd [fileDir; ".."; importPath]; "index"]
             else resolve cwd [fileDir; ".."; importPath]])
         None.
Proof.
  assert (Hpath : specifierPath cwd rootDir fileDir importPath importAlias
                  = resolve cwd [fileDir; ".."; importPath]).
  { unfold specifierPath. now rewrite Hmarker, Hrel. }
  split; [exact Hpath|]. split.
  - intros dir name -> Hname. rewrite Hpath.
    change (dir ++ "/" ++ name) with (dir ++ String "/" name).
    now apply resolve_up_from_file.
  - unfold getRealImportFilePath. now rewrite Hpath.
Qed.

Lemma C4_witness :
  specifierPath workDir "/proj" "/proj/src/pages/home.tsx" "./List" None
  = resolve workDir [NodePath.dirname "/proj/src/pages/home.tsx"; "./List"]
  /\ NodePath.dirname "/proj/src/pages/home.tsx" = "/proj/src/pages"
  /\ specifierPath workDir "/proj" "/proj/src/pages/home.tsx" "../shared/menu" None
     = "/proj/src/shared/menu".
Proof.
  split; [|split; [reflexivity|]].
  - apply (proj1 (proj2 (C4_relative_specifier_beside_the_file workDir
                           (Disk.fileSystem workDir buttonDisk)
                           "/proj" "/proj/src/pages/home.tsx" "./List" None
                           eq_refl eq_refl))
             "/proj/src/pages" "home.tsx"); reflexivity.
  - rewrite (proj1 (C4_relative_specifier_beside_the_file workDir
                      (Disk.fileSystem workDir buttonDisk)
                      "/proj" "/proj/src/pages/home.tsx" "../shared/menu" None
                      eq_refl eq_refl)).
    reflexivity.
Defined.

(** The same for a file kept in a directory named [config]. *)
Example relative_specifier_from_file_path :
  specifierPath workDir "/proj" "/proj/config/routes.ts" "./pages/home" None
  = "/proj/config/pages/home".
Proof. reflexivity. Qed.

(** C7. Whenever the path computed from the specifier is an existing
    directory, the probe runs on that path with [index] appended. *)
Theorem C7_directory_gets_index
        (cwd : string) (fs : FileSystem)
        (rootDir fileDir importPath : string) (importAlias : option (JsObject.t string))
        (Hdir : isDirectory fs (specifierPath cwd rootDir fileDir importPath importAlias) = true) :
  getRealImportFilePath cwd fs rootDir fileDir importPath importAlias
  = existFileWithExtensions fs
      (resolve cwd
         [resolve cwd [specifierPath cwd rootDir fileDir importPath importAlias; "index"]])
      None.
Proof.
  unfold getRealImportFilePath. now rewrite Hdir.
Qed.

(** [components/Button] names a directory holding [index.tsx]: the index
    file is the answer. *)
Lemma C7_witness :
  getRealImportFilePath workDir (Disk.fileSystem workDir buttonDisk)
    "/proj" "/proj/src/pages/home.tsx" "components/Button" None
  = Normal "/proj/src/components/Button/index.tsx".
Proof.
  rewrite (C7_directory_gets_index workDir (Disk.fileSystem workDir buttonDisk)
             "/proj" "/proj/src/pages/home.tsx" "components/Button" None eq_refl).
  reflexivity.
Defined.

(** C10. Both probing helpers skip a candidate only on [ENOENT]; any other
    error of the candidate reached first is rethrown as it is, and
    [getRealImportFilePath], whose last step is the soft probe, hands it to
    its caller. *)
Theorem C10_only_ENOENT_is_skipped
        (fs : FileSystem) (e : JsError) (He : code_is_not_ENOENT e = true) :
  (forall base pre rest,
      Forall (accessMissing fs base) pre ->
      existFileWithExtensions fs base (Some (pre ++ rest)%list)
      = existFileWithExtensions fs base (Some rest))
  /\ (forall base pre rest,
         Forall (readMissing fs base) pre ->
         readFileWithExtensions fs base (Some (pre ++ rest)%list)
         = readFileWithExtensions fs base (Some rest))
  /\ (forall base pre ext post,
      Forall (accessMissing fs base) pre ->
      access fs (candidatePath base ext) = Throw e ->
      existFileWithExtensions fs base (Some (pre ++ ext :: post)%list) = Throw e)
  /\ (forall base pre ext post,
         Forall (readMissing fs base) pre ->
         readFileSync fs (candidatePath base ext) = Throw e ->
         readFileWithExtensions fs base (Some (pre ++ ext :: post)%list) = Throw e)
  /\ (forall cwd rootDir fileDir importPath importAlias pre ext post,
         let realPath := specifierPath cwd rootDir fileDir importPath importAlias in
         let base :=
           resolve cwd [if isDirectory fs realPath
                        then resolve cwd [realPath; "index"] else realPath] in
         defaultExtensions = (pre ++ ext :: post)%list ->
         Forall (accessMissing fs base) pre ->
         access fs (candidatePath base ext) = Throw e ->
         getRealImportFilePath cwd fs rootDir fileDir importPath importAlias = Throw e).
Proof.
  repeat split.
  - intros. unfold existFileWithExtensions. now apply exist_loop_skips_missing.
  - intros. unfold readFileWithExtensions. now apply read_loop_skips_missing.
  - intros. unfold existFileWithExtensions. now apply exist_loop_rethrows.
  - intros. unfold readFileWithExtensions. now apply read_loop_rethrows.
  - intros cwd rootDir fileDir importPath importAlias pre ext post realPath base Hexts Hpre Hacc.
    unfold getRealImportFilePath, existFileWithExtensions.
    fold realPath. fold base. rewrite Hexts. now apply exist_loop_rethrows.
Qed.

(** The probe of [vault/index.js] is refused: the refusal reaches the
    caller, where a missing file would have given the empty string. *)
Lemma C10_witness :
  getRealImportFilePath workDir (Disk.fileSystem workDir lockedDisk)
    "/proj" "/proj/src/pages/home.tsx" "vault" None
  = Throw (SystemError "EACCES")
  /\ getRealImportFilePath workDir (Disk.fileSystem workDir lockedDisk)
       "/proj" "/proj/src/pages/home.tsx" "nowhere" None
     = Normal "".
Proof.
  split; [|reflexivity].
  apply (proj2 (proj2 (proj2 (proj2 (C10_only_ENOENT_is_skipped
                                       (Disk.fileSystem workDir lockedDisk)
                                       (SystemError "EACCES") eq_refl))))
           workDir "/proj" "/proj/src/pages/home.tsx" "vault" None
           [] ".js" [".jsx"; ".ts"; ".tsx"; ".json"; "txt"]).
  - reflexivity.
  - constructor.
  - reflexivity.
Defined.

(** ** The strict reader: [readFileWithExtensions] *)

(** C5.  The default list of the code ends in [txt], without the dot the
    specification gives it.  With only [/p/readme.txt] on the disk, the
    specified list reads the file; the default of the code probes
    [/p/readmetxt] last and throws the not-found error. *)
Theorem C5_default_list_lacks_dot_txt :
  defaultExtensions <> specifiedDefaultExtensions
  /\ readFileWithExtensions (Disk.fileSystem workDir notesDisk) "/p/readme"
       (Some specifiedDefaultExtensions)
     = Normal "hello"
  /\ readFileWithExtensions (Disk.fileSystem workDir notesDisk) "/p/readme" None
     = Throw (Error "No file found with the given extensions.(/p/readme)")
  /\ map (candidatePath "/p/readme") defaultExtensions
     = ["/p/readme.js"; "/p/readme.jsx"; "/p/readme.ts"; "/p/readme.tsx";
        "/p/readme.json"; "/p/readmetxt"].
Proof.
  repeat split; try reflexivity. discriminate.
Qed.

(** ** The top-level guard of [analyzeDependencies] *)





(** ** Tables in own property order *)

Section TableFacts.

Variable V : Type.
Implicit Types (o : JsObject.t V) (k : string) (v : V).

Lemma get_absent k o : ~ In k (JsObject.keys o) -> JsObject.get k o = None.
Proof.
  induction o as [|[k' v'] o IH]; simpl; [reflexivity|].
  intros Hnot. destruct (String.eqb_spec k k') as [->|_].
  - exfalso. apply Hnot. now left.
  - apply IH. intros Hin. apply Hnot. now right.
Qed.

Lemma get_update k k' v o :
  JsObject.get k (JsObject.update k' v o)
  = if String.eqb k k'
    then (if JsObject.has k' o then Some v else None)
    else JsObject.get k o.
Proof.
  unfold JsObject.has.
  induction o as [|[k1 v1] o IH]; simpl.
  - now destruct (String.eqb k k').
  - destruct (String.eqb_spec k' k1) as [->|Hne]; simpl.
    + now destruct (String.eqb k k1).
    + destruct (String.eqb_spec k k1) as [->|Hne'].
      * destruct (String.eqb_spec k1 k') as [->|_]; [congruence|reflexivity].
      * rewrite IH. destruct (String.eqb_spec k k') as [->|_]; [|reflexivity].
        destruct (String.eqb_spec k' k1); [congruence|reflexivity].
Qed.

Lemma get_insertIndex n k k' v o :
  JsObject.get k' o = None ->
  JsObject.get k (JsObject.insertIndex n k' v o)
  = if String.eqb k k' then Some v else JsObject.get k o.
Proof.
  induction o as [|[k1 v1] o IH]; simpl; intros Hnone.
  - reflexivity.
  - destruct (String.eqb_spec k' k1) as [->|Hne]; [discriminate|].
    destruct (JsObject.arrayIndex k1) as [n1|]; [destruct (n <? n1)%N|]; simpl;
      try reflexivity.
    rewrite (IH Hnone).
    destruct (String.eqb_spec k k1) as [->|_]; [|reflexivity].
    destruct (String.eqb_spec k1 k'); [congruence|reflexivity].
Qed.

Lemma get_append k k' v o :
  JsObject.get k' o = None ->
  JsObject.get k (o ++ [(k', v)])%list
  = if String.eqb k k' then Some v else JsObject.get k o.
Proof.
  induction o as [|[k1 v1] o IH]; simpl; intros Hnone.
  - reflexivity.
  - destruct (String.eqb_spec k' k1) as [->|Hne]; [discriminate|].
    rewrite (IH Hnone).
    destruct (String.eqb_spec k k1) as [->|_]; [|reflexivity].
    destruct (String.eqb_spec k1 k'); [congruence|reflexivity].
Qed.

(** Reading after [o[k'] = v]. *)
Lemma get_set k k' v o :
  JsObject.get k (JsObject.set k' v o)
  = if String.eqb k k' then Some v else JsObject.get k o.
Proof.
  unfold JsObject.set.
  destruct (JsObject.has k' o) eqn:Hhas.
  - rewrite get_update, Hhas. reflexivity.
  - assert (Hnone : JsObject.get k' o = None).
    { unfold JsObject.has in Hhas. now destruct (JsObject.get k' o). }
    destruct (JsObject.arrayIndex k').
    + now apply get_insertIndex.
    + now apply get_append.
Qed.

(** What is read after [o[k'] = v]: the value under [k'], unless [k'] is
    [__proto__]. *)
Lemma get_assign k k' v o :
  JsObject.get k (JsObject.assign k' v o)
  = if String.eqb k' "__proto__" then JsObject.get k o
    else if String.eqb k k' then Some v else JsObject.get k o.
Proof.
  unfold JsObject.assign. destruct (String.eqb k' "__proto__"); [reflexivity|apply get_set].
Qed.

Lemma assign_proto v o : JsObject.assign "__proto__" v o = o.
Proof. reflexivity. Qed.

Lemma assign_other k v o :
  k <> "__proto__" -> JsObject.assign k v o = JsObject.set k v o.
Proof.
  intros Hk. unfold JsObject.assign.
  destruct (String.eqb_spec k "__proto__"); [contradiction|reflexivity].
Qed.

(** An assignment adds no entry but its own. *)
Lemma in_update k v o kv :
  In kv (JsObject.update k v o) -> kv = (k, v) \/ In kv o.
Proof.
  induction o as [|[k1 v1] o IH]; simpl; [tauto|].
  destruct (String.eqb_spec k k1) as [->|_]; simpl; intuition.
Qed.

Lemma in_insertIndex n k v o kv :
  In kv (JsObject.insertIndex n k v o) -> kv = (k, v) \/ In kv o.
Proof.
  induction o as [|[k1 v1] o IH]; simpl; [intuition|].
  destruct (JsObject.arrayIndex k1) as [n1|]; [destruct (n <? n1)%N|]; simpl; intuition.
Qed.

Lemma in_set k v o kv :
  In kv (JsObject.set k v o) -> kv = (k, v) \/ In kv o.
Proof.
  unfold JsObject.set.
  destruct (JsObject.has k o); [apply in_update|].
  destruct (JsObject.arrayIndex k); [apply in_insertIndex|].
  intros Hin. apply in_app_or in Hin. simpl in Hin. intuition.
Qed.

(** Reading a spread: the source wins, the target shows through. *)
Lemma get_spread k (target source : JsObject.t V) :
  NoDup (JsObject.keys source) ->
  JsObject.get k (JsObject.spread target source)
  = match JsObject.get k source with
    | Some v => Some v
    | None => JsObject.get k target
    end.
Proof.
  unfold JsObject.spread. revert target.
  induction source as [|[k1 v1] source IH]; simpl; intros target Hnodup; [reflexivity|].
  inversion Hnodup as [|? ? Hnotin Hnodup']; subst.
  rewrite (IH _ Hnodup'), get_set.
  destruct (String.eqb_spec k k1) as [->|_]; [|reflexivity].
  fold (JsObject.keys source) in Hnotin. now rewrite (get_absent _ _ Hnotin).
Qed.

End TableFacts.

(** ** Alias substitution *)

Lemma aliasStep_fold cwd rootDir importPath table realPath :
  fold_left (aliasStep cwd rootDir importPath) table realPath
  = match lastMatchingAlias importPath table with
    | Some (alias, target) => resolve cwd [rootDir; JsString.replace importPath alias target]
    | None => realPath
    end.
Proof.
  unfold lastMatchingAlias.
  induction table as [|[alias target] table IH] using rev_ind; [reflexivity|].
  rewrite fold_left_app, rev_unit. simpl.
  destruct (JsString.startsWith importPath alias); [reflexivity|].
  exact IH.
Qed.

(** A matching alias is replaced where it stands, at the start. *)
Lemma replace_prefix s alias target :
  JsString.startsWith s alias = true ->
  JsString.replace s alias target
  = JsString.getSubstitution alias "" (JsString.drop (String.length alias) s) target
    ++ JsString.drop (String.length alias) s.
Proof.
  unfold JsString.startsWith, JsString.replace, JsString.indexOf. intros Hpre.
  assert (Hidx : JsString.indexOf_from 0 s alias = 0%Z).
  { destruct s; cbn [JsString.indexOf_from]; now rewrite Hpre. }
  rewrite Hidx. reflexivity.
Qed.

(** A target without a dollar sign is inserted as it is. *)
Lemma getSubstitution_plain matched before after rep :
  JsString.includes rep "$" = false ->
  JsString.getSubstitution matched before after rep = rep.
Proof.
  unfold JsString.includes, JsString.indexOf.
  assert (Hgen : forall i, (0 <= i)%Z ->
            (0 <=? JsString.indexOf_from i rep "$")%Z = false ->
            JsString.getSubstitution matched before after rep = rep).
  { induction rep as [|c rep IH]; intros i Hi Hno; [reflexivity|].
    cbn [JsString.indexOf_from] in Hno. rewrite prefix_char in Hno.
    cbn [JsString.getSubstitution].
    rewrite (Ascii.eqb_sym c "$").
    destruct (Ascii.eqb "$" c).
    - apply Z.leb_gt in Hno. lia.
    - f_equal. now apply (IH (i + 1)%Z); [lia|]. }
  apply (Hgen 0%Z). lia.
Qed.

(** The merged table: the default entry, overridden or joined by the
    entries of the caller. *)
Lemma enableAlias_lookup (table : JsObject.t string) (k : string) :
  NoDup (JsObject.keys table) ->
  JsObject.get k (enableAlias (Some table))
  = match JsObject.get k table with
    | Some target => Some target
    | None => if String.eqb k "@/" then Some "src/" else None
    end.
Proof.
  intros Hnodup. unfold enableAlias. now rewrite get_spread.
Qed.

(** The claim read for every bare specifier fails under the routing rule:
    with [fileDir] holding the marker and a specifier that does not start
    with [@], no alias is looked at, whatever the table says. *)
Lemma C3_counterexample :
  isRelative "utils/foo" = false
  /\ lastMatchingAlias "utils/foo"
       (JsObject.entries (enableAlias (Some [("utils/", "lib/")])))
     = Some ("utils/", "lib/")
  /\ resolve workDir ["/proj"; JsString.replace "utils/foo" "utils/" "lib/"] = "/proj/lib/foo"
  /\ specifierPath workDir "/proj" "/proj/config/config.ts" "utils/foo"
       (Some [("utils/", "lib/")])
     = "/proj/src/pages/utils/foo".
Proof. repeat split. Qed.

(** C3 (amended). For a bare specifier that the routing rule does not
    take ([fileDir] without the marker, or a specifier starting with [@]),
    the path is decided by the merged alias table: the default entry
    [@/ -> src/] with the caller's entries added or overriding it; the last
    entry, in the iteration order of that table, whose key starts the
    specifier gives [resolve(rootDir, importPath.replace(alias, target))],
    and when no entry matches the path stays under [rootDir/src] (under
    [rootDir] for a specifier starting with [src]).  With the table
    [@/ -> src/, @utils/ -> src/utils/], [@utils/foo] goes under
    [src/utils/foo]. *)
Theorem C3_alias_substitution
        (cwd rootDir fileDir importPath : string) (importAlias : option (JsObject.t string))
        (Hbare : isRelative importPath = false)
        (Hrouting : JsString.includes fileDir "config/config"
                    && negb (JsString.startsWith importPath "@") = false) :
  specifierPath cwd rootDir fileDir importPath importAlias
  = match lastMatchingAlias importPath (JsObject.entries (enableAlias importAlias)) with
    | Some (alias, target) =>
        resolve cwd [rootDir; JsString.replace importPath alias target]
    | None =>
        if JsString.startsWith importPath "src"
        then resolve cwd [rootDir; importPath]
        else resolve cwd [rootDir; "src"; importPath]
    end
  /\ (forall alias target,
         lastMatchingAlias importPath (JsObject.entries (enableAlias importAlias))
         = Some (alias, target) ->
         JsString.includes target "$" = false ->
         JsString.replace importPath alias target
         = target ++ JsString.drop (String.length alias) importPath)
  /\ enableAlias None = [("@/", "src/")]
  /\ (forall table k,
         NoDup (JsObject.keys table) ->
         JsObject.get k (enableAlias (Some table))
         = match JsObject.get k table with
           | Some target => Some target
           | None => if String.eqb k "@/" then Some "src/" else None
           end)
  /\ (forall dir,
         specifierPath cwd rootDir dir "@utils/foo"
           (Some [("@/", "src/"); ("@utils/", "src/utils/")])
         = resolve cwd [rootDir; "src/utils/foo"]).
Proof.
  split; [|split; [|split; [|split]]].
  - unfold specifierPath. rewrite Hrouting, Hbare. apply aliasStep_fold.
  - intros alias target Hlast Hplain.
    unfold lastMatchingAlias in Hlast. apply find_some in Hlast.
    destruct Hlast as [_ Hstarts]. simpl in Hstarts.
    rewrite (replace_prefix _ _ _ Hstarts).
    now rewrite getSubstitution_plain.
  - reflexivity.
  - intros table k. apply enableAlias_lookup.
  - intros dir. unfold specifierPath.
    replace (JsString.startsWith "@utils/foo" "@") with true by reflexivity.
    rewrite andb_false_r. reflexivity.
Qed.

Lemma C3_witness :
  specifierPath workDir "/proj" "/proj/src/pages/home.tsx" "@utils/foo"
    (Some [("@/", "src/"); ("@utils/", "src/utils/")])
  = "/proj/src/utils/foo"
  /\ specifierPath workDir "/proj" "/proj/src/pages/home.tsx" "@/api/user"
       (Some [("@/", "app/"); ("@/api/", "services/")])
     = "/proj/services/user"
  /\ specifierPath workDir "/proj" "/proj/config/config.ts" "@/layouts/main" None
     = "/proj/src/layouts/main".
Proof.
  split; [|split].
  - rewrite (proj1 (C3_alias_substitution workDir "/proj" "/proj/src/pages/home.tsx"
                      "@utils/foo" (Some [("@/", "src/"); ("@utils/", "src/utils/")])
                      eq_refl eq_refl)).
    reflexivity.
  - rewrite (proj1 (C3_alias_substitution workDir "/proj" "/proj/src/pages/home.tsx"
                      "@/api/user" (Some [("@/", "app/"); ("@/api/", "services/")])
                      eq_refl eq_refl)).
    reflexivity.
  - rewrite (proj1 (C3_alias_substitution workDir "/proj" "/proj/config/config.ts"
                      "@/layouts/main" None eq_refl eq_refl)).
    reflexivity.
Defined.

(** ** Looking for the project root: [getAppRootDir] *)

Lemma ancestorDir_shift cwd n p :
  ancestorDir cwd n (resolve cwd [p; ".."]) = ancestorDir cwd (S n) p.
Proof.
  induction n as [|n IH]; [reflexivity|].
  change (ancestorDir cwd (S n) (resolve cwd [p; ".."]))
    with (resolve cwd [ancestorDir cwd n (resolve cwd [p; ".."]); ".."]).
  now rewrite IH.
Qed.

Lemma manifest_listed files :
  existsb (fun file => String.eqb file "package.json") files = true
  <-> In "package.json" files.
Proof.
  rewrite existsb_exists. split.
  - intros [x [Hin Heq]]. apply String.eqb_eq in Heq. now subst.
  - intros Hin. exists "package.json". split; [assumption|apply String.eqb_refl].
Qed.

(** One call of [getAppRootDir], by what the listing of the parent shows. *)
Lemma getAppRootDir_found cwd fs depth p files :
  readdirSync fs (resolve cwd [p; ".."]) = Normal files ->
  In "package.json" files ->
  getAppRootDir cwd fs (S depth) p = Normal (resolve cwd [p; ".."]).
Proof.
  intros Hls Hin. simpl. rewrite Hls. simpl.
  apply manifest_listed in Hin. now rewrite Hin.
Qed.

Lemma getAppRootDir_climbs cwd fs depth p files :
  readdirSync fs (resolve cwd [p; ".."]) = Normal files ->
  ~ In "package.json" files ->
  getAppRootDir cwd fs (S depth) p = getAppRootDir cwd fs depth (resolve cwd [p; ".."]).
Proof.
  intros Hls Hnot. simpl. rewrite Hls. simpl.
  destruct (existsb _ files) eqn:Hex; [|reflexivity].
  apply manifest_listed in Hex. contradiction.
Qed.

Lemma getAppRootDir_unlistable cwd fs depth p e :
  readdirSync fs (resolve cwd [p; ".."]) = Throw e ->
  getAppRootDir cwd fs (S depth) p = Throw e.
Proof.
  intros Hls. simpl. now rewrite Hls.
Qed.

(** The claim read for every start path fails where a directory on the way
    up cannot be listed: [/proj] holds the manifest, [/proj/locked] refuses
    to be listed, and the walk from [/proj/locked/x.ts] ends in that
    refusal, whatever the stack depth.  A start path under a directory that
    does not exist, [/proj/gone/x.ts], ends the same way with [ENOENT]. *)
Lemma C8_counterexample :
  listsManifest (Disk.fileSystem workDir lockedDisk)
    (ancestorDir workDir 2 "/proj/locked/x.ts")
  /\ (forall depth,
         getAppRootDir workDir (Disk.fileSystem workDir lockedDisk) (S depth)
           "/proj/locked/x.ts"
         = Throw (SystemError "EACCES"))
  /\ listsManifest (Disk.fileSystem workDir lockedDisk)
       (ancestorDir workDir 2 "/proj/gone/x.ts")
  /\ (forall depth,
         getAppRootDir workDir (Disk.fileSystem workDir lockedDisk) (S depth)
           "/proj/gone/x.ts"
         = Throw (SystemError "ENOENT")).
Proof.
  assert (Hproj : listsManifest (Disk.fileSystem workDir lockedDisk) "/proj").
  { exists ["package.json"; "locked"; "src"]. split; [reflexivity|now left]. }
  split; [exact Hproj|]. split; [|split; [exact Hproj|]].
  - intros depth. now apply getAppRootDir_unlistable.
  - intros depth. now apply getAppRootDir_unlistable.
Qed.

(** C8 (amended). When some directory above the start path lists an entry
    named [package.json], and every directory below it on the way up can be
    listed, [getAppRootDir] returns, with any stack deep enough, the
    nearest directory above the start path that lists such an entry: the
    parent is looked at first, then one directory higher at a time. *)
Theorem C8_getAppRootDir_nearest_manifest
        (cwd : string) (fs : FileSystem) (m : nat) (startPath : string)
        (Hmanifest : listsManifest fs (ancestorDir cwd (S m) startPath))
        (Hlistable : forall k, k < m -> listable fs (ancestorDir cwd (S k) startPath)) :
  exists n,
    n <= m
    /\ listsManifest fs (ancestorDir cwd (S n) startPath)
    /\ (forall k, k < n -> ~ listsManifest fs (ancestorDir cwd (S k) startPath))
    /\ (forall depth, n < depth ->
          getAppRootDir cwd fs depth startPath = Normal (ancestorDir cwd (S n) startPath)).
Proof.
  revert startPath Hmanifest Hlistable.
  induction m as [|m IH]; intros startPath Hmanifest Hlistable.
  - exists 0. repeat split; [lia|assumption|intros k Hk; lia|].
    intros [|depth] Hdepth; [lia|].
    destruct Hmanifest as [files [Hls Hin]]. exact (getAppRootDir_found _ _ _ _ _ Hls Hin).
  - destruct (Hlistable 0 ltac:(lia)) as [files Hls].
    destruct (in_dec string_dec "package.json" files) as [Hin|Hnot].
    + exists 0. repeat split; [lia|now exists files|intros k Hk; lia|].
      intros [|depth] Hdepth; [lia|]. exact (getAppRootDir_found _ _ _ _ _ Hls Hin).
    + destruct (IH (resolve cwd [startPath; ".."])) as [n [Hle [Hfound [Hleast Hrun]]]].
      * now rewrite ancestorDir_shift.
      * intros k Hk. rewrite ancestorDir_shift. apply Hlistable. lia.
      * rewrite ancestorDir_shift in Hfound.
        exists (S n). repeat split; [lia|assumption| |].
        -- intros [|k] Hk [files' [Hls' Hin']].
           ++ rewrite Hls in Hls'. injection Hls' as <-. contradiction.
           ++ apply (Hleast k ltac:(lia)). rewrite ancestorDir_shift. now exists files'.
        -- intros [|depth] Hdepth; [lia|].
           rewrite (getAppRootDir_climbs _ _ _ _ _ Hls Hnot).
           rewrite (Hrun depth ltac:(lia)). now rewrite ancestorDir_shift.
Qed.

(** From a component file the walk passes three directories without a
    manifest and stops at [/proj]; four frames are enough. *)
Lemma C8_witness :
  getAppRootDir workDir (Disk.fileSystem workDir buttonDisk) 4
    "/proj/src/components/Button/index.tsx"
  = Normal "/proj".
Proof.
  destruct (C8_getAppRootDir_nearest_manifest workDir (Disk.fileSystem workDir buttonDisk) 3
              "/proj/src/components/Button/index.tsx") as [n [Hle [Hfound [Hleast Hrun]]]].
  - exists ["package.json"; "src"]. split; [reflexivity|now left].
  - intros k Hk.
    destruct k as [|[|[|k]]]; [eexists; reflexivity ..|lia].
  - rewrite (Hrun 4) by lia.
    destruct n as [|[|[|[|n]]]]; [exfalso ..|reflexivity|lia];
      destruct Hfound as [files [Hls Hin]]; vm_compute in Hls;
      injection Hls as <-; simpl in Hin;
      repeat (destruct Hin as [Hin|Hin]; [discriminate|]); exact Hin.
Defined.

(** ** Import extraction: [analyzeImports] *)

Lemma bind_Normal_inv {A B : Type} (c : completion A) (k : A -> completion B) (v : B) :
  bind c k = Normal v -> exists x, c = Normal x /\ k x = Normal v.
Proof.
  destruct c as [x|e]; simpl; [eauto|discriminate].
Qed.

(** [resolve] never returns the empty string. *)
Lemma resolve_truthy cwd args : JsString.truthy (resolve cwd args) = true.
Proof.
  unfold resolve, NodePath.resolve.
  destruct (NodePath.resolve_loop cwd (rev args) "") as [resolvedPath [|]].
  - reflexivity.
  - destruct (JsString.truthy (NodePath.normalizeString resolvedPath (negb false))) eqn:E;
      [exact E|reflexivity].
Qed.

Section Extraction.

Variable cwd : string.
Variable fs : FileSystem.
Variable filePath : string.
Variable filter : option (string -> completion bool).

(** A relative specifier is written whatever the filter is: the filter
    is not even called. *)
Lemma visitSpecifier_relative decl result spec :
  isRelative (decl_source decl) = true ->
  visitSpecifier cwd fs filePath filter decl result spec
  = Normal (JsObject.assign (local spec) (entryFor cwd fs filePath decl spec) result).
Proof.
  intros Hrel. unfold visitSpecifier, absoluteSourceOf, entryFor, relativeId.
  rewrite Hrel. destruct (isDirectory fs filePath); cbn [bind];
    now rewrite resolve_truthy.
Qed.

(** A bare specifier is written only when it is accepted. *)
Lemma visitSpecifier_bare decl result spec result' :
  isRelative (decl_source decl) = false ->
  visitSpecifier cwd fs filePath filter decl result spec = Normal result' ->
  (result' = JsObject.assign (local spec) (entryFor cwd fs filePath decl spec) result
   /\ accepted filter (decl_source decl))
  \/ result' = result.
Proof.
  intros Hbare. unfold visitSpecifier, absoluteSourceOf, entryFor, accepted.
  rewrite Hbare.
  destruct filter as [accepts|].
  - destruct (accepts (decl_source decl)) as [[|]|e]; cbn [bind];
      try discriminate;
      try (destruct (JsString.truthy (decl_source decl)));
      intros [= <-]; auto.
  - cbn [bind]. destruct (JsString.truthy (decl_source decl)); intros [= <-]; auto.
Qed.

Lemma visitSpecifier_rejected decl result spec accepts :
  filter = Some accepts ->
  isRelative (decl_source decl) = false ->
  accepts (decl_source decl) = Normal false ->
  visitSpecifier cwd fs filePath filter decl result spec = Normal result.
Proof.
  intros -> Hbare Hrej. unfold visitSpecifier, absoluteSourceOf.
  now rewrite Hbare, Hrej.
Qed.

Lemma visitAll_app bs1 bs2 result :
  visitAll cwd fs filePath filter (bs1 ++ bs2)%list result
  = (result' <- visitAll cwd fs filePath filter bs1 result ;;
     visitAll cwd fs filePath filter bs2 result').
Proof.
  revert result. induction bs1 as [|b bs1 IH]; intros result; [reflexivity|].
  cbn [visitAll app].
  destruct (visitSpecifier cwd fs filePath filter (fst b) result (snd b)); cbn [bind];
    [apply IH|reflexivity].
Qed.

Lemma visitSpecifiers_visitAll decl specs result :
  visitSpecifiers cwd fs filePath filter decl specs result
  = visitAll cwd fs filePath filter (map (pair decl) specs) result.
Proof.
  revert result. induction specs as [|spec specs IH]; intros result; [reflexivity|].
  cbn [visitSpecifiers visitAll map fst snd].
  destruct (visitSpecifier cwd fs filePath filter decl result spec); cbn [bind];
    [apply IH|reflexivity].
Qed.

Lemma visitDeclarations_visitAll ast result :
  visitDeclarations cwd fs filePath filter ast result
  = visitAll cwd fs filePath filter (bindings ast) result.
Proof.
  revert result. induction ast as [|decl ast IH]; intros result; [reflexivity|].
  cbn [visitDeclarations bindings flat_map]. rewrite visitAll_app, visitSpecifiers_visitAll.
  destruct (visitAll cwd fs filePath filter (map (pair decl) (decl_specifiers decl)) result);
    cbn [bind]; [apply IH|reflexivity].
Qed.

(** The traversal: the scope pass, then one pass over [bindings]. *)
Lemma traverse_visitAll ast result :
  traverse cwd fs filePath filter ast result
  = (_ <- crawl ast [] ;; visitAll cwd fs filePath filter (bindings ast) result).
Proof.
  unfold traverse. now rewrite visitDeclarations_visitAll.
Qed.

(** One visit: what can be read afterwards. *)
Lemma visitSpecifier_get decl result spec result' k :
  visitSpecifier cwd fs filePath filter decl result spec = Normal result' ->
  JsObject.get k result' = JsObject.get k result
  \/ (k = local spec
      /\ k <> "__proto__"
      /\ JsObject.get k result' = Some (entryFor cwd fs filePath decl spec)
      /\ (isRelative (decl_source decl) = true \/ accepted filter (decl_source decl))).
Proof.
  assert (Hassign :
            forall why : isRelative (decl_source decl) = true
                         \/ accepted filter (decl_source decl),
              JsObject.get k (JsObject.assign (local spec)
                                (entryFor cwd fs filePath decl spec) result)
              = JsObject.get k result
              \/ (k = local spec
                  /\ k <> "__proto__"
                  /\ JsObject.get k (JsObject.assign (local spec)
                                       (entryFor cwd fs filePath decl spec) result)
                     = Some (entryFor cwd fs filePath decl spec)
                  /\ (isRelative (decl_source decl) = true
                      \/ accepted filter (decl_source decl)))).
  { intros why. rewrite get_assign.
    destruct (String.eqb_spec (local spec) "__proto__") as [Hproto|Hproto]; [now left|].
    destruct (String.eqb_spec k (local spec)) as [->|_]; [right|now left].
    repeat split; assumption. }
  destruct (isRelative (decl_source decl)) eqn:Hrel.
  - rewrite visitSpecifier_relative by assumption. intros [= <-]. apply Hassign. now left.
  - intros Hvisit. destruct (visitSpecifier_bare _ _ _ _ Hrel Hvisit) as [[-> Hacc]| ->];
      [|auto].
    apply Hassign. now right.
Qed.

(** Every entry of the result was written for some specifier, relative
    or accepted. *)
Lemma visitAll_provenance bs result result' k e :
  visitAll cwd fs filePath filter bs result = Normal result' ->
  JsObject.get k result' = Some e ->
  JsObject.get k result = Some e
  \/ exists decl spec,
      In (decl, spec) bs /\ k = local spec
      /\ e = entryFor cwd fs filePath decl spec
      /\ (isRelative (decl_source decl) = true \/ accepted filter (decl_source decl)).
Proof.
  revert result. induction bs as [|[decl spec] bs IH]; intros result Hall Hget.
  - injection Hall as <-. auto.
  - cbn [visitAll fst snd] in Hall.
    apply bind_Normal_inv in Hall. destruct Hall as [result1 [Hvisit Hrest]].
    destruct (IH _ Hrest Hget) as [Hold|[decl' [spec' [Hin Hrest']]]].
    + destruct (visitSpecifier_get _ _ _ _ k Hvisit) as [Hsame|[Hk [_ [Hnew Hwhy]]]].
      * left. congruence.
      * right. exists decl, spec. repeat split; [now left|assumption|congruence|assumption].
    + right. exists decl', spec'. split; [now right|assumption].
Qed.

(** No visit gives the table an own entry named [__proto__]. *)
Lemma visitAll_no_proto bs result result' :
  visitAll cwd fs filePath filter bs result = Normal result' ->
  JsObject.get "__proto__" result = None ->
  JsObject.get "__proto__" result' = None.
Proof.
  revert result. induction bs as [|[decl spec] bs IH]; intros result Hall Hnone.
  - now injection Hall as <-.
  - cbn [visitAll fst snd] in Hall.
    apply bind_Normal_inv in Hall. destruct Hall as [result1 [Hvisit Hrest]].
    apply (IH _ Hrest).
    destruct (visitSpecifier_get _ _ _ _ "__proto__" Hvisit) as [Hsame|[_ [Hne _]]];
      [congruence|contradiction].
Qed.

(** Keys are never removed, and a key no specifier binds is left alone. *)
Lemma visitAll_keeps bs result result' k :
  visitAll cwd fs filePath filter bs result = Normal result' ->
  ~ In k (map localOf bs) ->
  JsObject.get k result' = JsObject.get k result.
Proof.
  revert result. induction bs as [|[decl spec] bs IH]; intros result Hall Hnot.
  - now injection Hall as <-.
  - cbn [visitAll fst snd] in Hall.
    apply bind_Normal_inv in Hall. destruct Hall as [result1 [Hvisit Hrest]].
    rewrite (IH _ Hrest) by (intros Hin; apply Hnot; now right).
    destruct (visitSpecifier_get _ _ _ _ k Hvisit) as [Hsame|[Hk _]]; [assumption|].
    exfalso. apply Hnot. left. now subst.
Qed.

Lemma visitAll_grows bs result result' k :
  visitAll cwd fs filePath filter bs result = Normal result' ->
  JsObject.get k result <> None ->
  JsObject.get k result' <> None.
Proof.
  revert result. induction bs as [|[decl spec] bs IH]; intros result Hall Hsome.
  - now injection Hall as <-.
  - cbn [visitAll fst snd] in Hall.
    apply bind_Normal_inv in Hall. destruct Hall as [result1 [Hvisit Hrest]].
    apply (IH _ Hrest).
    destruct (visitSpecifier_get _ _ _ _ k Hvisit) as [Hsame|[_ [_ [Hnew _]]]]; congruence.
Qed.

(** A relative specifier whose local name is not [__proto__] always
    leaves an entry under that name. *)
Lemma visitAll_relative_included bs result result' decl spec :
  visitAll cwd fs filePath filter bs result = Normal result' ->
  In (decl, spec) bs ->
  isRelative (decl_source decl) = true ->
  local spec <> "__proto__" ->
  JsObject.get (local spec) result' <> None.
Proof.
  revert result. induction bs as [|b bs IH]; intros result Hall Hin Hrel Hname;
    [contradiction|].
  cbn [visitAll] in Hall.
  apply bind_Normal_inv in Hall. destruct Hall as [result1 [Hvisit Hrest]].
  destruct Hin as [->|Hin]; [|now apply (IH _ Hrest)].
  cbn [fst snd] in Hvisit. rewrite visitSpecifier_relative in Hvisit by assumption.
  injection Hvisit as <-. apply (visitAll_grows _ _ _ _ Hrest).
  rewrite assign_other, get_set, String.eqb_refl by assumption. discriminate.
Qed.

(** When no local name is bound twice, that entry is the one written for
    the specifier itself. *)
Lemma visitAll_relative_exact bs result result' decl spec :
  NoDup (map localOf bs) ->
  visitAll cwd fs filePath filter bs result = Normal result' ->
  In (decl, spec) bs ->
  isRelative (decl_source decl) = true ->
  local spec <> "__proto__" ->
  JsObject.get (local spec) result' = Some (entryFor cwd fs filePath decl spec).
Proof.
  revert result. induction bs as [|b bs IH]; intros result Hnodup Hall Hin Hrel Hname;
    [contradiction|].
  cbn [visitAll] in Hall. cbn [map] in Hnodup.
  inversion Hnodup as [|? ? Hfresh Hnodup']; subst.
  apply bind_Normal_inv in Hall. destruct Hall as [result1 [Hvisit Hrest]].
  destruct Hin as [->|Hin]; [|now apply (IH _ Hnodup' Hrest)].
  cbn [fst snd] in Hvisit. rewrite visitSpecifier_relative in Hvisit by assumption.
  injection Hvisit as <-.
  rewrite (visitAll_keeps _ _ _ _ Hrest) by exact Hfresh.
  now rewrite assign_other, get_set, String.eqb_refl by assumption.
Qed.

End Extraction.

Lemma set_empty {V : Type} (k : string) (v : V) : JsObject.set k v [] = [(k, v)].
Proof.
  unfold JsObject.set. cbn. now destruct (JsObject.arrayIndex k).
Qed.

Lemma analyzeImports_visitAll cwd fs parse filePath filter ast :
  transformToAST cwd fs parse filePath = Normal (Some ast) ->
  analyzeImports cwd fs parse filePath filter
  = (_ <- crawl ast [] ;; visitAll cwd fs filePath filter (bindings ast) []).
Proof.
  intros Hast. unfold analyzeImports. rewrite Hast. cbn [bind]. apply traverse_visitAll.
Qed.

(** A table is returned for a parsed file only when the scope pass went
    through; it is then the table the visitors filled. *)
Lemma analyzeImports_Normal_inv cwd fs parse filePath filter ast result :
  transformToAST cwd fs parse filePath = Normal (Some ast) ->
  analyzeImports cwd fs parse filePath filter = Normal result ->
  (exists scope, crawl ast [] = Normal scope)
  /\ visitAll cwd fs filePath filter (bindings ast) [] = Normal result.
Proof.
  intros Hast Hres. rewrite (analyzeImports_visitAll _ _ _ _ _ _ Hast) in Hres.
  destruct (crawl ast []) as [scope|e]; [|discriminate].
  split; [now exists scope|exact Hres].
Qed.

(** *** The scope pass *)

Lemma registerAll_app bs1 bs2 scope :
  registerAll (bs1 ++ bs2)%list scope
  = (scope' <- registerAll bs1 scope ;; registerAll bs2 scope').
Proof.
  revert scope. induction bs1 as [|b bs1 IH]; intros scope; [reflexivity|].
  cbn [registerAll app].
  destruct (registerBinding (bindingKind (fst b) (snd b)) (local (snd b)) scope);
    cbn [bind]; [apply IH|reflexivity].
Qed.

Lemma registerSpecifiers_registerAll decl specs scope :
  registerSpecifiers decl specs scope = registerAll (map (pair decl) specs) scope.
Proof.
  revert scope. induction specs as [|spec specs IH]; intros scope; [reflexivity|].
  cbn [registerSpecifiers registerAll map fst snd].
  destruct (registerBinding (bindingKind decl spec) (local spec) scope); cbn [bind];
    [apply IH|reflexivity].
Qed.

Lemma crawl_registerAll ast scope :
  crawl ast scope = registerAll (bindings ast) scope.
Proof.
  revert scope. induction ast as [|decl ast IH]; intros scope; [reflexivity|].
  cbn [crawl bindings flat_map]. rewrite registerAll_app, registerSpecifiers_registerAll.
  destruct (registerAll (map (pair decl) (decl_specifiers decl)) scope); cbn [bind];
    [apply IH|reflexivity].
Qed.


Lemma registerBinding_fresh kind name scope :
  JsObject.get name scope = None ->
  registerBinding kind name scope = Normal (JsObject.set name kind scope).
Proof.
  intros Hnone. unfold registerBinding. now rewrite Hnone.
Qed.


(** When no local name is bound twice the scope pass goes through. *)
Lemma registerAll_NoDup bs scope :
  NoDup (map localOf bs) ->
  (forall b, In b bs -> JsObject.get (localOf b) scope = None) ->
  exists scope', registerAll bs scope = Normal scope'.
Proof.
  revert scope. induction bs as [|b bs IH]; intros scope Hnodup Hfresh.
  - now exists scope.
  - cbn [map] in Hnodup. inversion Hnodup as [|? ? Hnew Hnodup']; subst.
    cbn [registerAll].
    rewrite registerBinding_fresh by (apply (Hfresh b); now left).
    cbn [bind]. apply IH; [assumption|].
    intros b' Hin. rewrite get_set.
    destruct (String.eqb_spec (localOf b') (local (snd b))) as [Heq|_].
    + exfalso. apply Hnew. replace (localOf b) with (localOf b') by exact Heq.
      now apply in_map.
    + apply Hfresh. now right.
Qed.

Lemma crawl_NoDup ast :
  NoDup (map localOf (bindings ast)) ->
  exists scope, crawl ast [] = Normal scope.
Proof.
  intros Hnodup. rewrite crawl_registerAll. now apply registerAll_NoDup.
Qed.


(** A name bound by two value imports is refused, and the refusal empties
    the graph of [analyzeDependencies]; a name first bound by a type-only
    import may be bound again. *)
Example scope_pass_on_a_name_bound_twice :
  crawl [defaultImport "x" "./one"; defaultImport "x" "./two"] []
  = Throw (duplicateDeclaration "x")
  /\ analyzeDependencies workDir (Disk.fileSystem workDir shadowDisk) shadowParser
       4 "/app/main.ts" None
     = Normal []
  /\ crawl [ {| decl_source := "./types"; decl_importKind := Some type;
                decl_specifiers := [ImportSpecifier "x" (Some "x") None] |};
             defaultImport "x" "./two" ] []
     = Normal [("x", unknown_kind)].
Proof. repeat split; reflexivity. Qed.


Lemma in_bindings ast decl spec :
  In (decl, spec) (bindings ast) <-> In decl ast /\ In spec (decl_specifiers decl).
Proof.
  unfold bindings. rewrite in_flat_map. split.
  - intros [d [Hd Hin]]. apply in_map_iff in Hin. destruct Hin as [x [[= <- <-] Hx]]. auto.
  - intros [Hd Hs]. exists decl. split; [assumption|]. now apply in_map.
Qed.

(** Whatever [analyzeImports] returns has no [dependencies] field yet. *)
Lemma analyzeImports_leaves cwd fs parse filePath filter result k e :
  analyzeImports cwd fs parse filePath filter = Normal result ->
  JsObject.get k result = Some e ->
  dependencies e = None.
Proof.
  unfold analyzeImports.
  destruct (transformToAST cwd fs parse filePath) as [[ast|]|err]; cbn [bind];
    try discriminate.
  - rewrite traverse_visitAll. intros Hres Hget.
    apply bind_Normal_inv in Hres. destruct Hres as [scope [_ Hall]].
    destruct (visitAll_provenance _ _ _ _ _ _ _ _ _ Hall Hget)
      as [Hnone|[decl [spec [_ [_ [-> _]]]]]]; [discriminate|reflexivity].
  - intros [= <-]. discriminate.
Qed.

(** *** The id of [./a] never ends in [.json] *)

Lemma join_snoc (segs : list string) (seg : string) :
  exists front, NodePath.join (segs ++ [seg])%list = front ++ seg.
Proof.
  induction segs as [|x segs IH].
  - exists "". reflexivity.
  - destruct IH as [front Hfront]. cbn [app].
    destruct segs as [|y segs].
    + exists (x ++ "/"). cbn [app NodePath.join]. now rewrite append_assoc.
    + exists (x ++ "/" ++ front).
      change (NodePath.join (x :: (y :: segs) ++ [seg])%list)
        with (x ++ "/" ++ NodePath.join ((y :: segs) ++ [seg])%list).
      rewrite Hfront. now rewrite !append_assoc.
Qed.

Lemma lastChar_append (a : string) (c : ascii) :
  JsString.lastChar (a ++ String c "") = Some c.
Proof.
  induction a as [|x a IH]; [reflexivity|].
  destruct a as [|y a]; [reflexivity|].
  change (JsString.lastChar (String y a ++ String c "") = Some c). exact IH.
Qed.

Lemma lastChar_drop (n : nat) (s : string) :
  JsString.drop n s = "" \/ JsString.lastChar (JsString.drop n s) = JsString.lastChar s.
Proof.
  revert s. induction n as [|n IH]; intros s; [now right|].
  destruct s as [|c s]; [now left|].
  cbn [JsString.drop]. destruct (IH s) as [Hnil|Hlast]; [now left|].
  destruct s as [|d s]; [left; now destruct n|].
  right. now rewrite Hlast.
Qed.

(** A text ending in [a] does not end with [.json]. *)
Lemma endsWith_json_last (front : string) :
  JsString.endsWith (front ++ "a") ".json" = false.
Proof.
  unfold JsString.endsWith.
  destruct (String.eqb_spec
              (JsString.drop (String.length (front ++ "a") - String.length ".json")
                             (front ++ "a")) ".json") as [Heq|_];
    [|apply andb_false_r].
  exfalso.
  destruct (lastChar_drop (String.length (front ++ "a") - String.length ".json")
                          (front ++ "a")) as [Hnil|Hlast].
  - rewrite Hnil in Heq. discriminate.
  - rewrite Heq, lastChar_append in Hlast. discriminate.
Qed.

Lemma resolve_dot_a_not_json (cwd dir : string) :
  JsString.endsWith (resolve cwd [dir; "./a"]) ".json" = false.
Proof.
  unfold resolve, NodePath.resolve.
  assert (Hloop : exists front abs,
             NodePath.resolve_loop cwd (rev [dir; "./a"]) "" = (front ++ "./a/", abs)
             /\ (front = "" \/ exists head, front = head ++ "/")).
  { change (NodePath.resolve_loop cwd (rev [dir; "./a"]) "")
      with (NodePath.resolve_loop cwd [dir] "./a/").
    cbn [NodePath.resolve_loop].
    destruct (String.eqb dir "").
    - destruct (String.eqb cwd "").
      + exists "", false. split; [reflexivity|now left].
      + exists (cwd ++ "/"), (JsString.startsWith cwd "/").
        split; [now rewrite append_assoc|right; now exists cwd].
    - destruct (JsString.startsWith dir "/").
      + exists (dir ++ "/"), true.
        split; [now rewrite append_assoc|right; now exists dir].
      + destruct (String.eqb cwd "").
        * exists (dir ++ "/"), false.
          split; [now rewrite append_assoc|right; now exists dir].
        * exists ((cwd ++ "/" ++ dir) ++ "/"), (JsString.startsWith cwd "/").
          split; [now rewrite !append_assoc|right; now exists (cwd ++ "/" ++ dir)]. }
  destruct Hloop as [front [abs [-> Hfront]]].
  assert (Hnorm : exists kept,
             NodePath.normalizeString (front ++ "./a/") (negb abs) = kept ++ "a").
  { unfold NodePath.normalizeString.
    assert (Hsplit : exists segs,
               NodePath.split (front ++ "./a/") = (segs ++ ["."; "a"; ""])%list).
    { destruct Hfront as [->|[head ->]].
      - exists []. reflexivity.
      - exists (NodePath.split head). rewrite append_assoc.
        change ("/" ++ "./a/") with (String "/" "./a/").
        now rewrite split_append_slash. }
    destruct Hsplit as [segs ->].
    destruct (normalizeSegments_append (negb abs) segs []) as [stack Hstack].
    rewrite Hstack.
    change (NodePath.normalizeSegments (negb abs) ["."; "a"; ""] stack)
      with (rev ("a" :: stack)).
    cbn [rev]. apply join_snoc. }
  destruct Hnorm as [kept ->].
  destruct abs.
  - change ("/" ++ kept ++ "a") with (("/" ++ kept) ++ "a"). apply endsWith_json_last.
  - assert (Htruthy : JsString.truthy (kept ++ "a") = true) by now destruct kept.
    rewrite Htruthy. apply endsWith_json_last.
Qed.

Lemma relativeId_dot_a_not_json cwd fs filePath :
  JsString.endsWith (relativeId cwd fs filePath "./a") ".json" = false.
Proof.
  unfold relativeId. destruct (isDirectory fs filePath); apply resolve_dot_a_not_json.
Qed.

(** C6.  The visitors record a specifier by [result[identifier] = ...]
    on a table created by [{}].  For the local name [__proto__] that
    assignment reaches the setter of [Object.prototype]: the table gets
    another prototype and no own property.  A module whose only import is
    [import __proto__ from './one'] therefore gives the empty table, and
    the empty graph, although the specifier is relative; the same import
    under the name [proto] is recorded with the resolved id. *)
Theorem C6_proto_import_is_dropped :
  transformToAST workDir (Disk.fileSystem workDir protoDisk) protoParser "/app/proto.ts"
  = Normal (Some [defaultImport "__proto__" "./one"])
  /\ analyzeImports workDir (Disk.fileSystem workDir protoDisk) protoParser
       "/app/proto.ts" None
     = Normal []
  /\ analyzeDependencies workDir (Disk.fileSystem workDir protoDisk) protoParser
       4 "/app/proto.ts" None
     = Normal []
  /\ analyzeImports workDir (Disk.fileSystem workDir protoDisk) protoParser
       "/app/plain.ts" None
     = Normal [("proto", {| id := "/app/one"; source := "./one"; importKind := Some value;
                            exportName := Some "default"; dependencies := None |})].
Proof.
  repeat split; reflexivity.
Qed.

(** ** The recursive collector: [deepCollect] *)

(** The claim read for every way of naming the two files fails when the
    root is passed with its extension and imported without it: [/p/a.ts]
    imports [./b], [/p/b.ts] imports [./a].  The children of [b] carry the
    id [/p/a], which is not the root path [/p/a.ts]; the guard lets the
    expansion through and [b] is given its [dependencies]. *)
Lemma C2_counterexample :
  chooseRealPath workDir (Disk.fileSystem workDir cycleDisk) "/p/b" = Normal "/p/b.ts"
  /\ chooseRealPath workDir (Disk.fileSystem workDir cycleDisk) "/p/a" = Normal "/p/a.ts"
  /\ exists nodeB,
      analyzeDependencies workDir (Disk.fileSystem workDir cycleDisk) cycleParser
        8 "/p/a.ts" None
      = Normal [("b", nodeB)]
      /\ id nodeB = "/p/b"
      /\ dependencies nodeB
         = Some [("a", {| id := "/p/a"; source := "./a"; importKind := Some value;
                          exportName := Some "default"; dependencies := None |})].
Proof.
  split; [reflexivity|]. split; [reflexivity|].
  eexists. split; [reflexivity|]. split; reflexivity.
Qed.

(** Every entry [analyzeImports] returns is still a leaf. *)
Lemma visitAll_allLeaves cwd fs filePath filter bs result result' :
  allLeaves result ->
  visitAll cwd fs filePath filter bs result = Normal result' ->
  allLeaves result'.
Proof.
  revert result. induction bs as [|[decl spec] bs IH]; intros result Hleaves Hall.
  - now injection Hall as <-.
  - cbn [visitAll fst snd] in Hall.
    apply bind_Normal_inv in Hall. destruct Hall as [result1 [Hvisit Hrest]].
    apply (IH result1); [|assumption].
    assert (Hassign : allLeaves (JsObject.assign (local spec)
                                   (entryFor cwd fs filePath decl spec) result)).
    { unfold JsObject.assign. destruct (String.eqb (local spec) "__proto__"); [assumption|].
      unfold allLeaves in *. apply Forall_forall. intros kv Hin.
      apply in_set in Hin. destruct Hin as [->|Hin]; [reflexivity|].
      rewrite Forall_forall in Hleaves. now apply Hleaves. }
    destruct (isRelative (decl_source decl)) eqn:Hrel.
    + rewrite visitSpecifier_relative in Hvisit by assumption. now injection Hvisit as <-.
    + destruct (visitSpecifier_bare _ _ _ _ _ _ _ _ Hrel Hvisit) as [[-> _]| ->];
        assumption.
Qed.

Lemma analyzeImports_allLeaves cwd fs parse filePath filter result :
  analyzeImports cwd fs parse filePath filter = Normal result ->
  allLeaves result.
Proof.
  unfold analyzeImports.
  destruct (transformToAST cwd fs parse filePath) as [[ast|]|err]; cbn [bind];
    try discriminate.
  - rewrite traverse_visitAll. intros Hres.
    apply bind_Normal_inv in Hres. destruct Hres as [scope [_ Hall]].
    apply (visitAll_allLeaves _ _ _ _ _ _ _ (Forall_nil _) Hall).
  - intros [= <-]. constructor.
Qed.

Lemma deepCollect_S cwd fs parse filter depth last parentIds :
  deepCollect cwd fs parse filter (S depth) last parentIds
  = forEachEntry
      (fun dep =>
         if isRelative (source dep) && negb (JsString.endsWith (id dep) ".json") then
           match analyzeImports cwd fs parse (id dep) filter with
           | Throw e => (dep, Throw e)
           | Normal innerDeps =>
               if negb (existsb (fun i => JsString.array_includes parentIds (id i))
                                (JsObject.values innerDeps))
               then
                 let (deps', c) :=
                   deepCollect cwd fs parse filter depth innerDeps
                               (parentIds ++ [id dep])%list in
                 (set_dependencies dep deps', c)
               else (dep, Normal tt)
           end
         else (dep, Normal tt))
      last.
Proof. reflexivity. Qed.

(** A loop whose callback never throws visits every entry. *)
Lemma forEachEntry_map visit (g : ImportMapWithDeps -> ImportMapWithDeps) last :
  Forall (fun entry => visit (snd entry) = (g (snd entry), Normal tt)) last ->
  forEachEntry visit last = (map (fun entry => (fst entry, g (snd entry))) last, Normal tt).
Proof.
  induction 1 as [|[key dep] rest Hdep _ IH]; [reflexivity|].
  cbn [forEachEntry map fst snd] in *. now rewrite Hdep, IH.
Qed.

Lemma map_entries_id (last : ImportTable) :
  map (fun entry => (fst entry, snd entry)) last = last.
Proof.
  induction last as [|[key dep] rest IH]; [reflexivity|].
  cbn [map fst snd]. now rewrite IH.
Qed.

(** A table whose every expandable entry is stopped by the guard is left
    as it is. *)
Lemma deepCollect_all_stopped cwd fs parse filter depth last parentIds :
  Forall (fun entry =>
            expandable (snd entry) = true ->
            exists inner,
              analyzeImports cwd fs parse (id (snd entry)) filter = Normal inner
              /\ existsb (fun i => JsString.array_includes parentIds (id i))
                         (JsObject.values inner) = true) last ->
  deepCollect cwd fs parse filter (S depth) last parentIds = (last, Normal tt).
Proof.
  intros Hstopped. rewrite deepCollect_S.
  rewrite (forEachEntry_map _ (fun dep => dep)); [now rewrite map_entries_id|].
  apply Forall_impl with (2 := Hstopped). intros [key dep] Hdep. cbn [snd] in *.
  fold (expandable dep). destruct (expandable dep); [|reflexivity].
  destruct (Hdep eq_refl) as [inner [-> ->]]. reflexivity.
Qed.

Lemma guard_on_root (rootPath : string) (inner : ImportTable) :
  existsb (fun i => JsString.array_includes [rootPath] (id i)) (JsObject.values inner)
  = existsb (fun i => String.eqb (id i) rootPath) (JsObject.values inner).
Proof.
  assert (Hone : forall x, JsString.array_includes [rootPath] x = String.eqb x rootPath).
  { intros x. cbn. apply orb_false_r. }
  unfold JsObject.values. induction inner as [|[key dep] rest IH]; [reflexivity|].
  cbn [map snd existsb]. now rewrite IH, Hone.
Qed.

(** C2 (amended). Two files in a cycle: every import of the root that is
    expanded (relative, id not ending in [.json]) is an import of B, and
    there is one; every import of B that is expanded is an import of the
    root file, under an id that names it again (extraction on that id
    gives the root's imports); either file may have other imports, bare
    or JSON.  With a stack of two frames or more [analyzeDependencies]
    returns.  B is a leaf exactly when one of B's imports has as its id
    the very string passed as the root path; otherwise every import of B
    is given the imports of B as they were extracted, and the entries for
    the root among them are leaves, B's id being found in the ancestor
    list. *)
Theorem C2_mutual_cycle_returns
        (cwd : string) (fs : FileSystem) (parse : string -> completion AST)
        (filter : option (string -> completion bool))
        (rootPath idB idA : string) (importsA importsB : ImportTable) (depth : nat)
        (Hroot : analyzeImports cwd fs parse rootPath filter = Normal importsA)
        (HimportsB : Forall (fun entry => expandable (snd entry) = true ->
                                          id (snd entry) = idB) importsA)
        (HoneB : Exists (fun entry => expandable (snd entry) = true) importsA)
        (HB : analyzeImports cwd fs parse idB filter = Normal importsB)
        (HimportsA : Forall (fun entry => expandable (snd entry) = true ->
                                          id (snd entry) = idA) importsB)
        (Hback : analyzeImports cwd fs parse idA filter = Normal importsA) :
  allLeaves importsA
  /\ allLeaves importsB
  /\ analyzeDependencies cwd fs parse (S (S depth)) rootPath filter
     = Normal (if existsb (fun i => String.eqb (id i) rootPath) (JsObject.values importsB)
               then importsA
               else map (attach importsB) importsA).
Proof.
  split; [exact (analyzeImports_allLeaves _ _ _ _ _ _ Hroot)|].
  split; [exact (analyzeImports_allLeaves _ _ _ _ _ _ HB)|].
  assert (Hsecond : forall parentIds,
             deepCollect cwd fs parse filter (S depth) importsB (parentIds ++ [idB])%list
             = (importsB, Normal tt)).
  { intros parentIds. apply deepCollect_all_stopped.
    apply Forall_impl with (2 := HimportsA). intros [key dep] Hid Hexp. cbn [snd] in *.
    rewrite (Hid Hexp). exists importsA. split; [exact Hback|].
    apply Exists_exists in HoneB. destruct HoneB as [[keyB nodeB] [Hin HexpB]].
    rewrite Forall_forall in HimportsB. specialize (HimportsB _ Hin HexpB).
    cbn [snd] in *. apply existsb_exists. exists nodeB. split.
    - unfold JsObject.values. now apply (in_map snd) in Hin.
    - unfold JsString.array_includes. apply existsb_exists. exists idB.
      split; [apply in_or_app; right; now left|].
      rewrite HimportsB. apply String.eqb_refl. }
  assert (Hfirst :
            deepCollect cwd fs parse filter (S (S depth)) importsA [rootPath]
            = (if existsb (fun i => String.eqb (id i) rootPath) (JsObject.values importsB)
               then importsA
               else map (attach importsB) importsA, Normal tt)).
  { rewrite deepCollect_S. rewrite <- guard_on_root.
    destruct (existsb (fun i => JsString.array_includes [rootPath] (id i))
                      (JsObject.values importsB)) eqn:Hguard.
    - rewrite (forEachEntry_map _ (fun dep => dep)); [now rewrite map_entries_id|].
      rewrite Forall_forall in HimportsB |- *. intros [key dep] Hin. cbn [snd].
      fold (expandable dep). destruct (expandable dep) eqn:Hexp; [|reflexivity].
      pose proof (HimportsB _ Hin Hexp) as Hid. cbn [snd] in Hid.
      rewrite Hid, HB, Hguard. reflexivity.
    - rewrite (forEachEntry_map _ (fun dep => if expandable dep
                                              then set_dependencies dep importsB
                                              else dep)).
      + apply (f_equal (fun table => (table, Normal tt))).
        apply map_ext. intros [key dep]. unfold attach. cbn [fst snd].
        now destruct (expandable dep).
      + rewrite Forall_forall in HimportsB |- *. intros [key dep] Hin. cbn [snd].
        fold (expandable dep). destruct (expandable dep) eqn:Hexp; [|reflexivity].
        pose proof (HimportsB _ Hin Hexp) as Hid. cbn [snd] in Hid.
        rewrite Hid, HB, Hguard. cbn [negb]. now rewrite Hsecond. }
  unfold analyzeDependencies, analyzeDependencies_try.
  rewrite Hroot, Hfirst. reflexivity.
Qed.

(** Both outcomes on the two-file disk, each file with a further import:
    from [/q/a.ts], [b] is expanded and [a] under it is a leaf; from
    [/q/a], [b] is the leaf. *)
Lemma C2_witness :
  analyzeDependencies workDir (Disk.fileSystem workDir cycleMoreDisk) cycleMoreParser
    2 "/q/a.ts" None
  = Normal [("React", {| id := "react"; source := "react"; importKind := Some value;
                         exportName := Some "default"; dependencies := None |});
            ("b", {| id := "/q/b"; source := "./b"; importKind := Some value;
                     exportName := Some "default";
                     dependencies :=
                       Some [("a", {| id := "/q/a"; source := "./a";
                                      importKind := Some value;
                                      exportName := Some "default";
                                      dependencies := None |});
                             ("data", {| id := "/q/data.json"; source := "./data.json";
                                         importKind := Some value;
                                         exportName := Some "default";
                                         dependencies := None |})] |})]
  /\ analyzeDependencies workDir (Disk.fileSystem workDir cycleMoreDisk) cycleMoreParser
       2 "/q/a" None
     = Normal [("React", {| id := "react"; source := "react"; importKind := Some value;
                            exportName := Some "default"; dependencies := None |});
               ("b", {| id := "/q/b"; source := "./b"; importKind := Some value;
                        exportName := Some "default"; dependencies := None |})].
Proof.
  pose (react := {| id := "react"; source := "react"; importKind := Some value;
                    exportName := Some "default"; dependencies := None |}).
  pose (nodeB := {| id := "/q/b"; source := "./b"; importKind := Some value;
                    exportName := Some "default"; dependencies := None |}).
  pose (nodeA := {| id := "/q/a"; source := "./a"; importKind := Some value;
                    exportName := Some "default"; dependencies := None |}).
  pose (data := {| id := "/q/data.json"; source := "./data.json"; importKind := Some value;
                   exportName := Some "default"; dependencies := None |}).
  assert (HimportsB : Forall (fun entry => expandable (snd entry) = true ->
                                           id (snd entry) = "/q/b")
                             [("React", react); ("b", nodeB)]).
  { repeat constructor; cbn; discriminate. }
  assert (HoneB : Exists (fun entry => expandable (snd entry) = true)
                         [("React", react); ("b", nodeB)]).
  { right. left. reflexivity. }
  assert (HimportsA : Forall (fun entry => expandable (snd entry) = true ->
                                           id (snd entry) = "/q/a")
                             [("a", nodeA); ("data", data)]).
  { repeat constructor; cbn; discriminate. }
  split.
  - destruct (C2_mutual_cycle_returns workDir (Disk.fileSystem workDir cycleMoreDisk)
                cycleMoreParser None "/q/a.ts" "/q/b" "/q/a"
                [("React", react); ("b", nodeB)] [("a", nodeA); ("data", data)] 0
                eq_refl HimportsB HoneB eq_refl HimportsA eq_refl)
      as [_ [_ Hgraph]].
    rewrite Hgraph. reflexivity.
  - destruct (C2_mutual_cycle_returns workDir (Disk.fileSystem workDir cycleMoreDisk)
                cycleMoreParser None "/q/a" "/q/b" "/q/a"
                [("React", react); ("b", nodeB)] [("a", nodeA); ("data", data)] 0
                eq_refl HimportsB HoneB eq_refl HimportsA eq_refl)
      as [_ [_ Hgraph]].
    rewrite Hgraph. reflexivity.
Defined.

(** ** Choosing the file to parse: [transformToAST] *)

Lemma drop_append (a b : string) : JsString.drop (String.length a) (a ++ b) = b.
Proof.
  induction a as [|c a IH]; simpl; [now destruct b|exact IH].
Qed.

Lemma slice_append (a b : string) :
  JsString.slice (a ++ b) (Z.of_nat (String.length a)) = b.
Proof.
  unfold JsString.slice. rewrite length_append.
  destruct (Z.ltb_spec (Z.of_nat (String.length a)) 0) as [Hneg|_]; [lia|].
  rewrite Z.min_l by lia. rewrite Nat2Z.id. apply drop_append.
Qed.

(** Whether a text occurs does not depend on where the count starts. *)
Lemma indexOf_from_sign (s p : string) (i : Z) :
  (0 <= i)%Z ->
  (0 <=? JsString.indexOf_from i s p)%Z = (0 <=? JsString.indexOf_from 0 s p)%Z.
Proof.
  revert i. induction s as [|c s IH]; intros i Hi; cbn [JsString.indexOf_from].
  - destruct (String.prefix p ""); [|reflexivity].
    symmetry. destruct (Z.leb_spec 0 i); [reflexivity|lia].
  - destruct (String.prefix p (String c s)).
    + symmetry. destruct (Z.leb_spec 0 i); [reflexivity|lia].
    + rewrite (IH (i + 1)%Z) by lia. now rewrite (IH (0 + 1)%Z) by lia.
Qed.

Lemma includes_char_cons (c d : ascii) (s : string) :
  JsString.includes (String d s) (String c "") = false ->
  Ascii.eqb c d = false /\ JsString.includes s (String c "") = false.
Proof.
  unfold JsString.includes, JsString.indexOf. cbn [JsString.indexOf_from].
  rewrite prefix_char. destruct (Ascii.eqb c d); [discriminate|].
  rewrite (indexOf_from_sign s (String c "") (0 + 1)) by lia. auto.
Qed.

(** Past the last occurrence of a character nothing changes the answer of
    [lastIndexOf]. *)
Lemma lastIndexOf_from_absent (c : ascii) (s : string) (i acc : Z) :
  JsString.includes s (String c "") = false ->
  JsString.lastIndexOf_from i acc s (String c "") = acc.
Proof.
  revert i acc. induction s as [|d s IH]; intros i acc Hno; [reflexivity|].
  apply includes_char_cons in Hno. destruct Hno as [Hcd Hno].
  cbn [JsString.lastIndexOf_from]. rewrite prefix_char, Hcd. now apply IH.
Qed.

Lemma lastIndexOf_from_last (c : ascii) (a b : string) (i acc : Z) :
  JsString.includes b (String c "") = false ->
  JsString.lastIndexOf_from i acc (a ++ String c b) (String c "")
  = (i + Z.of_nat (String.length a))%Z.
Proof.
  intros Hno. revert i acc. induction a as [|d a IH]; intros i acc.
  - cbn [append JsString.lastIndexOf_from]. rewrite prefix_char, Ascii.eqb_refl.
    rewrite lastIndexOf_from_absent by assumption. simpl. lia.
  - cbn [append JsString.lastIndexOf_from]. rewrite IH.
    cbn [String.length]. lia.
Qed.

Lemma lastIndexOf_last (c : ascii) (a b : string) :
  JsString.includes b (String c "") = false ->
  JsString.lastIndexOf (a ++ String c b) (String c "") = Z.of_nat (String.length a).
Proof.
  intros Hno. unfold JsString.lastIndexOf. now rewrite lastIndexOf_from_last.
Qed.

(** For a path with a slash the code does find the name and its suffix:
    with [filePath = dir/stem.ext], an existing non-directory file whose
    suffix [.ext] is not a supported one is neither read nor parsed:
    [realPath] stays empty and the function returns before its [try]. *)
Lemma unsupported_suffix_not_read
      (cwd : string) (fs : FileSystem) (parse : string -> completion AST)
      (filter : option (string -> completion bool))
      (dir stem ext : string) :
  let filePath := dir ++ "/" ++ stem ++ "." ++ ext in
  isDirectory fs filePath = false ->
  JsString.includes (stem ++ "." ++ ext) "/" = false ->
  JsString.includes ext "." = false ->
  JsString.array_includes extensions ("." ++ ext) = false ->
  chooseRealPath cwd fs filePath = Normal ""
  /\ transformToAST cwd fs parse filePath = Normal None
  /\ analyzeImports cwd fs parse filePath filter = Normal [].
Proof.
  intros filePath Hfile Hname Hext Hunsupported.
  assert (HfileName :
            JsString.replace (JsString.slice filePath (JsString.lastIndexOf filePath "/")) "/" ""
            = stem ++ "." ++ ext).
  { unfold filePath.
    change (dir ++ "/" ++ stem ++ "." ++ ext)
      with (dir ++ String "/" (stem ++ "." ++ ext)).
    rewrite (lastIndexOf_last "/" dir (stem ++ "." ++ ext) Hname), slice_append.
    rewrite (replace_prefix (String "/" (stem ++ "." ++ ext)) "/" "")
      by (unfold JsString.startsWith; now rewrite prefix_char).
    reflexivity. }
  assert (Hdot : JsString.lastIndexOf (stem ++ "." ++ ext) "."
                 = Z.of_nat (String.length stem)).
  { exact (lastIndexOf_last "." stem ext Hext). }
  assert (Hsuffix : JsString.slice (stem ++ "." ++ ext) (Z.of_nat (String.length stem))
                    = "." ++ ext).
  { apply slice_append. }
  assert (Hchoose : chooseRealPath cwd fs filePath = Normal "").
  { unfold chooseRealPath. rewrite Hfile. cbv zeta.
    rewrite HfileName, Hdot, Hsuffix.
    destruct (Z.ltb_spec (-1) (Z.of_nat (String.length stem))) as [_|Hneg]; [|lia].
    rewrite Hunsupported. reflexivity. }
  split; [exact Hchoose|].
  assert (Hast : transformToAST cwd fs parse filePath = Normal None).
  { unfold transformToAST. now rewrite Hchoose. }
  split; [exact Hast|].
  unfold analyzeImports. now rewrite Hast.
Qed.

Example json_passed_directly :
  forall parse filter,
    analyzeImports workDir (Disk.fileSystem workDir buttonDisk) parse
      "/proj/package.json" filter
    = Normal [].
Proof.
  intros parse filter.
  apply (unsupported_suffix_not_read workDir (Disk.fileSystem workDir buttonDisk)
           parse filter "/proj" "package" "json"); reflexivity.
Qed.

(** C9. The name of the file is taken as [filePath.slice(lastIndexOf('/'))]:
    for a path without any slash the index is [-1] and the slice is the
    last character alone, so the suffix computed for [notes.txt] is empty
    and the file is probed, read and parsed: an existing [.txt] file given
    by its bare name yields the imports its text declares.  The same file
    given as [/work/notes.txt] or [./notes.txt] yields the empty table. *)
Theorem C9_bare_file_name_is_read :
  isDirectory (Disk.fileSystem workDir notesDisk) "notes.txt" = false
  /\ existsSync (Disk.fileSystem workDir notesDisk) "notes.txt" = true
  /\ JsString.slice "notes.txt" (JsString.lastIndexOf "notes.txt" "/") = "t"
  /\ chooseRealPath workDir (Disk.fileSystem workDir notesDisk) "notes.txt"
     = Normal "notes.txt"
  /\ analyzeImports workDir (Disk.fileSystem workDir notesDisk) notesParser "notes.txt" None
     = Normal [("x", {| id := "/work/y"; source := "./y"; importKind := Some value;
                        exportName := Some "default"; dependencies := None |})]
  /\ analyzeImports workDir (Disk.fileSystem workDir notesDisk) notesParser
       "/work/notes.txt" None
     = Normal []
  /\ analyzeImports workDir (Disk.fileSystem workDir notesDisk) notesParser
       "./notes.txt" None
     = Normal [].
Proof. repeat split. Qed.

(** * Further properties of src/file.ts *)

(** ** What the two probing helpers return *)

Lemma candidatePath_nonempty base ext : base <> "" -> candidatePath base ext <> "".
Proof.
  intros Hbase. unfold candidatePath.
  destruct (JsString.includes base ext); [assumption|].
  destruct base; [contradiction|discriminate].
Qed.

Lemma exist_loop_Normal_inv fs base exts p :
  existFileWithExtensions_loop fs base exts = Normal p ->
  (p = "" /\ Forall (accessMissing fs base) exts)
  \/ exists pre ext post,
      exts = (pre ++ ext :: post)%list
      /\ Forall (accessMissing fs base) pre
      /\ access fs (candidatePath base ext) = Normal tt
      /\ p = candidatePath base ext.
Proof.
  induction exts as [|ext exts IH]; cbn [existFileWithExtensions_loop].
  - intros [= <-]. left. split; [reflexivity|constructor].
  - destruct (access fs (candidatePath base ext)) as [[]|e] eqn:Hacc.
    + intros [= <-]. right. exists [], ext, exts. repeat split; [constructor|assumption].
    + destruct (code_is_not_ENOENT e) eqn:He; [discriminate|].
      intros Hrest. assert (Hmiss : accessMissing fs base ext) by (exists e; auto).
      destruct (IH Hrest) as [[-> Hall]|[pre [x [post [-> [Hpre [Hx ->]]]]]]].
      * left. split; [reflexivity|now constructor].
      * right. exists (ext :: pre), x, post. repeat split; [now constructor|assumption].
Qed.

(** X1. A non-empty answer of the soft probe is the first candidate, in the
    order of the list, that [fs.access] accepts: every candidate before it
    is missing with [ENOENT], and the path returned is that candidate. *)
Theorem existFileWithExtensions_returns_first_accessible
        (fs : FileSystem) (base : string) (extensions : option (list string)) (p : string)
        (Hfound : existFileWithExtensions fs base extensions = Normal p)
        (Hnonempty : p <> "") :
  exists pre ext post,
    match extensions with Some exts => exts | None => defaultExtensions end
    = (pre ++ ext :: post)%list
    /\ Forall (accessMissing fs base) pre
    /\ p = candidatePath base ext
    /\ access fs p = Normal tt.
Proof.
  unfold existFileWithExtensions in Hfound.
  destruct (exist_loop_Normal_inv _ _ _ _ Hfound)
    as [[-> _]|[pre [ext [post [Hsplit [Hpre [Hacc ->]]]]]]]; [contradiction|].
  exists pre, ext, post. auto.
Qed.

Lemma existFileWithExtensions_returns_first_accessible_witness :
  exists pre post,
    defaultExtensions = (pre ++ ".tsx" :: post)%list
    /\ Forall (accessMissing (Disk.fileSystem workDir buttonDisk)
                 "/proj/src/components/Button/index") pre.
Proof.
  destruct (existFileWithExtensions_returns_first_accessible
              (Disk.fileSystem workDir buttonDisk)
              "/proj/src/components/Button/index" None
              "/proj/src/components/Button/index.tsx" eq_refl ltac:(discriminate))
    as [pre [ext [post [Hsplit [Hpre [Hp _]]]]]].
  exists pre, post. split; [|exact Hpre].
  unfold defaultExtensions in *.
  destruct pre as [|e1 [|e2 [|e3 [|e4 [|e5 [|e6 pre]]]]]];
    cbn [app] in Hsplit; injection Hsplit as <-; intros; subst;
      try discriminate; try reflexivity.
  destruct pre; discriminate.
Defined.

(** X2. For a non-empty base path, the empty string is returned exactly when
    every candidate is missing: the soft "not found" never hides a
    candidate that exists, and never stands for an error. *)
Theorem existFileWithExtensions_empty_iff_all_missing
        (fs : FileSystem) (base : string) (extensions : option (list string))
        (Hbase : base <> "") :
  existFileWithExtensions fs base extensions = Normal ""
  <-> Forall (accessMissing fs base)
        (match extensions with Some exts => exts | None => defaultExtensions end).
Proof.
  unfold existFileWithExtensions. split.
  - intros Hres.
    destruct (exist_loop_Normal_inv _ _ _ _ Hres)
      as [[_ Hall]|[pre [ext [post [_ [_ [_ Hp]]]]]]]; [assumption|].
    exfalso. symmetry in Hp. revert Hp. now apply candidatePath_nonempty.
  - apply exist_loop_not_found.
Qed.

Lemma existFileWithExtensions_empty_iff_all_missing_witness :
  Forall (accessMissing (Disk.fileSystem workDir buttonDisk) "/proj/src/missing")
         defaultExtensions.
Proof.
  apply (proj1 (existFileWithExtensions_empty_iff_all_missing
                  (Disk.fileSystem workDir buttonDisk) "/proj/src/missing" None
                  ltac:(discriminate))).
  reflexivity.
Defined.

Lemma read_loop_inv fs base exts :
  (Forall (readMissing fs base) exts
   /\ readFileWithExtensions_loop fs base exts
      = Throw (Error ("No file found with the given extensions.(" ++ base ++ ")")))
  \/ exists pre ext post,
      exts = (pre ++ ext :: post)%list
      /\ Forall (readMissing fs base) pre
      /\ readFileWithExtensions_loop fs base exts = readFileSync fs (candidatePath base ext)
      /\ (forall e, readFileSync fs (candidatePath base ext) = Throw e ->
                    code_is_not_ENOENT e = true).
Proof.
  induction exts as [|ext exts IH]; cbn [readFileWithExtensions_loop].
  - left. split; [constructor|reflexivity].
  - destruct (readFileSync fs (candidatePath base ext)) as [content|e] eqn:Hrd.
    + right. exists [], ext, exts. rewrite Hrd.
      repeat split; [constructor|discriminate].
    + destruct (code_is_not_ENOENT e) eqn:He.
      * right. exists [], ext, exts. rewrite Hrd.
        repeat split; [constructor|]. now intros e' [= <-].
      * assert (Hmiss : readMissing fs base ext) by (exists e; auto).
        destruct IH as [[Hall Hthrow]|[pre [x [post [-> [Hpre [Hres Hcode]]]]]]].
        -- left. split; [now constructor|assumption].
        -- right. exists (ext :: pre), x, post. repeat split; [now constructor|assumption..].
Qed.

(** X3. The strict reader has three outcomes and no other: the contents of the
    first candidate that can be read (those before it missing); the error
    of the first candidate that fails otherwise than by [ENOENT]; or, every
    candidate missing, the not-found error that names the base path. *)
Theorem readFileWithExtensions_outcome
        (fs : FileSystem) (base : string) (extensions : option (list string)) :
  let exts := match extensions with Some exts => exts | None => defaultExtensions end in
  (Forall (readMissing fs base) exts
   /\ readFileWithExtensions fs base extensions
      = Throw (Error ("No file found with the given extensions.(" ++ base ++ ")")))
  \/ exists pre ext post,
      exts = (pre ++ ext :: post)%list
      /\ Forall (readMissing fs base) pre
      /\ readFileWithExtensions fs base extensions = readFileSync fs (candidatePath base ext)
      /\ (forall e, readFileSync fs (candidatePath base ext) = Throw e ->
                    code_is_not_ENOENT e = true).
Proof.
  intros exts. unfold readFileWithExtensions. apply read_loop_inv.
Qed.

(** ** [readRelativeImportFile] *)

(** X4. A specifier that is not relative is refused before the disk is
    touched; a relative one is looked for next to the importing file, under
    the suffixes [.js], [.jsx], [.ts], [.tsx], [.json] in that order: the
    first readable candidate gives the contents, and when all five are
    missing the error names the resolved base path. *)
Theorem readRelativeImportFile_outcome
        (cwd : string) (fs : FileSystem) (sourceFilePath importPath : string) :
  let base := resolve cwd [NodePath.dirname sourceFilePath; importPath] in
  let exts := [".js"; ".jsx"; ".ts"; ".tsx"; ".json"] in
  (isRelative importPath = false ->
   readRelativeImportFile cwd fs sourceFilePath importPath
   = Throw (Error "Import path is not a relative path."))
  /\ (isRelative importPath = true ->
      Forall (readMissing fs base) exts ->
      readRelativeImportFile cwd fs sourceFilePath importPath
      = Throw (Error ("No file found with the given extensions.(" ++ base ++ ")")))
  /\ (forall pre ext post content,
         isRelative importPath = true ->
         exts = (pre ++ ext :: post)%list ->
         Forall (readMissing fs base) pre ->
         readFileSync fs (candidatePath base ext) = Normal content ->
         readRelativeImportFile cwd fs sourceFilePath importPath = Normal content).
Proof.
  intros base exts. unfold readRelativeImportFile, readFileWithExtensions.
  split; [|split].
  - now intros ->.
  - intros -> Hall. cbn [negb]. now apply read_loop_not_found.
  - intros pre ext post content -> Hsplit Hpre Hrd. cbn [negb].
    fold base. fold exts. rewrite Hsplit. now apply read_loop_first_match.
Qed.

Lemma readRelativeImportFile_outcome_witness :
  readRelativeImportFile workDir (Disk.fileSystem workDir cycleDisk) "/p/a.ts" "./b"
  = Normal "import a from './a'"
  /\ readRelativeImportFile workDir (Disk.fileSystem workDir cycleDisk) "/p/a.ts" "./c"
     = Throw (Error "No file found with the given extensions.(/p/c)")
  /\ readRelativeImportFile workDir (Disk.fileSystem workDir cycleDisk) "/p/a.ts" "lodash"
     = Throw (Error "Import path is not a relative path.").
Proof.
  pose proof (readRelativeImportFile_outcome workDir (Disk.fileSystem workDir cycleDisk)
                "/p/a.ts" "./b") as [_ [_ Hread]].
  pose proof (readRelativeImportFile_outcome workDir (Disk.fileSystem workDir cycleDisk)
                "/p/a.ts" "./c") as [_ [Hmissing _]].
  pose proof (readRelativeImportFile_outcome workDir (Disk.fileSystem workDir cycleDisk)
                "/p/a.ts" "lodash") as [Hbare _].
  split; [|split].
  - apply (Hread [".js"; ".jsx"] ".ts" [".tsx"; ".json"]); try reflexivity.
    repeat constructor; eexists; split; reflexivity.
  - apply Hmissing; [reflexivity|].
    repeat constructor; eexists; split; reflexivity.
  - now apply Hbare.
Defined.

Lemma readFileWithExtensions_outcome_witness :
  readFileWithExtensions (Disk.fileSystem workDir lockedDisk) "/proj/src/vault/index" None
  = Throw (SystemError "EACCES").
Proof.
  destruct (readFileWithExtensions_outcome (Disk.fileSystem workDir lockedDisk)
              "/proj/src/vault/index" None)
    as [[Hall _]|[pre [ext [post [Hsplit [Hpre [Hres _]]]]]]].
  - exfalso. inversion Hall as [|? ? [e [Hrd He]] _]; subst.
    vm_compute in Hrd. injection Hrd as <-. discriminate.
  - destruct pre as [|x pre].
    + cbn [app] in Hsplit. injection Hsplit as <- _. rewrite Hres. reflexivity.
    + exfalso. cbn [app] in Hsplit. injection Hsplit as <- _.
      inversion Hpre as [|? ? [e [Hrd He]] _]; subst.
      vm_compute in Hrd. injection Hrd as <-. discriminate.
Defined.

(** ** [readAllFileNames] *)

Lemma collectFileNames_Normal reader folderPath files acc :
  Forall (statable reader folderPath) files ->
  collectFileNames reader folderPath files acc
  = Normal (acc ++ filter (isFileEntry reader folderPath) files)%list.
Proof.
  intros Hall. revert acc.
  induction Hall as [|file files [b Hstat] _ IH]; intros acc; cbn [collectFileNames filter].
  - now rewrite app_nil_r.
  - unfold isFileEntry at 1. rewrite Hstat. cbn [bind]. rewrite IH.
    destruct b; [now rewrite <- app_assoc|reflexivity].
Qed.

Lemma collectFileNames_Throw reader folderPath pre file post acc e :
  Forall (statable reader folderPath) pre ->
  stat_isFile reader (path_join [folderPath; file]) = Throw e ->
  collectFileNames reader folderPath (pre ++ file :: post)%list acc = Throw e.
Proof.
  intros Hpre Hstat. revert acc.
  induction Hpre as [|x pre [b Hx] _ IH]; intros acc; cbn [app collectFileNames].
  - now rewrite Hstat.
  - rewrite Hx. cbn [bind]. apply IH.
Qed.

Lemma statable_dec reader folderPath files :
  Forall (statable reader folderPath) files
  \/ exists pre file post e,
      files = (pre ++ file :: post)%list
      /\ Forall (statable reader folderPath) pre
      /\ stat_isFile reader (path_join [folderPath; file]) = Throw e.
Proof.
  induction files as [|file files IH]; [left; constructor|].
  destruct (stat_isFile reader (path_join [folderPath; file])) as [b|e] eqn:Hstat.
  - assert (Hfile : statable reader folderPath file) by now exists b.
    destruct IH as [Hall|[pre [x [post [e [-> [Hpre Hx]]]]]]].
    + left. now constructor.
    + right. exists (file :: pre), x, post, e. repeat split; [now constructor|assumption].
  - right. exists [], file, files, e. repeat split; [constructor|assumption].
Qed.

Lemma readAllFileNames_Normal_iff reader folderPath names :
  readAllFileNames reader folderPath = Normal names
  <-> exists files,
      readdir reader folderPath = Normal files
      /\ Forall (statable reader folderPath) files
      /\ names = filter (isFileEntry reader folderPath) files.
Proof.
  unfold readAllFileNames. split.
  - destruct (readdir reader folderPath) as [files|e] eqn:Hls; cbn [bind try_catch];
      [|discriminate].
    destruct (statable_dec reader folderPath files)
      as [Hall|[pre [file [post [e [-> [Hpre Hstat]]]]]]].
    + rewrite (collectFileNames_Normal _ _ _ [] Hall). cbn [app try_catch].
      intros [= <-]. now exists files.
    + rewrite (collectFileNames_Throw _ _ _ _ post [] _ Hpre Hstat). discriminate.
  - intros [files [Hls [Hall ->]]]. rewrite Hls. cbn [bind].
    now rewrite (collectFileNames_Normal _ _ _ [] Hall).
Qed.

(** X5. [readAllFileNames] returns exactly when the folder can be listed and
    every entry can be examined; the array returned is then the listing
    restricted to the entries that are regular files, in listing order. *)
Theorem readAllFileNames_returns_the_files
        (reader : DirectoryReader) (folderPath : string) (names : list string) :
  readAllFileNames reader folderPath = Normal names
  <-> exists files,
      readdir reader folderPath = Normal files
      /\ Forall (statable reader folderPath) files
      /\ names = filter (isFileEntry reader folderPath) files.
Proof.
  apply readAllFileNames_Normal_iff.
Qed.

Lemma readAllFileNames_returns_the_files_witness :
  readAllFileNames (diskReader workDir indexDisk) "/ui"
  = Normal ["index.ts"; "index.css"; "reindex.tsx"; "README.md"].
Proof.
  apply (proj2 (readAllFileNames_returns_the_files (diskReader workDir indexDisk) "/ui" _)).
  exists ["index.ts"; "index.css"; "reindex.tsx"; "index.d"; "README.md"].
  split; [reflexivity|]. split; [|reflexivity].
  repeat constructor; eexists; reflexivity.
Defined.

(** X6. Whatever goes wrong, the listing of the folder or the examination of
    any one entry, the caller receives the one error
    "Failed to read folder: <folderPath>": the cause is dropped, and no
    part of the list is returned. *)
Theorem readAllFileNames_fails_as_a_whole
        (reader : DirectoryReader) (folderPath : string) :
  (forall e,
      readAllFileNames reader folderPath = Throw e ->
      e = Error ("Failed to read folder: " ++ folderPath))
  /\ (forall e,
         readdir reader folderPath = Throw e ->
         readAllFileNames reader folderPath
         = Throw (Error ("Failed to read folder: " ++ folderPath)))
  /\ (forall files file e,
         readdir reader folderPath = Normal files ->
         In file files ->
         stat_isFile reader (path_join [folderPath; file]) = Throw e ->
         readAllFileNames reader folderPath
         = Throw (Error ("Failed to read folder: " ++ folderPath))).
Proof.
  assert (Hshape : forall e, readAllFileNames reader folderPath = Throw e ->
                             e = Error ("Failed to read folder: " ++ folderPath)).
  { intros e. unfold readAllFileNames.
    destruct (files <- readdir reader folderPath;;
              collectFileNames reader folderPath files []); cbn [try_catch];
      [discriminate|now intros [= <-]]. }
  split; [exact Hshape|split].
  - intros e Hls. unfold readAllFileNames. now rewrite Hls.
  - intros files file e Hls Hin Hstat.
    destruct (readAllFileNames reader folderPath) as [names|e'] eqn:Hres.
    + exfalso. apply readAllFileNames_Normal_iff in Hres.
      destruct Hres as [files' [Hls' [Hall _]]].
      rewrite Hls in Hls'. injection Hls' as <-.
      rewrite Forall_forall in Hall. destruct (Hall file Hin) as [b Hb]. congruence.
    + now rewrite (Hshape e' eq_refl).
Qed.

Lemma readAllFileNames_fails_as_a_whole_witness :
  readAllFileNames (diskReader workDir lockedDisk) "/proj/src/vault"
  = Throw (Error "Failed to read folder: /proj/src/vault")
  /\ readAllFileNames (diskReader workDir lockedDisk) "/proj/locked"
     = Throw (Error "Failed to read folder: /proj/locked").
Proof.
  split.
  - apply (proj2 (proj2 (readAllFileNames_fails_as_a_whole
                           (diskReader workDir lockedDisk) "/proj/src/vault"))
             ["index.js"] "index.js" (SystemError "EACCES"));
      [reflexivity|now left|reflexivity].
  - apply (proj1 (proj2 (readAllFileNames_fails_as_a_whole
                           (diskReader workDir lockedDisk) "/proj/locked"))
             (SystemError "EACCES")).
    reflexivity.
Defined.

(** ** [isRelative] *)

(** X7. A specifier counts as relative exactly when its first character is a
    dot: the test for [..] adds nothing, and names such as [.env] or
    [.prisma/client] are relative for every function that asks. *)
Theorem isRelative_iff_leading_dot (p : string) :
  isRelative p = true <-> exists rest, p = String "." rest.
Proof.
  unfold isRelative, JsString.startsWith. split.
  - destruct p as [|c rest].
    + cbn. discriminate.
    + rewrite prefix_char. intros Hor.
      destruct (Ascii.eqb_spec "." c) as [<-|Hne]; [now exists rest|].
      exfalso. cbn [orb] in Hor.
      change ".." with (String "." ".") in Hor. cbn [String.prefix] in Hor.
      destruct (ascii_dec "." c); [contradiction|discriminate].
  - intros [rest ->]. rewrite prefix_char. reflexivity.
Qed.

Lemma isRelative_iff_leading_dot_witness :
  isRelative ".prisma/client" = true /\ exists rest, "./a" = String "." rest.
Proof.
  split.
  - apply (proj2 (isRelative_iff_leading_dot ".prisma/client")). now eexists.
  - apply (proj1 (isRelative_iff_leading_dot "./a")). reflexivity.
Defined.

(** ** [getAppRootDir]: what an answer means, and what no manifest costs *)

(** X8. Whatever [getAppRootDir] returns is reached from the start path by
    one or more steps of [path.resolve(p, '..')]; its listing shows
    [package.json], and every directory passed on the way was listed and
    showed none: the answer never skips a nearer manifest.  (The step
    above [/] is [/] again, so an answer [/] can be the start path
    itself.) *)
Theorem getAppRootDir_answer_is_nearest
        (cwd : string) (fs : FileSystem) (depth : nat) (startPath dir : string)
        (Hanswer : getAppRootDir cwd fs depth startPath = Normal dir) :
  exists n,
    n < depth
    /\ dir = ancestorDir cwd (S n) startPath
    /\ listsManifest fs dir
    /\ forall k, k < n -> listsNoManifest fs (ancestorDir cwd (S k) startPath).
Proof.
  revert startPath Hanswer. induction depth as [|depth IH]; intros startPath Hanswer;
    [discriminate|].
  cbn [getAppRootDir] in Hanswer.
  destruct (readdirSync fs (resolve cwd [startPath; ".."])) as [files|e] eqn:Hls;
    cbn [bind] in Hanswer; [|discriminate].
  destruct (existsb (fun file => String.eqb file "package.json") files) eqn:Hex.
  - injection Hanswer as <-. exists 0. repeat split; [lia| |intros k Hk; lia].
    exists files. split; [assumption|now apply manifest_listed].
  - destruct (IH _ Hanswer) as [n [Hn [Hdir [Hfound Hbelow]]]].
    rewrite ancestorDir_shift in Hdir.
    exists (S n). repeat split; [lia|assumption|assumption|].
    intros [|k] Hk.
    + exists files. split; [assumption|].
      intros Hin. apply manifest_listed in Hin. congruence.
    + rewrite <- ancestorDir_shift. apply Hbelow. lia.
Qed.

Lemma getAppRootDir_answer_is_nearest_witness :
  exists n,
    n < 5
    /\ "/proj" = ancestorDir workDir (S n) "/proj/src/components/Button/index.tsx"
    /\ listsManifest (Disk.fileSystem workDir buttonDisk) "/proj".
Proof.
  destruct (getAppRootDir_answer_is_nearest workDir (Disk.fileSystem workDir buttonDisk) 5
              "/proj/src/components/Button/index.tsx" "/proj" eq_refl)
    as [n [Hn [Hdir [Hfound _]]]].
  exists n. auto.
Defined.

(** At the root the directory above is the root itself: started at [/],
    the walk lists [/] and answers [/]. *)
Example getAppRootDir_at_the_root :
  getAppRootDir workDir (Disk.fileSystem workDir [("/", Disk.Directory ["package.json"])])
    1 "/"
  = Normal "/".
Proof. reflexivity. Qed.

(** X9. A failure of [getAppRootDir] is either the error of the first listing
    that throws on the way up, or the exhaustion of the stack after
    [depth] directories were listed without a manifest. *)
Theorem getAppRootDir_failure_cause
        (cwd : string) (fs : FileSystem) (depth : nat) (startPath : string) (e : JsError)
        (Hfails : getAppRootDir cwd fs depth startPath = Throw e) :
  (e = RangeError
   /\ forall k, k < depth -> listsNoManifest fs (ancestorDir cwd (S k) startPath))
  \/ exists n,
      n < depth
      /\ readdirSync fs (ancestorDir cwd (S n) startPath) = Throw e
      /\ forall k, k < n -> listsNoManifest fs (ancestorDir cwd (S k) startPath).
Proof.
  revert startPath Hfails. induction depth as [|depth IH]; intros startPath Hfails.
  - injection Hfails as <-. left. split; [reflexivity|intros k Hk; lia].
  - cbn [getAppRootDir] in Hfails.
    destruct (readdirSync fs (resolve cwd [startPath; ".."])) as [files|e'] eqn:Hls;
      cbn [bind] in Hfails.
    + destruct (existsb (fun file => String.eqb file "package.json") files) eqn:Hex;
        [discriminate|].
      assert (Hfirst : listsNoManifest fs (ancestorDir cwd 1 startPath)).
      { exists files. split; [assumption|].
        intros Hin. apply manifest_listed in Hin. congruence. }
      destruct (IH _ Hfails) as [[-> Hall]|[n [Hn [Hthrow Hbelow]]]].
      * left. split; [reflexivity|].
        intros [|k] Hk; [assumption|].
        rewrite <- ancestorDir_shift. apply Hall. lia.
      * right. exists (S n). rewrite ancestorDir_shift in Hthrow.
        repeat split; [lia|assumption|].
        intros [|k] Hk; [assumption|].
        rewrite <- ancestorDir_shift. apply Hbelow. lia.
    + injection Hfails as <-. right. exists 0.
      repeat split; [lia|assumption|intros k Hk; lia].
Qed.

Lemma getAppRootDir_failure_cause_witness :
  exists n,
    readdirSync (Disk.fileSystem workDir lockedDisk)
      (ancestorDir workDir (S n) "/proj/locked/x.ts")
    = Throw (SystemError "EACCES").
Proof.
  destruct (getAppRootDir_failure_cause workDir (Disk.fileSystem workDir lockedDisk) 3
              "/proj/locked/x.ts" (SystemError "EACCES") eq_refl)
    as [[Habs _]|[n [_ [Hthrow _]]]]; [discriminate|].
  now exists n.
Defined.

Lemma ancestorDir_root cwd n : ancestorDir cwd n "/" = "/".
Proof.
  induction n as [|n IH]; [reflexivity|].
  cbn [ancestorDir]. rewrite IH. reflexivity.
Qed.

Lemma getAppRootDir_no_manifest cwd fs startPath :
  (forall n, listsNoManifest fs (ancestorDir cwd (S n) startPath)) ->
  forall depth, getAppRootDir cwd fs depth startPath = Throw RangeError.
Proof.
  intros Hnone depth. revert startPath Hnone.
  induction depth as [|depth IH]; intros startPath Hnone; [reflexivity|].
  destruct (Hnone 0) as [files [Hls Hnot]].
  rewrite (getAppRootDir_climbs _ _ _ _ _ Hls Hnot).
  apply IH. intros n. rewrite ancestorDir_shift. apply Hnone.
Qed.

(** X10. The directory above the root is the root again.  So once the walk is
    at [/] and [/] shows no manifest, no stack is deep enough: the call
    ends in the engine's RangeError, never in an answer. *)
Theorem getAppRootDir_loops_at_the_root
        (cwd : string) (fs : FileSystem) (files : list string) (depth : nat)
        (Hroot : readdirSync fs "/" = Normal files)
        (Hnone : ~ In "package.json" files) :
  resolve cwd ["/"; ".."] = "/"
  /\ getAppRootDir cwd fs depth "/" = Throw RangeError.
Proof.
  split; [reflexivity|].
  apply getAppRootDir_no_manifest.
  intros n. rewrite ancestorDir_root. now exists files.
Qed.

Lemma getAppRootDir_loops_at_the_root_witness :
  getAppRootDir workDir (Disk.fileSystem workDir bareRootDisk) 1000 "/" = Throw RangeError.
Proof.
  apply (proj2 (getAppRootDir_loops_at_the_root workDir
                  (Disk.fileSystem workDir bareRootDisk) ["etc"; "home"] 1000 eq_refl
                  ltac:(cbn; intuition discriminate))).
Defined.

(** ** [getRealImportFilePath]: the answer and the default alias *)

(** X11. A non-empty answer of [getRealImportFilePath] is a path that
    [fs.access] accepted: the probe base (with [index] added under a
    directory) either as it is or followed by one of the default suffixes. *)
Theorem getRealImportFilePath_answer_is_accessible
        (cwd : string) (fs : FileSystem) (rootDir fileDir importPath : string)
        (importAlias : option (JsObject.t string)) (p : string)
        (Hanswer : getRealImportFilePath cwd fs rootDir fileDir importPath importAlias
                   = Normal p)
        (Hnonempty : p <> "") :
  let realPath := specifierPath cwd rootDir fileDir importPath importAlias in
  let base := resolve cwd [if isDirectory fs realPath
                           then resolve cwd [realPath; "index"] else realPath] in
  access fs p = Normal tt
  /\ exists ext, In ext defaultExtensions /\ (p = base \/ p = base ++ ext).
Proof.
  intros realPath base. unfold getRealImportFilePath in Hanswer.
  fold realPath in Hanswer. fold base in Hanswer.
  unfold existFileWithExtensions in Hanswer.
  destruct (exist_loop_Normal_inv _ _ _ _ Hanswer)
    as [[-> _]|[pre [ext [post [Hsplit [_ [Hacc Hp]]]]]]]; [contradiction|].
  split; [now rewrite Hp|]. exists ext. split.
  - rewrite Hsplit. apply in_or_app. right. now left.
  - rewrite Hp. unfold candidatePath. destruct (JsString.includes base ext); auto.
Qed.

Lemma getRealImportFilePath_answer_is_accessible_witness :
  access (Disk.fileSystem workDir buttonDisk) "/proj/src/components/Button/index.tsx"
  = Normal tt.
Proof.
  apply (getRealImportFilePath_answer_is_accessible workDir
           (Disk.fileSystem workDir buttonDisk)
           "/proj" "/proj/src/pages/home.tsx" "components/Button" None
           "/proj/src/components/Button/index.tsx" eq_refl ltac:(discriminate)).
Defined.

Lemma startsWith_append (a b : string) : JsString.startsWith (a ++ b) a = true.
Proof.
  unfold JsString.startsWith. induction a as [|c a IH]; cbn [append String.prefix].
  - now destruct b.
  - destruct (ascii_dec c c); [exact IH|contradiction].
Qed.

(** X12. With no alias table from the caller, a specifier [@/rest] is looked
    for at [rootDir/src/rest], from whatever file it is imported (the
    routing rule leaves specifiers that start with [@] alone). *)
Theorem default_alias_points_into_src
        (cwd rootDir fileDir rest : string) :
  specifierPath cwd rootDir fileDir ("@/" ++ rest) None
  = resolve cwd [rootDir; "src/" ++ rest].
Proof.
  unfold specifierPath.
  replace (JsString.startsWith ("@/" ++ rest) "@") with true by reflexivity.
  rewrite andb_false_r.
  replace (isRelative ("@/" ++ rest)) with false by reflexivity.
  cbn [enableAlias JsObject.spread JsObject.entries fold_left aliasStep].
  rewrite startsWith_append.
  rewrite (replace_prefix ("@/" ++ rest) "@/" "src/" (startsWith_append "@/" rest)).
  now rewrite drop_append.
Qed.

(** ** Where the default alias sits in the merged table *)

Lemma keys_update {V : Type} (k : string) (v : V) (o : JsObject.t V) :
  JsObject.keys (JsObject.update k v o) = JsObject.keys o.
Proof.
  induction o as [|[k1 v1] o IH]; [reflexivity|].
  unfold JsObject.keys in *. cbn [JsObject.update].
  destruct (String.eqb k k1); cbn [map fst]; [reflexivity|now rewrite IH].
Qed.

Lemma get_present {V : Type} (k : string) (o : JsObject.t V) :
  In k (JsObject.keys o) -> JsObject.get k o <> None.
Proof.
  induction o as [|[k1 v1] o IH]; [contradiction|].
  cbn [JsObject.keys map fst JsObject.get]. intros [->|Hin].
  - rewrite String.eqb_refl. discriminate.
  - destruct (String.eqb k k1); [discriminate|now apply IH].
Qed.

Lemma get_Some_In {V : Type} (k : string) (v : V) (o : JsObject.t V) :
  JsObject.get k o = Some v -> In (k, v) o.
Proof.
  induction o as [|[k1 v1] o IH]; [discriminate|].
  cbn [JsObject.get]. destruct (String.eqb_spec k k1) as [->|_].
  - intros [= ->]. now left.
  - intros Hget. right. now apply IH.
Qed.

Lemma keys_insertIndex_shape {V : Type} (n : N) (k : string) (v : V) (o : JsObject.t V) :
  forall kidx krest,
    JsObject.keys o = (kidx ++ "@/" :: krest)%list ->
    Forall (fun key => JsObject.arrayIndex key <> None) kidx ->
    JsObject.arrayIndex k <> None ->
    exists kidx',
      JsObject.keys (JsObject.insertIndex n k v o) = (kidx' ++ "@/" :: krest)%list
      /\ Forall (fun key => JsObject.arrayIndex key <> None) kidx'.
Proof.
  unfold JsObject.keys.
  induction o as [|[k1 v1] o IH]; intros kidx krest Hkeys Hidx Hk.
  - destruct kidx; discriminate.
  - cbn [map fst] in Hkeys. cbn [JsObject.insertIndex].
    destruct kidx as [|k0 kidx]; cbn [app] in Hkeys; injection Hkeys as -> Hkeys.
    + replace (JsObject.arrayIndex "@/") with (@None N) by reflexivity.
      exists [k]. split; [|now constructor].
      cbn [map fst app]. now rewrite Hkeys.
    + inversion Hidx as [|? ? Hk0 Hidx']; subst.
      destruct (JsObject.arrayIndex k0) as [n0|] eqn:Hn0; [|contradiction].
      assert (Hk0' : JsObject.arrayIndex k0 <> None) by (rewrite Hn0; discriminate).
      destruct (n <? n0)%N.
      * exists (k :: k0 :: kidx). split; [|now constructor].
        cbn [map fst app]. now rewrite Hkeys.
      * destruct (IH kidx krest Hkeys Hidx' Hk) as [kidx' [Hkeys' Hidx'']].
        exists (k0 :: kidx'). split; [|now constructor].
        cbn [map fst app]. now rewrite Hkeys'.
Qed.

Lemma keys_set_shape {V : Type} (k : string) (v : V) (o : JsObject.t V) kidx krest :
  JsObject.keys o = (kidx ++ "@/" :: krest)%list ->
  Forall (fun key => JsObject.arrayIndex key <> None) kidx ->
  ~ In "@/" krest ->
  exists kidx' krest',
    JsObject.keys (JsObject.set k v o) = (kidx' ++ "@/" :: krest')%list
    /\ Forall (fun key => JsObject.arrayIndex key <> None) kidx'
    /\ ~ In "@/" krest'.
Proof.
  intros Hkeys Hidx Hrest. unfold JsObject.set.
  destruct (JsObject.has k o) eqn:Hhas.
  - exists kidx, krest. now rewrite keys_update.
  - destruct (JsObject.arrayIndex k) as [n|] eqn:Hk.
    + destruct (keys_insertIndex_shape n k v o kidx krest Hkeys Hidx) as [kidx' [H1 H2]];
        [congruence|].
      now exists kidx', krest.
    + exists kidx, (krest ++ [k])%list. repeat split; [|assumption|].
      * unfold JsObject.keys in *. rewrite map_app, Hkeys. cbn [map fst].
        now rewrite <- app_assoc.
      * intros Hin. apply in_app_or in Hin. destruct Hin as [Hin|[Heq|[]]]; [contradiction|].
        subst k.
        assert (Hpresent : In "@/" (JsObject.keys o)).
        { rewrite Hkeys. apply in_or_app. right. now left. }
        apply get_present in Hpresent. unfold JsObject.has in Hhas.
        destruct (JsObject.get "@/" o); [discriminate|contradiction].
Qed.

Lemma keys_spread_shape {V : Type} (source target : JsObject.t V) kidx krest :
  JsObject.keys target = (kidx ++ "@/" :: krest)%list ->
  Forall (fun key => JsObject.arrayIndex key <> None) kidx ->
  ~ In "@/" krest ->
  exists kidx' krest',
    JsObject.keys (JsObject.spread target source) = (kidx' ++ "@/" :: krest')%list
    /\ Forall (fun key => JsObject.arrayIndex key <> None) kidx'
    /\ ~ In "@/" krest'.
Proof.
  unfold JsObject.spread. revert target kidx krest.
  induction source as [|[k v] source IH]; intros target kidx krest Hkeys Hidx Hrest.
  - now exists kidx, krest.
  - cbn [fold_left fst snd].
    destruct (keys_set_shape k v target kidx krest Hkeys Hidx Hrest)
      as [kidx1 [krest1 [H1 [H2 H3]]]].
    exact (IH _ _ _ H1 H2 H3).
Qed.

Lemma spread_keeps_key {V : Type} (k : string) (source target : JsObject.t V) :
  JsObject.get k target <> None ->
  JsObject.get k (JsObject.spread target source) <> None.
Proof.
  unfold JsObject.spread. revert target.
  induction source as [|[k1 v1] source IH]; intros target Hget; [assumption|].
  cbn [fold_left fst snd]. apply IH. rewrite get_set.
  destruct (String.eqb k k1); [discriminate|assumption].
Qed.

Lemma spread_has_source_keys {V : Type} (k : string) (source target : JsObject.t V) :
  In k (JsObject.keys source) ->
  JsObject.get k (JsObject.spread target source) <> None.
Proof.
  revert target. induction source as [|[k1 v1] source IH]; intros target; [contradiction|].
  cbn [JsObject.keys map fst]. intros [->|Hin].
  - change (JsObject.spread target ((k, v1) :: source))
      with (JsObject.spread (JsObject.set k v1 target) source).
    apply spread_keeps_key. rewrite get_set, String.eqb_refl. discriminate.
  - change (JsObject.spread target ((k1, v1) :: source))
      with (JsObject.spread (JsObject.set k1 v1 target) source).
    now apply IH.
Qed.

Lemma find_rev_last {A : Type} (f : A -> bool) (l : list A) (x : A) :
  find f (rev l) = Some x ->
  exists l1 l2, l = (l1 ++ x :: l2)%list /\ f x = true /\ Forall (fun y => f y = false) l2.
Proof.
  induction l as [|y l IH] using rev_ind; [discriminate|].
  rewrite rev_unit. cbn [find]. destruct (f y) eqn:Hy.
  - intros [= <-]. exists l, []. repeat split; [assumption|constructor].
  - intros Hfind. destruct (IH Hfind) as [l1 [l2 [-> [Hx Hl2]]]].
    exists l1, (l2 ++ [y])%list. repeat split; [now rewrite <- app_assoc|assumption|].
    apply Forall_app. split; [assumption|now constructor].
Qed.

Lemma split_at_unique {A : Type} (a : A) (l1 l2 l1' l2' : list A) :
  (l1 ++ a :: l2 = l1' ++ a :: l2')%list ->
  ~ In a l1' -> ~ In a l2' ->
  l1 = l1' /\ l2 = l2'.
Proof.
  revert l1'. induction l1 as [|x l1 IH]; intros l1' Heq Hl1' Hl2'.
  - destruct l1' as [|y l1']; cbn [app] in Heq.
    + now injection Heq as <-.
    + injection Heq as <- _. exfalso. apply Hl1'. now left.
  - destruct l1' as [|y l1']; cbn [app] in Heq.
    + injection Heq as -> <-. exfalso. apply Hl2'. apply in_or_app. right. now left.
    + injection Heq as <- Heq.
      destruct (IH l1' Heq) as [-> ->]; [|assumption|auto].
      intros Hin. apply Hl1'. now right.
Qed.

Lemma index_key_never_starts_at_sign (k rest : string) :
  JsObject.arrayIndex k <> None ->
  JsString.startsWith (String "@" rest) k = false.
Proof.
  unfold JsString.startsWith. destruct k as [|c r]; [intros H; now contradiction H|].
  intros Hk. cbn [String.prefix].
  destruct (ascii_dec c "@") as [->|_]; [|reflexivity].
  exfalso. apply Hk. unfold JsObject.arrayIndex.
  replace (Ascii.eqb "@" "0") with false by reflexivity. reflexivity.
Qed.

(** X13. In the merged table the key [@/] keeps the place of the default entry,
    before every other key a specifier starting with [@/] can match:
    whatever the order of the caller's own table, also when it declares
    [@/] last, the entry [@/] decides the path only when no other alias of
    the caller matches the specifier. *)
Theorem default_alias_key_never_overrides
        (table : JsObject.t string) (importPath target : string)
        (Hlast : lastMatchingAlias importPath (JsObject.entries (enableAlias (Some table)))
                 = Some ("@/", target)) :
  forall alias,
    In alias (JsObject.keys table) -> alias <> "@/" ->
    JsString.startsWith importPath alias = false.
Proof.
  intros alias Hin Hne.
  unfold lastMatchingAlias, JsObject.entries in Hlast.
  destruct (find_rev_last _ _ _ Hlast) as [o1 [o2 [Hmerged [Hstarts Ho2]]]].
  cbn [fst] in Hstarts.
  destruct (keys_spread_shape table [("@/", "src/")] [] [] eq_refl
              (Forall_nil _) (fun H => H))
    as [kidx [krest [Hkeys [Hidx Hrest]]]].
  fold (enableAlias (Some table)) in Hkeys.
  assert (Hsplit : JsObject.keys o1 = kidx /\ JsObject.keys o2 = krest).
  { apply (split_at_unique "@/"); [| |assumption].
    - rewrite <- Hkeys, Hmerged. unfold JsObject.keys. now rewrite map_app.
    - intros Habs. rewrite Forall_forall in Hidx. now apply (Hidx _ Habs). }
  destruct Hsplit as [Hk1 Hk2].
  assert (Hpresent : JsObject.get alias (enableAlias (Some table)) <> None).
  { unfold enableAlias. now apply spread_has_source_keys. }
  destruct (JsObject.get alias (enableAlias (Some table))) as [t|] eqn:Hget;
    [|contradiction].
  apply get_Some_In in Hget. rewrite Hmerged in Hget.
  apply in_app_or in Hget. destruct Hget as [Hin1|[Heq|Hin2]].
  - assert (Hkey : JsObject.arrayIndex alias <> None).
    { rewrite Forall_forall in Hidx. apply Hidx. rewrite <- Hk1.
      unfold JsObject.keys. now apply (in_map fst) in Hin1. }
    unfold JsString.startsWith in Hstarts.
    destruct importPath as [|c rest]; [discriminate|].
    cbn [String.prefix] in Hstarts.
    destruct (ascii_dec "@" c) as [<-|_]; [|discriminate].
    now apply index_key_never_starts_at_sign.
  - injection Heq as Heq _. congruence.
  - rewrite Forall_forall in Ho2. exact (Ho2 _ Hin2).
Qed.

(** The caller declares [@/api/] first and [@/] last; [@/api/user] still
    goes to the target of [@/api/]. *)
Lemma default_alias_key_never_overrides_witness :
  specifierPath workDir "/proj" "/proj/src/pages/home.tsx" "@/api/user"
    (Some [("@/api/", "services/"); ("@/", "app/")])
  = "/proj/services/user"
  /\ JsString.startsWith "@/lib/x" "@/api/" = false.
Proof.
  split; [reflexivity|].
  apply (default_alias_key_never_overrides [("@/api/", "services/"); ("@/", "app/")]
           "@/lib/x" "app/" eq_refl "@/api/"); [now left|discriminate].
Defined.

(** * Further properties of src/analyze-imports.ts *)

(** ** Which file [transformToAST] parses *)

(** The name taken from a path with a slash is what follows the last one. *)
Lemma fileName_after_last_slash (dir name : string) :
  JsString.includes name "/" = false ->
  JsString.replace
    (JsString.slice (dir ++ "/" ++ name) (JsString.lastIndexOf (dir ++ "/" ++ name) "/"))
    "/" ""
  = name.
Proof.
  intros Hname.
  change (dir ++ "/" ++ name) with (dir ++ String "/" name).
  rewrite (lastIndexOf_last "/" dir name Hname), slice_append.
  rewrite (replace_prefix (String "/" name) "/" "")
    by (unfold JsString.startsWith; now rewrite prefix_char).
  reflexivity.
Qed.

Lemma find_first_match {A : Type} (f : A -> bool) (pre post : list A) (x : A) :
  Forall (fun y => f y = false) pre ->
  f x = true ->
  find f (pre ++ x :: post)%list = Some x.
Proof.
  induction 1 as [|y pre Hy _ IH]; intros Hx; cbn [app find].
  - now rewrite Hx.
  - rewrite Hy. now apply IH.
Qed.

Lemma find_no_match {A : Type} (f : A -> bool) (l : list A) :
  Forall (fun y => f y = false) l -> find f l = None.
Proof.
  induction 1 as [|y l Hy _ IH]; cbn [find]; [reflexivity|now rewrite Hy].
Qed.

(** X14. A path whose name ends in a supported suffix is taken as it is: the
    file is not checked for existence and no other suffix is tried, so a
    missing [x.ts] is never replaced by an existing [x.tsx] or [x.ts.js]. *)
Theorem supported_suffix_is_taken_as_is
        (cwd : string) (fs : FileSystem) (parse : string -> completion AST)
        (dir stem ext : string)
        (Hfile : isDirectory fs (dir ++ "/" ++ stem ++ "." ++ ext) = false)
        (Hname : JsString.includes (stem ++ "." ++ ext) "/" = false)
        (Hext : JsString.includes ext "." = false)
        (Hsupported : JsString.array_includes extensions ("." ++ ext) = true) :
  let filePath := dir ++ "/" ++ stem ++ "." ++ ext in
  chooseRealPath cwd fs filePath = Normal filePath
  /\ transformToAST cwd fs parse filePath = readAndParse fs parse filePath.
Proof.
  intros filePath.
  assert (Hchoose : chooseRealPath cwd fs filePath = Normal filePath).
  { pose proof (fileName_after_last_slash dir (stem ++ "." ++ ext) Hname) as HfileName.
    fold filePath in HfileName, Hfile.
    assert (Hdot : JsString.lastIndexOf (stem ++ "." ++ ext) "."
                   = Z.of_nat (String.length stem))
      by exact (lastIndexOf_last "." stem ext Hext).
    pose proof (slice_append stem ("." ++ ext)) as Hsuffix.
    unfold chooseRealPath. rewrite Hfile. cbv zeta.
    rewrite HfileName, Hdot, Hsuffix.
    destruct (Z.ltb_spec (-1) (Z.of_nat (String.length stem))) as [_|Hneg]; [|lia].
    rewrite Hsupported. reflexivity. }
  split; [exact Hchoose|].
  unfold transformToAST. rewrite Hchoose. cbn [bind].
  assert (Htruthy : JsString.truthy filePath = true) by (unfold filePath; now destruct dir).
  now rewrite Htruthy.
Qed.

Lemma supported_suffix_is_taken_as_is_witness :
  chooseRealPath workDir (Disk.fileSystem workDir indexDisk) "/lib/gone.ts"
  = Normal "/lib/gone.ts"
  /\ existsSync (Disk.fileSystem workDir indexDisk) "/lib/gone.ts" = false.
Proof.
  split; [|reflexivity].
  apply (supported_suffix_is_taken_as_is workDir (Disk.fileSystem workDir indexDisk)
           indexParser "/lib" "gone" "ts"); reflexivity.
Defined.

(** X15. A path whose name has no dot is probed as it is and then with [.js],
    [.jsx], [.ts], [.tsx], in that order, and the first candidate that
    exists is parsed: beside [util.js], [util.ts] is never the file read
    for [util].  When none exists nothing is read. *)
Theorem extensionless_path_is_probed_in_order
        (cwd : string) (fs : FileSystem) (dir name : string)
        (Hfile : isDirectory fs (dir ++ "/" ++ name) = false)
        (Hname : JsString.includes name "/" = false)
        (Hnodot : JsString.includes name "." = false) :
  let filePath := dir ++ "/" ++ name in
  let candidates := filePath :: map (fun ext => filePath ++ ext) extensions in
  (forall pre p post,
      candidates = (pre ++ p :: post)%list ->
      Forall (fun c => existsSync fs c = false) pre ->
      existsSync fs p = true ->
      chooseRealPath cwd fs filePath = Normal p)
  /\ (Forall (fun c => existsSync fs c = false) candidates ->
      chooseRealPath cwd fs filePath = Normal "").
Proof.
  intros filePath candidates.
  assert (Hchoose : chooseRealPath cwd fs filePath
                    = Normal (match find (existsSync fs) candidates with
                              | Some p => p
                              | None => ""
                              end)).
  { pose proof (fileName_after_last_slash dir name Hname) as HfileName.
    fold filePath in HfileName, Hfile.
    assert (Hdot : JsString.lastIndexOf name "." = (-1)%Z).
    { unfold JsString.lastIndexOf. now apply lastIndexOf_from_absent. }
    unfold chooseRealPath. rewrite Hfile. cbv zeta.
    rewrite HfileName, Hdot. reflexivity. }
  split.
  - intros pre p post Hsplit Hpre Hp. rewrite Hchoose, Hsplit.
    now rewrite (find_first_match _ pre post p Hpre Hp).
  - intros Hnone. rewrite Hchoose. now rewrite (find_no_match _ _ Hnone).
Qed.

Lemma extensionless_path_is_probed_in_order_witness :
  chooseRealPath workDir (Disk.fileSystem workDir indexDisk) "/lib/util"
  = Normal "/lib/util.js"
  /\ chooseRealPath workDir (Disk.fileSystem workDir indexDisk) "/lib/nothing"
     = Normal "".
Proof.
  split.
  - apply (proj1 (extensionless_path_is_probed_in_order workDir
                    (Disk.fileSystem workDir indexDisk) "/lib" "util"
                    eq_refl eq_refl eq_refl)
             ["/lib/util"] "/lib/util.js" ["/lib/util.jsx"; "/lib/util.ts"; "/lib/util.tsx"]);
      [reflexivity|now repeat constructor|reflexivity].
  - apply (proj2 (extensionless_path_is_probed_in_order workDir
                    (Disk.fileSystem workDir indexDisk) "/lib" "nothing"
                    eq_refl eq_refl eq_refl)).
    now repeat constructor.
Defined.

Lemma index_fold_last cwd fs filePath items realPath :
  fold_left
    (fun realPath item =>
       if negb (isDirectory fs (resolve cwd [filePath; item]))
          && JsString.includes item "index"
          && JsString.array_includes extensions
               (JsString.slice item (JsString.lastIndexOf item "."))
       then resolve cwd [filePath; item]
       else realPath)
    items realPath
  = match find (isIndexEntry cwd fs filePath) (rev items) with
    | Some item => resolve cwd [filePath; item]
    | None => realPath
    end.
Proof.
  induction items as [|item items IH] using rev_ind; [reflexivity|].
  rewrite fold_left_app, rev_unit. cbn [fold_left find].
  fold (isIndexEntry cwd fs filePath item).
  destruct (isIndexEntry cwd fs filePath item); [reflexivity|exact IH].
Qed.

(** X16. For a directory, the file parsed is the last entry of the listing
    that is not a directory, has [index] somewhere in its name and ends in
    a supported suffix: the order of the listing decides between several,
    and [reindex.tsx] qualifies as well as [index.ts]. *)
Theorem directory_takes_last_index_entry
        (cwd : string) (fs : FileSystem) (filePath : string)
        (pre post : list string) (item : string)
        (Hdir : isDirectory fs filePath = true)
        (Hlist : readdirSync fs filePath = Normal (pre ++ item :: post)%list)
        (Hitem : isIndexEntry cwd fs filePath item = true)
        (Hpost : Forall (fun other => isIndexEntry cwd fs filePath other = false) post) :
  chooseRealPath cwd fs filePath = Normal (resolve cwd [filePath; item]).
Proof.
  unfold chooseRealPath. rewrite Hdir, Hlist. cbn [bind].
  rewrite index_fold_last, rev_app_distr. cbn [rev].
  rewrite <- app_assoc. cbn [app].
  rewrite (find_first_match _ (rev post) (rev pre) item); [reflexivity| |assumption].
  apply Forall_forall. intros other Hin. apply in_rev in Hin.
  rewrite Forall_forall in Hpost. now apply Hpost.
Qed.

Lemma directory_takes_last_index_entry_witness :
  chooseRealPath workDir (Disk.fileSystem workDir indexDisk) "/ui"
  = Normal "/ui/reindex.tsx"
  /\ analyzeImports workDir (Disk.fileSystem workDir indexDisk) indexParser "/ui" None
     = Normal [("b", {| id := "/ui/b"; source := "./b"; importKind := Some value;
                        exportName := Some "default"; dependencies := None |})].
Proof.
  split; [|reflexivity].
  apply (directory_takes_last_index_entry workDir (Disk.fileSystem workDir indexDisk) "/ui"
           ["index.ts"; "index.css"] ["index.d"; "README.md"] "reindex.tsx");
    [reflexivity|reflexivity|reflexivity|now repeat constructor].
Defined.

(** X17. A directory whose listing has no entry that is a non-directory,
    has [index] in its name and ends in a supported suffix yields the empty
    table, and nothing in it is read or parsed. *)
Theorem directory_without_index_is_empty
        (cwd : string) (fs : FileSystem) (parse : string -> completion AST)
        (filter : option (string -> completion bool))
        (filePath : string) (items : list string)
        (Hdir : isDirectory fs filePath = true)
        (Hlist : readdirSync fs filePath = Normal items)
        (Hnone : Forall (fun item => isIndexEntry cwd fs filePath item = false) items) :
  chooseRealPath cwd fs filePath = Normal ""
  /\ analyzeImports cwd fs parse filePath filter = Normal [].
Proof.
  assert (Hchoose : chooseRealPath cwd fs filePath = Normal "").
  { unfold chooseRealPath. rewrite Hdir, Hlist. cbn [bind].
    rewrite index_fold_last. rewrite find_no_match; [reflexivity|].
    apply Forall_forall. intros item Hin. apply in_rev in Hin.
    rewrite Forall_forall in Hnone. now apply Hnone. }
  split; [exact Hchoose|].
  unfold analyzeImports, transformToAST. now rewrite Hchoose.
Qed.

Lemma directory_without_index_is_empty_witness :
  analyzeImports workDir (Disk.fileSystem workDir indexDisk) indexParser "/docs" None
  = Normal [].
Proof.
  apply (directory_without_index_is_empty workDir (Disk.fileSystem workDir indexDisk)
           indexParser None "/docs" ["guide.md"]); [reflexivity|reflexivity|].
  now repeat constructor.
Defined.

(** ** What [analyzeImports] lets escape, and what it swallows *)




Lemma visitSpecifier_throws_inv cwd fs filePath filter decl result spec e :
  visitSpecifier cwd fs filePath filter decl result spec = Throw e ->
  exists accepts,
    filter = Some accepts
    /\ isRelative (decl_source decl) = false
    /\ accepts (decl_source decl) = Throw e.
Proof.
  unfold visitSpecifier, absoluteSourceOf.
  destruct (isRelative (decl_source decl)).
  - destruct (isDirectory fs filePath); cbn [bind];
      destruct (JsString.truthy _); discriminate.
  - destruct filter as [accepts|].
    + destruct (accepts (decl_source decl)) as [[|]|e'] eqn:Hacc; cbn [bind].
      * destruct (JsString.truthy (decl_source decl)); discriminate.
      * discriminate.
      * intros [= <-]. now exists accepts.
    + cbn [bind]. destruct (JsString.truthy (decl_source decl)); discriminate.
Qed.




(** X19. Once the file to parse is chosen, nothing that goes wrong with it
    reaches the caller: a read that fails, an empty text, a text the parser
    rejects all give the empty table. *)
Theorem unreadable_or_unparsable_file_gives_empty_table
        (cwd : string) (fs : FileSystem) (parse : string -> completion AST)
        (filePath : string) (filter : option (string -> completion bool))
        (realPath : string)
        (Hchoose : chooseRealPath cwd fs filePath = Normal realPath)
        (Hfails : (exists e, readFileSync fs realPath = Throw e)
                  \/ readFileSync fs realPath = Normal ""
                  \/ (exists content e,
                         readFileSync fs realPath = Normal content
                         /\ parse content = Throw e)) :
  analyzeImports cwd fs parse filePath filter = Normal [].
Proof.
  unfold analyzeImports, transformToAST. rewrite Hchoose. cbn [bind].
  destruct (JsString.truthy realPath); cbn [negb bind]; [|reflexivity].
  unfold readAndParse.
  destruct Hfails as [[e Hrd]|[Hrd|[content [e [Hrd Hparse]]]]]; rewrite Hrd; cbn [bind try_catch].
  - reflexivity.
  - reflexivity.
  - destruct (JsString.truthy content); [|reflexivity].
    now rewrite Hparse.
Qed.

Lemma unreadable_or_unparsable_file_gives_empty_table_witness :
  analyzeImports workDir (Disk.fileSystem workDir indexDisk) indexParser "/lib/broken.ts" None
  = Normal []
  /\ analyzeImports workDir (Disk.fileSystem workDir indexDisk) indexParser "/lib/gone.ts" None
     = Normal []
  /\ analyzeImports workDir (Disk.fileSystem workDir indexDisk) indexParser "/ui/a.ts" None
     = Normal [].
Proof.
  split; [|split].
  - apply (unreadable_or_unparsable_file_gives_empty_table workDir
             (Disk.fileSystem workDir indexDisk) indexParser "/lib/broken.ts" None
             "/lib/broken.ts" eq_refl).
    right. right. exists "import from", (Error "SyntaxError"). split; reflexivity.
  - apply (unreadable_or_unparsable_file_gives_empty_table workDir
             (Disk.fileSystem workDir indexDisk) indexParser "/lib/gone.ts" None
             "/lib/gone.ts" eq_refl).
    left. exists (SystemError "ENOENT"). reflexivity.
  - apply (unreadable_or_unparsable_file_gives_empty_table workDir
             (Disk.fileSystem workDir indexDisk) indexParser "/ui/a.ts" None
             "/ui/a.ts" eq_refl).
    right. left. reflexivity.
Defined.

Lemma visitAll_skips cwd fs filePath filter pre rest result :
  Forall (fun b => isRelative (decl_source (fst b)) = true
                   \/ exists ok, match filter with
                                 | Some accepts => accepts (decl_source (fst b)) = Normal ok
                                 | None => True
                                 end) pre ->
  exists result', visitAll cwd fs filePath filter (pre ++ rest)%list result
                  = visitAll cwd fs filePath filter rest result'.
Proof.
  intros Hpre. revert result.
  induction Hpre as [|[decl spec] pre Hb _ IH]; intros result; [now exists result|].
  cbn [app visitAll fst snd] in *.
  destruct (visitSpecifier cwd fs filePath filter decl result spec) as [result1|e] eqn:Hvisit;
    cbn [bind]; [apply IH|].
  exfalso. destruct (visitSpecifier_throws_inv _ _ _ _ _ _ _ _ Hvisit)
    as [accepts [-> [Hbare Hthrow]]].
  destruct Hb as [Hrel|[ok Hok]]; congruence.
Qed.

(** X20. An error thrown by the filter is not caught by [analyzeImports]:
    in a module that binds no local name twice (the scope pass of
    [traverse] goes through), the first bare specifier on which the filter
    throws ends the extraction with that error, and the entries gathered so
    far are lost. *)
Theorem filter_error_escapes_analyzeImports
        (cwd : string) (fs : FileSystem) (parse : string -> completion AST)
        (filePath : string) (accepts : string -> completion bool)
        (ast : AST) (pre post : list (ImportDeclaration * SpecifierNode))
        (decl : ImportDeclaration) (spec : SpecifierNode) (e : JsError)
        (Hast : transformToAST cwd fs parse filePath = Normal (Some ast))
        (Hscope : NoDup (map localOf (bindings ast)))
        (Hsplit : bindings ast = (pre ++ (decl, spec) :: post)%list)
        (Hpre : Forall (fun b => isRelative (decl_source (fst b)) = true
                                 \/ exists ok, accepts (decl_source (fst b)) = Normal ok) pre)
        (Hbare : isRelative (decl_source decl) = false)
        (Hthrow : accepts (decl_source decl) = Throw e) :
  analyzeImports cwd fs parse filePath (Some accepts) = Throw e.
Proof.
  rewrite (analyzeImports_visitAll _ _ _ _ _ _ Hast).
  destruct (crawl_NoDup ast Hscope) as [scope ->]. cbn [bind]. rewrite Hsplit.
  destruct (visitAll_skips cwd fs filePath (Some accepts) pre ((decl, spec) :: post) [] Hpre)
    as [result' ->].
  cbn [visitAll fst snd]. unfold visitSpecifier, absoluteSourceOf.
  now rewrite Hbare, Hthrow.
Qed.

Lemma filter_error_escapes_analyzeImports_witness :
  analyzeImports workDir (Disk.fileSystem workDir shadowDisk) shadowParser
    "/app/one.ts" (Some throwOnLodash)
  = Throw (Error "filter failed")
  /\ analyzeDependencies workDir (Disk.fileSystem workDir shadowDisk) shadowParser
       8 "/app/chain.ts" (Some throwOnLodash)
     = Normal [].
Proof.
  split; [|reflexivity].
  apply (filter_error_escapes_analyzeImports workDir (Disk.fileSystem workDir shadowDisk)
           shadowParser "/app/one.ts" throwOnLodash
           [defaultImport "two" "./two"; defaultImport "_" "lodash"]
           [(defaultImport "two" "./two", ImportDefaultSpecifier "two")] []
           (defaultImport "_" "lodash") (ImportDefaultSpecifier "_") (Error "filter failed"));
    try reflexivity.
  - repeat constructor; cbn; intuition discriminate.
  - repeat constructor.
Defined.

(** ** One entry per local name *)

Lemma keys_insertIndex_Add {V : Type} (n : N) (k : string) (v : V) (o : JsObject.t V) :
  Add k (JsObject.keys o) (JsObject.keys (JsObject.insertIndex n k v o)).
Proof.
  unfold JsObject.keys. induction o as [|[k1 v1] o IH]; cbn [JsObject.insertIndex map fst].
  - constructor.
  - destruct (JsObject.arrayIndex k1) as [n1|]; [destruct (n <? n1)%N|];
      cbn [map fst]; try constructor. exact IH.
Qed.

Lemma keys_set_NoDup {V : Type} (k : string) (v : V) (o : JsObject.t V) :
  NoDup (JsObject.keys o) -> NoDup (JsObject.keys (JsObject.set k v o)).
Proof.
  intros Hnodup. unfold JsObject.set.
  destruct (JsObject.has k o) eqn:Hhas; [now rewrite keys_update|].
  assert (Hfresh : ~ In k (JsObject.keys o)).
  { intros Hin. apply get_present in Hin. unfold JsObject.has in Hhas.
    destruct (JsObject.get k o); [discriminate|contradiction]. }
  destruct (JsObject.arrayIndex k) as [n|].
  - apply (NoDup_Add (keys_insertIndex_Add n k v o)). now split.
  - unfold JsObject.keys in *. rewrite map_app. cbn [map fst].
    apply (NoDup_Add (Add_app k (map fst o) [])). rewrite app_nil_r. now split.
Qed.

Lemma keys_assign_NoDup {V : Type} (k : string) (v : V) (o : JsObject.t V) :
  NoDup (JsObject.keys o) -> NoDup (JsObject.keys (JsObject.assign k v o)).
Proof.
  intros Hnodup. unfold JsObject.assign.
  destruct (String.eqb k "__proto__"); [assumption|now apply keys_set_NoDup].
Qed.

Lemma visitSpecifier_written cwd fs filePath filter decl result spec :
  isRelative (decl_source decl) = true
  \/ (accepted filter (decl_source decl) /\ JsString.truthy (decl_source decl) = true) ->
  visitSpecifier cwd fs filePath filter decl result spec
  = Normal (JsObject.assign (local spec) (entryFor cwd fs filePath decl spec) result).
Proof.
  destruct (isRelative (decl_source decl)) eqn:Hrel.
  - intros _. now apply visitSpecifier_relative.
  - intros [Habs|[Hacc Htruthy]]; [discriminate|].
    unfold visitSpecifier, absoluteSourceOf, entryFor. rewrite Hrel.
    destruct filter as [accepts|]; cbn [accepted] in Hacc.
    + rewrite Hacc. cbn [bind]. now rewrite Htruthy.
    + cbn [bind]. now rewrite Htruthy.
Qed.

Lemma visitAll_keys_NoDup cwd fs filePath filter bs result result' :
  NoDup (JsObject.keys result) ->
  visitAll cwd fs filePath filter bs result = Normal result' ->
  NoDup (JsObject.keys result').
Proof.
  revert result. induction bs as [|[decl spec] bs IH]; intros result Hnodup.
  - now intros [= <-].
  - cbn [visitAll fst snd]. intros Hall.
    apply bind_Normal_inv in Hall. destruct Hall as [result1 [Hvisit Hrest]].
    apply (IH result1); [|assumption].
    destruct (isRelative (decl_source decl)) eqn:Hrel.
    + rewrite visitSpecifier_relative in Hvisit by assumption.
      injection Hvisit as <-. now apply keys_assign_NoDup.
    + destruct (visitSpecifier_bare _ _ _ _ _ _ _ _ Hrel Hvisit) as [[-> _]| ->];
        [now apply keys_assign_NoDup|assumption].
Qed.

(** What the visitors leave for one specifier, in a table returned by
    [analyzeImports]. *)
Lemma written_specifier_found cwd fs parse filePath filter ast result pre post decl spec :
  transformToAST cwd fs parse filePath = Normal (Some ast) ->
  analyzeImports cwd fs parse filePath filter = Normal result ->
  bindings ast = (pre ++ (decl, spec) :: post)%list ->
  isRelative (decl_source decl) = true
  \/ (accepted filter (decl_source decl) /\ JsString.truthy (decl_source decl) = true) ->
  local spec <> "__proto__" ->
  Forall (fun b => localOf b <> local spec) post ->
  JsObject.get (local spec) result = Some (entryFor cwd fs filePath decl spec).
Proof.
  intros Hast Hres Hsplit Hwritten Hname Hlast.
  destruct (analyzeImports_Normal_inv _ _ _ _ _ _ _ Hast Hres) as [_ Hall].
  rewrite Hsplit, visitAll_app in Hall.
  apply bind_Normal_inv in Hall. destruct Hall as [result1 [_ Hrest]].
  cbn [visitAll fst snd] in Hrest.
  rewrite (visitSpecifier_written _ _ _ _ _ _ _ Hwritten) in Hrest. cbn [bind] in Hrest.
  rewrite (visitAll_keeps _ _ _ _ _ _ _ _ Hrest).
  - now rewrite assign_other, get_set, String.eqb_refl by assumption.
  - intros Hin. apply in_map_iff in Hin. destruct Hin as [b [Hb Hin]].
    rewrite Forall_forall in Hlast. now apply (Hlast b Hin).
Qed.

Lemma analyzeImports_no_proto cwd fs parse filePath filter result :
  analyzeImports cwd fs parse filePath filter = Normal result ->
  JsObject.get "__proto__" result = None.
Proof.
  unfold analyzeImports.
  destruct (transformToAST cwd fs parse filePath) as [[ast|]|err]; cbn [bind];
    try discriminate.
  - rewrite traverse_visitAll. intros Hres.
    apply bind_Normal_inv in Hres. destruct Hres as [scope [_ Hall]].
    now apply (visitAll_no_proto _ _ _ _ _ _ _ Hall).
  - now intros [= <-].
Qed.

(** X21. The table returned by [analyzeImports] has one entry per local
    name and no own entry named [__proto__].  A specifier that is written
    (relative, or bare, non-empty and accepted), whose local name is not
    [__proto__] and after which no specifier binds the same name, is found
    under its name exactly as it was written. *)
Theorem analyzeImports_one_entry_per_name
        (cwd : string) (fs : FileSystem) (parse : string -> completion AST)
        (filePath : string) (filter : option (string -> completion bool))
        (ast : AST) (result : ImportTable)
        (pre post : list (ImportDeclaration * SpecifierNode))
        (decl : ImportDeclaration) (spec : SpecifierNode)
        (Hast : transformToAST cwd fs parse filePath = Normal (Some ast))
        (Hres : analyzeImports cwd fs parse filePath filter = Normal result)
        (Hsplit : bindings ast = (pre ++ (decl, spec) :: post)%list)
        (Hwritten : isRelative (decl_source decl) = true
                    \/ (accepted filter (decl_source decl)
                        /\ JsString.truthy (decl_source decl) = true))
        (Hname : local spec <> "__proto__")
        (Hlast : Forall (fun b => localOf b <> local spec) post) :
  NoDup (JsObject.keys result)
  /\ JsObject.get "__proto__" result = None
  /\ JsObject.get (local spec) result = Some (entryFor cwd fs filePath decl spec).
Proof.
  split; [|split].
  - destruct (analyzeImports_Normal_inv _ _ _ _ _ _ _ Hast Hres) as [_ Hall].
    apply (visitAll_keys_NoDup _ _ _ _ _ [] _ (NoDup_nil _) Hall).
  - exact (analyzeImports_no_proto _ _ _ _ _ _ Hres).
  - exact (written_specifier_found _ _ _ _ _ _ _ _ _ _ _ Hast Hres Hsplit Hwritten Hname Hlast).
Qed.

(** [one.ts] imports [two] from [./two] and [_] from [lodash]: each is
    found under its name. *)
Lemma analyzeImports_one_entry_per_name_witness :
  JsObject.get "two"
    [("two", {| id := "/app/two"; source := "./two"; importKind := Some value;
                exportName := Some "default"; dependencies := None |});
     ("_", {| id := "lodash"; source := "lodash"; importKind := Some value;
              exportName := Some "default"; dependencies := None |})]
  = Some (entryFor workDir (Disk.fileSystem workDir shadowDisk) "/app/one.ts"
            (defaultImport "two" "./two") (ImportDefaultSpecifier "two")).
Proof.
  apply (analyzeImports_one_entry_per_name workDir (Disk.fileSystem workDir shadowDisk)
           shadowParser "/app/one.ts" None
           [defaultImport "two" "./two"; defaultImport "_" "lodash"]
           [("two", {| id := "/app/two"; source := "./two"; importKind := Some value;
                       exportName := Some "default"; dependencies := None |});
            ("_", {| id := "lodash"; source := "lodash"; importKind := Some value;
                     exportName := Some "default"; dependencies := None |})]
           [] [(defaultImport "_" "lodash", ImportDefaultSpecifier "_")]
           (defaultImport "two" "./two") (ImportDefaultSpecifier "two")
           eq_refl eq_refl eq_refl (or_introl eq_refl)).
  - discriminate.
  - repeat constructor. discriminate.
Defined.

(** ** The filter governs bare specifiers only *)

(** X27. For every specifier node of every import declaration of a file
    for which [analyzeImports] returns a table: when the declaration's
    source is relative and the local name is not [__proto__], the table
    has an entry under the local name, whatever the filter, and (no local
    name being bound twice) that entry carries the source resolved against
    [filePath] when it is a directory and against its parent otherwise;
    every entry of the table comes from a declaration that is relative, or
    is bare with [id] the raw specifier and with no filter supplied or the
    filter accepting it.  Consequently an entry file importing a relative,
    non-JSON specifier whose file has no imports and a bare specifier the
    filter rejects gets the table with the first import only, and
    [analyzeDependencies] gives that node an empty [dependencies] table;
    this is so in particular for the imports [./a] and [lodash]. *)
Theorem filter_governs_bare_specifiers_only
        (cwd : string) (fs : FileSystem) (parse : string -> completion AST)
        (filePath : string) (filter : option (string -> completion bool))
        (ast : AST) (result : ImportTable)
        (Hast : transformToAST cwd fs parse filePath = Normal (Some ast))
        (Hres : analyzeImports cwd fs parse filePath filter = Normal result) :
  (forall decl spec,
      In decl ast -> In spec (decl_specifiers decl) ->
      isRelative (decl_source decl) = true ->
      local spec <> "__proto__" ->
      JsObject.get (local spec) result <> None
      /\ (NoDup (map localOf (bindings ast)) ->
          JsObject.get (local spec) result = Some (entryFor cwd fs filePath decl spec))
      /\ id (entryFor cwd fs filePath decl spec)
         = if isDirectory fs filePath
           then resolve cwd [filePath; decl_source decl]
           else resolve cwd [NodePath.dirname filePath; decl_source decl])
  /\ (forall k e,
         JsObject.get k result = Some e ->
         exists decl spec,
           In decl ast /\ In spec (decl_specifiers decl) /\ k = local spec
           /\ e = entryFor cwd fs filePath decl spec
           /\ (isRelative (source e) = true
               \/ (isRelative (source e) = false /\ id e = source e
                   /\ accepted filter (source e))))
  /\ (forall srcA srcL kindA kindL specA specL accepts depth,
         let declA := {| decl_source := srcA; decl_importKind := kindA;
                         decl_specifiers := [specA] |} in
         let declL := {| decl_source := srcL; decl_importKind := kindL;
                         decl_specifiers := [specL] |} in
         ast = [declA; declL] ->
         local specA <> "__proto__" ->
         isRelative srcA = true ->
         isRelative srcL = false ->
         filter = Some accepts ->
         accepts srcL = Normal false ->
         JsString.endsWith (relativeId cwd fs filePath srcA) ".json" = false ->
         analyzeImports cwd fs parse (relativeId cwd fs filePath srcA) filter = Normal [] ->
         result = [(local specA, entryFor cwd fs filePath declA specA)]
         /\ analyzeDependencies cwd fs parse (S (S depth)) filePath filter
            = Normal [(local specA,
                       set_dependencies (entryFor cwd fs filePath declA specA) [])])
  /\ (forall kindA kindL specA specL accepts depth,
         let declA := {| decl_source := "./a"; decl_importKind := kindA;
                         decl_specifiers := [specA] |} in
         let declL := {| decl_source := "lodash"; decl_importKind := kindL;
                         decl_specifiers := [specL] |} in
         ast = [declA; declL] ->
         local specA <> "__proto__" ->
         filter = Some accepts ->
         accepts "lodash" = Normal false ->
         analyzeImports cwd fs parse (relativeId cwd fs filePath "./a") filter = Normal [] ->
         result = [(local specA,
                    {| id := relativeId cwd fs filePath "./a"; source := "./a";
                       importKind := kindA; exportName := exportNameOf specA;
                       dependencies := None |})]
         /\ analyzeDependencies cwd fs parse (S (S depth)) filePath filter
            = Normal [(local specA,
                       {| id := relativeId cwd fs filePath "./a"; source := "./a";
                          importKind := kindA; exportName := exportNameOf specA;
                          dependencies := Some [] |})]).
Proof.
  destruct (analyzeImports_Normal_inv _ _ _ _ _ _ _ Hast Hres) as [_ Hall].
  assert (Hexample :
            forall srcA srcL kindA kindL specA specL accepts depth,
              let declA := {| decl_source := srcA; decl_importKind := kindA;
                              decl_specifiers := [specA] |} in
              let declL := {| decl_source := srcL; decl_importKind := kindL;
                              decl_specifiers := [specL] |} in
              ast = [declA; declL] ->
              local specA <> "__proto__" ->
              isRelative srcA = true ->
              isRelative srcL = false ->
              filter = Some accepts ->
              accepts srcL = Normal false ->
              JsString.endsWith (relativeId cwd fs filePath srcA) ".json" = false ->
              analyzeImports cwd fs parse (relativeId cwd fs filePath srcA) filter
              = Normal [] ->
              result = [(local specA, entryFor cwd fs filePath declA specA)]
              /\ analyzeDependencies cwd fs parse (S (S depth)) filePath filter
                 = Normal [(local specA,
                            set_dependencies (entryFor cwd fs filePath declA specA) [])]).
  { intros srcA srcL kindA kindL specA specL accepts depth declA declL
           Hshape Hname HrelA HbareL Hfilter Hreject Hjson HinnerA.
    assert (Hresult : result = [(local specA, entryFor cwd fs filePath declA specA)]).
    { subst ast.
      change (visitAll cwd fs filePath filter [(declA, specA); (declL, specL)] []
              = Normal result) in Hall.
      cbn [visitAll fst snd] in Hall.
      rewrite (visitSpecifier_relative cwd fs filePath filter declA [] specA HrelA) in Hall.
      cbn [bind] in Hall.
      rewrite (visitSpecifier_rejected cwd fs filePath filter declL _ specL accepts
                 Hfilter HbareL Hreject)
        in Hall.
      cbn [bind] in Hall. injection Hall as <-.
      rewrite assign_other by exact Hname. apply set_empty. }
    split; [exact Hresult|].
    unfold analyzeDependencies, analyzeDependencies_try.
    rewrite Hres, Hresult.
    cbn [deepCollect forEachEntry source id entryFor decl_source declA].
    rewrite HrelA, Hjson. cbn [negb andb].
    fold declA. rewrite HinnerA.
    reflexivity. }
  split; [|split; [|split; [exact Hexample|]]].
  - intros decl spec Hdecl Hspec Hrel Hname.
    assert (Hin : In (decl, spec) (bindings ast)) by now apply in_bindings.
    split; [|split].
    + exact (visitAll_relative_included _ _ _ _ _ _ _ _ _ Hall Hin Hrel Hname).
    + intros Hnodup.
      exact (visitAll_relative_exact _ _ _ _ _ _ _ _ _ Hnodup Hall Hin Hrel Hname).
    + cbn [id entryFor]. now rewrite Hrel.
  - intros k e Hget.
    destruct (visitAll_provenance _ _ _ _ _ _ _ _ _ Hall Hget)
      as [Hnone|[decl [spec [Hin [Hk [He Hwhy]]]]]]; [discriminate|].
    apply in_bindings in Hin. destruct Hin as [Hdecl Hspec].
    exists decl, spec. repeat split; try assumption.
    subst e. cbn [source id entryFor].
    destruct (isRelative (decl_source decl)) eqn:Hrel; [now left|].
    right. destruct Hwhy as [Hwhy|Hwhy]; [discriminate|auto].
  - intros kindA kindL specA specL accepts depth declA declL Hshape Hname Hfilter Hreject
           HinnerA.
    exact (Hexample "./a" "lodash" kindA kindL specA specL accepts depth
             Hshape Hname eq_refl eq_refl Hfilter Hreject
             (relativeId_dot_a_not_json cwd fs filePath) HinnerA).
Qed.

(** The entry of [filterDisk] imports [./a] and [lodash]; the filter
    rejects [lodash]; [a.ts] imports nothing. *)
Lemma filter_governs_bare_specifiers_only_witness :
  analyzeImports workDir (Disk.fileSystem workDir filterDisk) filterParser
    "/proj/src/entry.ts" (Some rejectLodash)
  = Normal [("a", {| id := "/proj/src/a"; source := "./a"; importKind := Some value;
                     exportName := Some "default"; dependencies := None |})]
  /\ analyzeDependencies workDir (Disk.fileSystem workDir filterDisk) filterParser
       2 "/proj/src/entry.ts" (Some rejectLodash)
     = Normal [("a", {| id := "/proj/src/a"; source := "./a"; importKind := Some value;
                        exportName := Some "default"; dependencies := Some [] |})].
Proof.
  split; [reflexivity|].
  destruct (proj2 (proj2 (proj2 (filter_governs_bare_specifiers_only
                                   workDir (Disk.fileSystem workDir filterDisk) filterParser
                                   "/proj/src/entry.ts" (Some rejectLodash)
                                   [defaultImport "a" "./a"; defaultImport "_" "lodash"]
                                   [("a", {| id := "/proj/src/a"; source := "./a";
                                             importKind := Some value;
                                             exportName := Some "default";
                                             dependencies := None |})]
                                   eq_refl eq_refl)))
              (Some value) (Some value)
              (ImportDefaultSpecifier "a") (ImportDefaultSpecifier "_")
              rejectLodash 0
              eq_refl ltac:(discriminate) eq_refl eq_refl eq_refl)
    as [_ Hgraph].
  rewrite Hgraph. reflexivity.
Defined.

(** ** The ids of relative imports *)

Lemma resolve_from_absolute cwd a b :
  JsString.startsWith a "/" = true ->
  JsString.startsWith (resolve cwd [a; b]) "/" = true.
Proof.
  intros Ha. unfold resolve, NodePath.resolve. change (rev [a; b]) with [b; a].
  assert (Hnonempty : String.eqb a "" = false) by (destruct a; [discriminate|reflexivity]).
  assert (Habs : snd (NodePath.resolve_loop cwd [b; a] "") = true).
  { cbn [NodePath.resolve_loop].
    destruct (String.eqb b "").
    - cbn [NodePath.resolve_loop]. now rewrite Hnonempty, Ha.
    - destruct (JsString.startsWith b "/"); [reflexivity|].
      cbn [NodePath.resolve_loop]. now rewrite Hnonempty, Ha. }
  destruct (NodePath.resolve_loop cwd [b; a] "") as [resolvedPath abs].
  cbn [snd] in Habs. subst abs. apply (startsWith_append "/").
Qed.

Lemma dirname_scan_positive chars :
  forall i matchedSlash stop,
    length chars <= i ->
    NodePath.dirname_scan chars i matchedSlash = Some stop ->
    1 <= stop.
Proof.
  induction chars as [|c chars IH]; intros i matchedSlash stop Hlen; [discriminate|].
  cbn [NodePath.dirname_scan length] in *.
  destruct (Ascii.eqb c "/").
  - destruct matchedSlash.
    + apply IH. lia.
    + intros [= <-]. lia.
  - apply IH. lia.
Qed.

Lemma dirname_of_absolute p :
  JsString.startsWith p "/" = true ->
  JsString.startsWith (NodePath.dirname p) "/" = true.
Proof.
  unfold JsString.startsWith. destruct p as [|c0 tail]; [discriminate|].
  rewrite prefix_char. intros Hc0.
  rewrite Ascii.eqb_sym in Hc0. unfold NodePath.dirname. rewrite Hc0.
  destruct (NodePath.dirname_scan (rev (list_ascii_of_string tail)) (String.length tail) true)
    as [stop|] eqn:Hscan; [|reflexivity].
  cbn [andb]. destruct (stop =? 1)%nat; [reflexivity|].
  assert (Hpos : 1 <= stop).
  { apply (dirname_scan_positive (rev (list_ascii_of_string tail)) (String.length tail) true);
      [|assumption].
    rewrite length_rev. clear. induction tail; cbn; lia. }
  unfold JsString.slice_to. rewrite Nat2Z.id.
  destruct stop as [|stop]; [lia|].
  cbn [JsString.take]. rewrite prefix_char.
  apply Ascii.eqb_eq in Hc0. now rewrite Hc0.
Qed.

(** X22. When the path analysed is absolute, the [id] of every entry with a
    relative source is an absolute path, whatever the working directory:
    the recursion of [analyzeDependencies] never depends on where the
    process runs. *)
Theorem relative_imports_get_absolute_ids
        (cwd : string) (fs : FileSystem) (parse : string -> completion AST)
        (filePath : string) (filter : option (string -> completion bool))
        (result : ImportTable) (k : string) (e : ImportMapWithDeps)
        (Habsolute : JsString.startsWith filePath "/" = true)
        (Hres : analyzeImports cwd fs parse filePath filter = Normal result)
        (Hget : JsObject.get k result = Some e)
        (Hrel : isRelative (source e) = true) :
  JsString.startsWith (id e) "/" = true.
Proof.
  unfold analyzeImports in Hres.
  destruct (transformToAST cwd fs parse filePath) as [[ast|]|err]; cbn [bind] in Hres;
    try discriminate.
  - rewrite traverse_visitAll in Hres.
    apply bind_Normal_inv in Hres. destruct Hres as [scope [_ Hres]].
    destruct (visitAll_provenance _ _ _ _ _ _ _ _ _ Hres Hget)
      as [Hnone|[decl [spec [_ [_ [-> _]]]]]]; [discriminate|].
    cbn [source id entryFor] in *. rewrite Hrel. unfold relativeId.
    destruct (isDirectory fs filePath); apply resolve_from_absolute;
      [assumption|now apply dirname_of_absolute].
  - injection Hres as <-. discriminate.
Qed.

Lemma relative_imports_get_absolute_ids_witness :
  JsString.startsWith "/app/one" "/" = true.
Proof.
  apply (relative_imports_get_absolute_ids "relative/cwd"
           (Disk.fileSystem workDir shadowDisk) shadowParser "/app/chain.ts" None
           [("one", {| id := "/app/one"; source := "./one"; importKind := Some value;
                       exportName := Some "default"; dependencies := None |});
            ("d", {| id := "/app/data.json"; source := "./data.json";
                     importKind := Some value; exportName := Some "default";
                     dependencies := None |})]
           "one" {| id := "/app/one"; source := "./one"; importKind := Some value;
                    exportName := Some "default"; dependencies := None |});
    reflexivity.
Defined.

(** ** What [deepCollect] does to a table *)

Lemma collectedFrom_refl cwd fs parse filter entry :
  collectedFrom cwd fs parse filter entry entry.
Proof.
  unfold collectedFrom, sameImport. repeat split; auto.
Qed.

Lemma collectedFrom_columns cwd fs parse filter before after :
  Forall2 (collectedFrom cwd fs parse filter) before after ->
  map fst after = map fst before
  /\ map (fun entry => id (snd entry)) after = map (fun entry => id (snd entry)) before.
Proof.
  induction 1 as [|x y before after [Hkey [[Hid _] _]] _ [IHk IHi]]; [split; reflexivity|].
  cbn [map]. now rewrite Hkey, Hid, IHk, IHi.
Qed.

(** The loop keeps every entry in its place; each one is what the callback
    left of it. *)
Lemma forEachEntry_related (R : string * ImportMapWithDeps -> string * ImportMapWithDeps -> Prop)
      visit last :
  (forall entry, R entry entry) ->
  (forall key dep, R (key, dep) (key, fst (visit dep))) ->
  Forall2 R last (fst (forEachEntry visit last)).
Proof.
  intros Hrefl Hvisit. induction last as [|[key dep] rest IH]; [constructor|].
  cbn [forEachEntry]. specialize (Hvisit key dep).
  destruct (visit dep) as [dep' [u|e]]; cbn [fst] in Hvisit.
  - destruct (forEachEntry visit rest) as [rest' c']. cbn [fst] in *. now constructor.
  - cbn [fst]. constructor; [assumption|].
    clear -Hrefl. induction rest; constructor; auto.
Qed.

Lemma deepCollect_collectedFrom cwd fs parse filter depth :
  forall last parentIds,
    Forall2 (collectedFrom cwd fs parse filter) last
            (fst (deepCollect cwd fs parse filter depth last parentIds)).
Proof.
  induction depth as [|depth IH]; intros last parentIds.
  - cbn [deepCollect fst]. induction last; constructor; auto using collectedFrom_refl.
  - cbn [deepCollect]. apply forEachEntry_related; [apply collectedFrom_refl|].
    intros key dep. fold (expandable dep).
    destruct (expandable dep) eqn:Hexp; [|apply collectedFrom_refl].
    destruct (analyzeImports cwd fs parse (id dep) filter) as [inner|e] eqn:Hinner;
      [|apply collectedFrom_refl].
    destruct (negb (existsb _ (JsObject.values inner))); [|apply collectedFrom_refl].
    specialize (IH inner (parentIds ++ [id dep])%list).
    destruct (deepCollect cwd fs parse filter depth inner (parentIds ++ [id dep])%list)
      as [deps' c].
    cbn [fst] in *. unfold collectedFrom, sameImport.
    cbn [fst snd set_dependencies id source importKind exportName dependencies].
    repeat split; [congruence|].
    right. exists inner, deps'.
    destruct (collectedFrom_columns _ _ _ _ _ _ IH) as [Hkeys Hids]. auto.
Qed.

Lemma In_get_NoDup {V : Type} (k : string) (v : V) (o : JsObject.t V) :
  NoDup (JsObject.keys o) -> In (k, v) o -> JsObject.get k o = Some v.
Proof.
  induction o as [|[k1 v1] o IH]; [contradiction|].
  cbn [JsObject.keys map fst]. intros Hnodup Hin.
  inversion Hnodup as [|? ? Hfresh Hnodup']; subst.
  cbn [JsObject.get]. destruct Hin as [[= -> ->]|Hin].
  - now rewrite String.eqb_refl.
  - destruct (String.eqb_spec k k1) as [->|_]; [|now apply IH].
    exfalso. apply Hfresh. now apply (in_map fst) in Hin.
Qed.

Lemma analyzeImports_keys_NoDup cwd fs parse filePath filter result :
  analyzeImports cwd fs parse filePath filter = Normal result ->
  NoDup (JsObject.keys result).
Proof.
  unfold analyzeImports.
  destruct (transformToAST cwd fs parse filePath) as [[ast|]|err]; cbn [bind];
    try discriminate.
  - rewrite traverse_visitAll. intros Hres.
    apply bind_Normal_inv in Hres. destruct Hres as [scope [_ Hall]].
    exact (visitAll_keys_NoDup _ _ _ _ _ [] _ (NoDup_nil _) Hall).
  - intros [= <-]. constructor.
Qed.

(** X23. When the traversal completes, the graph returned has exactly the
    root's own imports at its top level: same keys in the same order, same
    [id], [source], [importKind] and [exportName].  An import that is bare
    or whose id ends in [.json] is returned untouched, without
    [dependencies]; a [dependencies] table that was attached has the keys
    and ids of the imports of the entry's target. *)
Theorem analyzeDependencies_keeps_the_root_imports
        (cwd : string) (fs : FileSystem) (parse : string -> completion AST)
        (depth : nat) (filePath : string) (filter : option (string -> completion bool))
        (direct graph : ImportTable)
        (Hroot : analyzeImports cwd fs parse filePath filter = Normal direct)
        (Hcompletes : snd (analyzeDependencies_try cwd fs parse depth filePath filter)
                      = Normal graph) :
  analyzeDependencies cwd fs parse depth filePath filter = Normal graph
  /\ Forall2 (collectedFrom cwd fs parse filter) direct graph
  /\ (forall key node,
         In (key, node) graph -> expandable node = false -> dependencies node = None).
Proof.
  assert (Hshape : Forall2 (collectedFrom cwd fs parse filter) direct graph).
  { unfold analyzeDependencies_try in Hcompletes. rewrite Hroot in Hcompletes.
    pose proof (deepCollect_collectedFrom cwd fs parse filter depth direct [filePath])
      as Hrel.
    destruct (deepCollect cwd fs parse filter depth direct [filePath]) as [deps' c].
    cbn [fst snd] in *. destruct c as [u|e]; cbn [bind] in Hcompletes; [|discriminate].
    now injection Hcompletes as <-. }
  split; [|split; [exact Hshape|]].
  - unfold analyzeDependencies. now rewrite Hcompletes.
  - intros key node Hin Hleaf.
    assert (Hdirect : exists before,
               In before direct /\ collectedFrom cwd fs parse filter before (key, node)).
    { clear -Hshape Hin. induction Hshape as [|x y direct graph Hxy _ IH]; [contradiction|].
      destruct Hin as [->|Hin].
      - exists x. split; [now left|assumption].
      - destruct (IH Hin) as [before [Hb Hrel]]. exists before. split; [now right|assumption]. }
    destruct Hdirect as [[key0 before] [Hin0 [_ [[Hid [Hsrc _]] [Hkeep _]]]]].
    cbn [fst snd] in *.
    assert (Hexp : expandable before = false).
    { unfold expandable in *. now rewrite Hid, Hsrc. }
    rewrite (Hkeep Hexp).
    pose proof (analyzeImports_allLeaves _ _ _ _ _ _ Hroot) as Hleaves.
    unfold allLeaves in Hleaves. rewrite Forall_forall in Hleaves.
    exact (Hleaves _ Hin0).
Qed.

(** From [chain.ts]: [./one] is expanded, [./data.json] is left as it is. *)
Lemma analyzeDependencies_keeps_the_root_imports_witness :
  analyzeDependencies workDir (Disk.fileSystem workDir shadowDisk) shadowParser
    4 "/app/chain.ts" None
  = Normal
      [("one", {| id := "/app/one"; source := "./one"; importKind := Some value;
                  exportName := Some "default";
                  dependencies :=
                    Some [("two", {| id := "/app/two"; source := "./two";
                                     importKind := Some value;
                                     exportName := Some "default";
                                     dependencies := Some [] |});
                          ("_", {| id := "lodash"; source := "lodash";
                                   importKind := Some value;
                                   exportName := Some "default";
                                   dependencies := None |})] |});
       ("d", {| id := "/app/data.json"; source := "./data.json"; importKind := Some value;
                exportName := Some "default"; dependencies := None |})].
Proof.
  apply (analyzeDependencies_keeps_the_root_imports workDir
           (Disk.fileSystem workDir shadowDisk) shadowParser 4 "/app/chain.ts" None
           [("one", {| id := "/app/one"; source := "./one"; importKind := Some value;
                       exportName := Some "default"; dependencies := None |});
            ("d", {| id := "/app/data.json"; source := "./data.json";
                     importKind := Some value; exportName := Some "default";
                     dependencies := None |})]);
    reflexivity.
Defined.

(** ** The cycle guard as an invariant of the graph *)

Lemma guarded_leaf parentIds node : dependencies node = None -> guarded parentIds node.
Proof.
  destruct node as [i s k e [deps|]]; cbn; [discriminate|trivial].
Qed.

Lemma guarded_expanded parentIds node deps :
  dependencies node = Some deps ->
  (guarded parentIds node
   <-> Forall (fun entry => ~ In (id (snd entry)) parentIds
                            /\ guarded (parentIds ++ [id node])%list (snd entry)) deps).
Proof.
  destruct node as [i s k e [deps0|]]; cbn [dependencies id]; [|discriminate].
  intros [= ->]. cbn [guarded].
  induction deps as [|[key child] deps IH].
  - split; [constructor|trivial].
  - split.
    + intros [Hnot [Hchild Hrest]]. constructor; [now split|now apply IH].
    + intros Hall. inversion Hall as [|? ? [Hnot Hchild] Hrest]; subst.
      repeat split; [assumption..|now apply IH].
Qed.

Lemma forEachEntry_all (Qin Qout : ImportMapWithDeps -> Prop) visit last :
  (forall dep, Qin dep -> Qout dep) ->
  (forall dep, Qin dep -> Qout (fst (visit dep))) ->
  Forall (fun entry => Qin (snd entry)) last ->
  Forall (fun entry => Qout (snd entry)) (fst (forEachEntry visit last)).
Proof.
  intros Hkeep Hvisit Hall.
  induction Hall as [|[key dep] rest Hdep Hrest IH]; [constructor|].
  cbn [forEachEntry snd] in *. specialize (Hvisit dep Hdep).
  destruct (visit dep) as [dep' [u|e]]; cbn [fst] in Hvisit.
  - destruct (forEachEntry visit rest) as [rest' c']. cbn [fst] in *. now constructor.
  - cbn [fst]. constructor; [assumption|].
    apply Forall_impl with (2 := Hrest). intros [k d]. apply Hkeep.
Qed.

Lemma guard_passed parentIds (inner : ImportTable) :
  existsb (fun i => JsString.array_includes parentIds (id i)) (JsObject.values inner) = false ->
  forall x, In x (map (fun entry => id (snd entry)) inner) -> ~ In x parentIds.
Proof.
  intros Hguard x Hx Hin.
  apply in_map_iff in Hx. destruct Hx as [[key child] [<- Hchild]].
  assert (Hex : existsb (fun i => JsString.array_includes parentIds (id i))
                        (JsObject.values inner) = true).
  { apply existsb_exists. exists child. split.
    - unfold JsObject.values. now apply (in_map snd) in Hchild.
    - unfold JsString.array_includes. apply existsb_exists.
      exists (id child). split; [assumption|apply String.eqb_refl]. }
  congruence.
Qed.

Lemma deepCollect_guarded cwd fs parse filter depth :
  forall last parentIds,
    allLeaves last ->
    Forall (fun entry => guarded parentIds (snd entry))
           (fst (deepCollect cwd fs parse filter depth last parentIds)).
Proof.
  induction depth as [|depth IH]; intros last parentIds Hleaves.
  - cbn [deepCollect fst]. apply Forall_impl with (2 := Hleaves).
    intros [k d]. apply guarded_leaf.
  - cbn [deepCollect].
    apply (forEachEntry_all (fun dep => dependencies dep = None) (guarded parentIds));
      [apply guarded_leaf| |exact Hleaves].
    intros dep Hleaf. fold (expandable dep).
    destruct (expandable dep); [|now apply guarded_leaf].
    destruct (analyzeImports cwd fs parse (id dep) filter) as [inner|e] eqn:Hinner;
      [|now apply guarded_leaf].
    destruct (existsb (fun i => JsString.array_includes parentIds (id i))
                      (JsObject.values inner)) eqn:Hguard; cbn [negb];
      [now apply guarded_leaf|].
    pose proof (deepCollect_collectedFrom cwd fs parse filter depth inner
                  (parentIds ++ [id dep])%list) as Hshape.
    specialize (IH inner (parentIds ++ [id dep])%list
                   (analyzeImports_allLeaves _ _ _ _ _ _ Hinner)).
    destruct (deepCollect cwd fs parse filter depth inner (parentIds ++ [id dep])%list)
      as [deps' c].
    cbn [fst] in *.
    apply (guarded_expanded parentIds (set_dependencies dep deps') deps' eq_refl).
    cbn [set_dependencies id].
    destruct (collectedFrom_columns _ _ _ _ _ _ Hshape) as [_ Hids].
    apply Forall_forall. intros [key child] Hchild. cbn [snd]. split.
    + apply (guard_passed parentIds inner Hguard). rewrite <- Hids.
      now apply (in_map (fun entry => id (snd entry))) in Hchild.
    + rewrite Forall_forall in IH. exact (IH _ Hchild).
Qed.

(** X24. In every graph [analyzeDependencies] returns, a node that was given
    [dependencies] has no child whose id is the root path or the id of a
    node above it, at any depth.  In particular no expanded top-level node
    has a child with the root path as id, and below an expanded top-level
    node no expanded node has a child with the root path or that
    top-level node's id. *)
Theorem analyzeDependencies_graph_is_guarded
        (cwd : string) (fs : FileSystem) (parse : string -> completion AST)
        (depth : nat) (filePath : string) (filter : option (string -> completion bool))
        (graph : ImportTable)
        (Hgraph : analyzeDependencies cwd fs parse depth filePath filter = Normal graph) :
  Forall (fun entry => guarded [filePath] (snd entry)) graph
  /\ (forall key node deps keyC child,
         In (key, node) graph -> dependencies node = Some deps ->
         In (keyC, child) deps ->
         id child <> filePath
         /\ forall deps2 keyG grandchild,
             dependencies child = Some deps2 -> In (keyG, grandchild) deps2 ->
             id grandchild <> filePath /\ id grandchild <> id node).
Proof.
  assert (Hall : Forall (fun entry => guarded [filePath] (snd entry)) graph).
  { unfold analyzeDependencies, analyzeDependencies_try in Hgraph.
    destruct (analyzeImports cwd fs parse filePath filter) as [direct|e] eqn:Hroot;
      cbn [snd try_catch] in Hgraph; [|injection Hgraph as <-; constructor].
    pose proof (deepCollect_guarded cwd fs parse filter depth direct [filePath]
                  (analyzeImports_allLeaves _ _ _ _ _ _ Hroot)) as Hguarded.
    destruct (deepCollect cwd fs parse filter depth direct [filePath]) as [deps' c].
    cbn [fst snd] in *.
    destruct c as [u|e]; cbn [bind try_catch] in Hgraph; injection Hgraph as <-;
      [assumption|constructor]. }
  split; [exact Hall|].
  intros key node deps keyC child Hnode Hdeps Hchild.
  rewrite Forall_forall in Hall. pose proof (Hall _ Hnode) as Hg. cbn [snd] in Hg.
  apply (guarded_expanded _ _ _ Hdeps) in Hg.
  rewrite Forall_forall in Hg. destruct (Hg _ Hchild) as [Hnot Hg']. cbn [snd] in *.
  split; [intros Heq; apply Hnot; now left|].
  intros deps2 keyG grandchild Hdeps2 Hgrand.
  apply (guarded_expanded _ _ _ Hdeps2) in Hg'.
  rewrite Forall_forall in Hg'. destruct (Hg' _ Hgrand) as [Hnot2 _]. cbn [snd app] in Hnot2.
  split; intros Heq; apply Hnot2; [now left|right; now left].
Qed.

Lemma analyzeDependencies_graph_is_guarded_witness :
  guarded ["/p/a.ts"]
    {| id := "/p/b"; source := "./b"; importKind := Some value;
       exportName := Some "default";
       dependencies :=
         Some [("a", {| id := "/p/a"; source := "./a"; importKind := Some value;
                        exportName := Some "default"; dependencies := None |})] |}.
Proof.
  pose proof (proj1 (analyzeDependencies_graph_is_guarded workDir
                       (Disk.fileSystem workDir cycleDisk) cycleParser 4 "/p/a.ts" None
                       _ eq_refl)) as Hall.
  inversion Hall as [|? ? Hnode _]. exact Hnode.
Defined.

(** ** The stack depth does not shape the graph *)






(** X26. For a path with a slash whose name ends in a dot-suffix other than
    [.js], [.jsx], [.ts], [.tsx], nothing is chosen to be parsed: the file
    is neither probed, read nor parsed, whatever it holds and whatever the
    parser and the filter are, and the table is empty. *)
Theorem unsupported_suffix_is_never_opened
        (cwd : string) (fs : FileSystem) (parse : string -> completion AST)
        (filter : option (string -> completion bool))
        (dir stem ext : string)
        (Hfile : isDirectory fs (dir ++ "/" ++ stem ++ "." ++ ext) = false)
        (Hname : JsString.includes (stem ++ "." ++ ext) "/" = false)
        (Hext : JsString.includes ext "." = false)
        (Hunsupported : JsString.array_includes extensions ("." ++ ext) = false) :
  chooseRealPath cwd fs (dir ++ "/" ++ stem ++ "." ++ ext) = Normal ""
  /\ analyzeImports cwd fs parse (dir ++ "/" ++ stem ++ "." ++ ext) filter = Normal [].
Proof.
  destruct (unsupported_suffix_not_read cwd fs parse filter dir stem ext
              Hfile Hname Hext Hunsupported) as [Hchoose [_ Hempty]].
  split; assumption.
Qed.

(** A [package.json] handed to [analyzeImports] by its absolute path is
    not opened. *)
Lemma unsupported_suffix_is_never_opened_witness :
  chooseRealPath workDir (Disk.fileSystem workDir buttonDisk) "/proj/package.json"
  = Normal ""
  /\ analyzeImports workDir (Disk.fileSystem workDir buttonDisk) indexParser
       "/proj/package.json" None
     = Normal [].
Proof.
  apply (unsupported_suffix_is_never_opened workDir (Disk.fileSystem workDir buttonDisk)
           indexParser None "/proj" "package" "json"); reflexivity.
Defined.
